(** * fb_post: a shallow embedding of [fb_post.py] and its properties

    The development follows the layout of the script: Python string
    primitives, the page registry ([load_facebook_pages]), the content
    parser ([parse_post_content]), the post loader, the publisher
    ([FacebookPoster]) and the orchestrator ([main]).

    Python [str] values are sequences of Unicode code points and are
    modelled as [list N].  The interpreter's Unicode tables are not part of
    the script; those that matter ([str.upper], [str.lower] and
    printability, used by [repr]) are fixed concretely on ASCII and taken
    as a parameter above it (record [Unicode]). *)

From Stdlib Require Import ZArith NArith Ascii String List Lia Bool.
From Stdlib Require Import DecimalString.
From stdpp Require Import base list gmap sorting.

Set Warnings "-register-all".
Local Open Scope N_scope.

(** ** Python strings *)

Abbreviation str := (list N).

(** A string literal of the script, as code points. *)
Definition py (s : string) : str :=
  List.map N_of_ascii (list_ascii_of_string s).

(** Unicode data of the interpreter above ASCII. *)
Record Unicode := {
  unicode_upper : N -> str;      (* full upper-case mapping of a code point *)
  unicode_lower : N -> str;      (* full lower-case mapping of a code point *)
  unicode_printable : N -> bool  (* [str.isprintable] of a code point *)
}.

(** The trivial table: no case mapping and nothing printable above ASCII. *)
Definition ascii_only : Unicode :=
  {| unicode_upper := fun c => [c];
     unicode_lower := fun c => [c];
     unicode_printable := fun _ => false |}.

(** [Py_UNICODE_ISSPACE]: the characters removed by [str.strip()]. *)
Definition isspace (c : N) : bool :=
  ((9 <=? c) && (c <=? 13)) || ((28 <=? c) && (c <=? 32))
  || (c =? 133) || (c =? 160) || (c =? 5760)
  || ((8192 <=? c) && (c <=? 8202))
  || (c =? 8232) || (c =? 8233) || (c =? 8239) || (c =? 8287) || (c =? 12288).

Fixpoint lstrip (s : str) : str :=
  match s with
  | [] => []
  | c :: s' => if isspace c then lstrip s' else s
  end.

Definition rstrip (s : str) : str := rev (lstrip (rev s)).

(** [s.strip()] *)
Definition strip (s : str) : str := rstrip (lstrip s).

(** [s.startswith(prefix)] *)
Fixpoint startswith (s prefix : str) {struct prefix} : bool :=
  match prefix, s with
  | [], _ => true
  | p :: prefix', c :: s' => (c =? p) && startswith s' prefix'
  | _ :: _, [] => false
  end.

(** [s.endswith(suffix)] *)
Definition endswith (s suffix : str) : bool :=
  startswith (rev s) (rev suffix).

(** [s.split(sep)] for a one-character separator: never empty. *)
Fixpoint split (sep : N) (s : str) : list str :=
  match s with
  | [] => [[]]
  | c :: s' =>
      if c =? sep then [] :: split sep s'
      else match split sep s' with
           | l :: ls => (c :: l) :: ls
           | [] => [[c]]
           end
  end.

(** [sep.join(parts)] *)
Fixpoint join (sep : str) (parts : list str) : str :=
  match parts with
  | [] => []
  | [p] => p
  | p :: ps => p ++ sep ++ join sep ps
  end.

(** [s.replace(a, b)] for one-character [a] and [b]. *)
Definition replace (a b : N) (s : str) : str :=
  List.map (fun c => if c =? a then b else c) s.

(** Truthiness of a string: [if s:] / [not s]. *)
Definition nonempty (s : str) : bool :=
  match s with [] => false | _ => true end.

Definition nonempty_list {X} (l : list X) : bool :=
  match l with [] => false | _ => true end.

(** [s.upper()]: code point by code point. *)
Definition upper_char (U : Unicode) (c : N) : str :=
  if (97 <=? c) && (c <=? 122) then [c - 32]
  else if c <? 128 then [c]
  else unicode_upper U c.

Definition upper (U : Unicode) (s : str) : str :=
  flat_map (upper_char U) s.

(** [s.lower()] *)
Definition lower_char (U : Unicode) (c : N) : str :=
  if (65 <=? c) && (c <=? 90) then [c + 32]
  else if c <? 128 then [c]
  else unicode_lower U c.

Definition lower (U : Unicode) (s : str) : str :=
  flat_map (lower_char U) s.

(** Decimal rendering of an integer: [str(n)]. *)
Definition str_of_Z (z : Z) : str := py (NilEmpty.string_of_int (Z.to_int z)).

Definition NEWLINE : N := 10.
Definition PIPE : N := 124.

(** Comparison of strings, [a <= b] in Python: lexicographic on code points. *)
Fixpoint str_leb (a b : str) : bool :=
  match a, b with
  | [], _ => true
  | _ :: _, [] => false
  | x :: a', y :: b' => (x <? y) || ((x =? y) && str_leb a' b')
  end.

Definition str_le (a b : str) : Prop := Is_true (str_leb a b).

(** ** Python values decoded from JSON

    [response.json()] yields [None], [bool], [int], [str], [list] or
    [dict].  Numbers are the integers (identifiers and counters of the
    Graph API are strings and integers).  A [dict] is kept as the list of
    its items in insertion order, keys distinct. *)

Inductive json :=
| JNull
| JBool (b : bool)
| JInt (z : Z)
| JStr (s : str)
| JArr (items : list json)
| JObj (members : list (str * json)).

(** Exceptions derived from [Exception] that the script can meet. *)
Inductive exception :=
| AttributeError | TypeError | KeyError | ValueError (msg : str)
| OSError (msg : str) | RequestException (msg : str).

(** What a [try] block can see raised. [KeyboardInterrupt] and
    [SystemExit] derive from [BaseException] only. *)
Inductive raised :=
| KeyboardInterrupt
| SystemExit (code : N)
| Exc (e : exception).

Definition str_eqb (a b : str) : bool := bool_decide (a = b).

Fixpoint dict_lookup (key : str) (members : list (str * json)) : option json :=
  match members with
  | [] => None
  | (k, v) :: rest => if str_eqb k key then Some v else dict_lookup key rest
  end.

(** [needle in s] on strings: substring test. *)
Fixpoint substring_of (needle s : str) : bool :=
  startswith s needle ||
  match s with
  | [] => false
  | _ :: s' => substring_of needle s'
  end.

(** [key in v] *)
Definition py_in (key : str) (v : json) : exception + bool :=
  match v with
  | JObj members => inr (bool_decide (is_Some (dict_lookup key members)))
  | JArr items =>
      inr (existsb (fun x => match x with JStr s => str_eqb s key | _ => false end) items)
  | JStr s => inr (substring_of key s)
  | JNull | JBool _ | JInt _ => inl TypeError
  end.

(** [v[key]] for a string key *)
Definition py_getitem (v : json) (key : str) : exception + json :=
  match v with
  | JObj members =>
      match dict_lookup key members with
      | Some x => inr x
      | None => inl KeyError
      end
  | _ => inl TypeError
  end.

(** [v.get(key, default)]: only a [dict] has the method. *)
Definition py_get (v : json) (key : str) (default : json) : exception + json :=
  match v with
  | JObj members =>
      match dict_lookup key members with
      | Some x => inr x
      | None => inr default
      end
  | _ => inl AttributeError
  end.

(** Truth value of [v] in [if v:]. *)
Definition truthy (v : json) : bool :=
  match v with
  | JNull => false
  | JBool b => b
  | JInt z => negb (Z.eqb z 0)
  | JStr s => nonempty s
  | JArr items => match items with [] => false | _ => true end
  | JObj members => match members with [] => false | _ => true end
  end.

(** *** [repr] *)

Definition hex_digit (d : N) : N :=
  if d <? 10 then 48 + d else 87 + d.

(** [width] lower-case hexadecimal digits of [n], most significant first. *)
Fixpoint hex (width : nat) (n : N) : str :=
  match width with
  | O => []
  | S w => hex w (n / 16) ++ [hex_digit (n mod 16)]
  end.

Definition QUOTE : N := 39.      (* apostrophe *)
Definition DQUOTE : N := 34.     (* double quote *)
Definition BACKSLASH : N := 92.

Definition has (c : N) (s : str) : bool := existsb (N.eqb c) s.

Definition repr_char (U : Unicode) (quote c : N) : str :=
  if (c =? quote) || (c =? BACKSLASH) then [BACKSLASH; c]
  else if c =? 9 then py "\t"
  else if c =? 10 then py "\n"
  else if c =? 13 then py "\r"
  else if (c <? 32) || (c =? 127) then py "\x" ++ hex 2 c
  else if c <? 127 then [c]
  else if unicode_printable U c then [c]
  else if c <? 256 then py "\x" ++ hex 2 c
  else if c <? 65536 then py "\u" ++ hex 4 c
  else py "\U" ++ hex 8 c.

(** [repr(s)] of a string: single quotes unless the string has a single
    quote and no double quote. *)
Definition repr_str (U : Unicode) (s : str) : str :=
  let quote := if has QUOTE s && negb (has DQUOTE s) then DQUOTE else QUOTE in
  [quote] ++ flat_map (repr_char U quote) s ++ [quote].

Fixpoint py_repr (U : Unicode) (v : json) : str :=
  match v with
  | JNull => py "None"
  | JBool true => py "True"
  | JBool false => py "False"
  | JInt z => str_of_Z z
  | JStr s => repr_str U s
  | JArr items => py "[" ++ join (py ", ") (List.map (py_repr U) items) ++ py "]"
  | JObj members =>
      py "{" ++
      join (py ", ")
        (List.map (fun kv => repr_str U (fst kv) ++ py ": " ++ py_repr U (snd kv)) members)
      ++ py "}"
  end.

(** [str(v)], also what an f-string field [{v}] renders. *)
Definition py_str (U : Unicode) (v : json) : str :=
  match v with
  | JStr s => s
  | _ => py_repr U v
  end.

(** ** Paths ([os.path], POSIX flavour) *)

Definition SLASH : N := 47.
Definition DOT : N := 46.

(** [os.path.join(a, b)] *)
Definition path_join (a b : str) : str :=
  if startswith b [SLASH] then b
  else if negb (nonempty a) || endswith a [SLASH] then a ++ b
  else a ++ [SLASH] ++ b.

(** [os.path.basename(p)] *)
Definition basename (p : str) : str := List.last (split SLASH p) [].

(** [os.path.splitext(p)[1]]: from the last dot of the base name, unless
    only dots precede it. *)
Definition splitext_ext (p : str) : str :=
  let parts := split DOT (basename p) in
  if forallb (fun part => negb (nonempty part)) (removelast parts) then []
  else DOT :: List.last parts [].

(** ** The world outside the script *)

(** A file-system entry. [TextFile] is a file that decodes as UTF-8 (its
    text after newline translation); [DocxFile] is a document that
    python-docx opens, with the text of its paragraphs; [BinaryFile] is
    any other regular file. *)
Inductive node :=
| Dir (entries : list str)
| TextFile (content : str)
| DocxFile (paragraphs : list str)
| BinaryFile.

(** *** The file system and the resolution of paths

    [nodes] maps the canonical form of a path to what is there: the names
    from the working directory joined by slashes, those names after one
    slash for an absolute path, and [..] names first for a place above
    the working directory.  The working directory is [.] and the root is
    the slash; their entry, when there is one, gives their listing.  There
    are no symbolic links and every directory can be searched.
    [writable] says whether a directory can be created in the working
    directory.  [glob_magic] is what [glob.glob] returns for a pattern
    whose directory part has wildcard characters, which this development
    leaves uninterpreted. *)

Record filesystem := mkFs {
  nodes : gmap str node;
  writable : bool;
  glob_magic : str -> exception + list str
}.

Definition NUL : N := 0.
Definition DOTDOT : str := [DOT; DOT].

(** The key of a place in [nodes]. *)
Definition key_of (absolute : bool) (names : list str) : str :=
  match names with
  | [] => if absolute then [SLASH] else [DOT]
  | _ => (if absolute then [SLASH] else []) ++ join [SLASH] names
  end.

(** The root, the working directory and the directories above it. *)
Definition anchored (names : list str) : bool :=
  forallb (fun n => str_eqb n DOTDOT) names.

Definition is_dir (m : gmap str node) (absolute : bool) (names : list str) : bool :=
  anchored names ||
  match m !! key_of absolute names with
  | Some (Dir _) => true
  | _ => false
  end.

Definition node_at (m : gmap str node) (absolute : bool) (names : list str)
  : option node :=
  if anchored names then
    match m !! key_of absolute names with
    | Some (Dir entries) => Some (Dir entries)
    | _ => Some (Dir [])
    end
  else m !! key_of absolute names.

(** The place that [..] leads to; the parent of the root is the root. *)
Definition parent (absolute : bool) (names : list str) : list str :=
  if anchored names then (if absolute then [] else names ++ [DOTDOT])
  else removelast names.

(** Path resolution, component by component: an empty component (a
    doubled or trailing slash) and [.] stay in place, [..] climbs, a name
    goes down; every step is taken from a directory. *)
Fixpoint walk (m : gmap str node) (absolute : bool) (names components : list str)
  : option (list str) :=
  match components with
  | [] => Some names
  | c :: rest =>
      if is_dir m absolute names then
        if negb (nonempty c) || str_eqb c [DOT] then walk m absolute names rest
        else if str_eqb c DOTDOT then walk m absolute (parent absolute names) rest
        else walk m absolute (names ++ [c]) rest
      else None
  end.

(** What [os.stat(path)] finds: nothing for the empty path and for a path
    with a null character. *)
Definition resolve (m : gmap str node) (path : str) : option node :=
  if negb (nonempty path) || has NUL path then None
  else
    match walk m (startswith path [SLASH]) [] (split SLASH path) with
    | Some names => node_at m (startswith path [SLASH]) names
    | None => None
    end.

(** [f !! path] is what the path resolves to; [<[key := n]> f] puts a
    node under a canonical key. *)
#[global] Instance filesystem_lookup : Lookup str node filesystem :=
  fun path f => resolve (nodes f) path.
#[global] Instance filesystem_empty : Empty filesystem :=
  mkFs ∅ true (fun _ => inr []).
#[global] Instance filesystem_insert : Insert str node filesystem :=
  fun key n f => mkFs (<[key := n]> (nodes f)) (writable f) (glob_magic f).

(** An HTTP request as the script issues it through [requests]. *)
Inductive request :=
| GetPage (url fields access_token : str)
| PostPhoto (url image_path access_token published : str)
| PostFeed (url message : str) (attached_media : option str) (access_token : str).

(** The body of a response: JSON, or something [response.json()] rejects. *)
Inductive body :=
| Json (v : json)
| NotJson (err : str).

(** What a call into [requests] does: answer, fail with a transport error
    (time-out included), or be interrupted by the user. *)
Inductive net_outcome :=
| Responded (status_code : N) (b : body)
| Failed (msg : str)
| Interrupted.

(** Lines written to standard output; decorative rules and headings are
    left out. *)
Inductive event :=
| PrintConfigNotFound (config_file : str)
| PrintInvalidFormat (line_num : N) (line : str)
| PrintEnvNotSet (env_var : str)
| PrintLoaded (name : str)
| PrintReadError (filepath : str)
| PrintReading (filename : str)
| PrintUnsupported (ext : str)
| PrintNoText
| PrintTextChars (n : nat)
| PrintImages (n : nat)
| PrintImageItem (img : str)
| PrintConnected (actual_name : json) (fans : Z)
| PrintConnectionFailed (message : json)
| PrintConnectionError
| PrintUploadNotFound (image_path : str)
| PrintUploaded (file : str) (id : json)
| PrintUploadFailed (message : json)
| PrintUploadError
| PrintPostingTo (name : str)
| PrintPosted (post_id : json) (url : str)
| PrintPostFailed (error : json)
| PrintPostsDirMissing
| PrintImagesDirMissing
| PrintLoadingPages
| PrintNoPages
| PrintTesting
| PrintNoValidPages
| PrintReady (n : nat)
| PrintLoadingPosts
| PrintNoPostFiles
| PrintFound (n : nat)
| PrintNoValidPosts
| PrintLoadedPosts (n : nat)
| PrintProcessing (i n : nat) (filename : str)
| PrintImageNotFound (img_filename : str)
| PrintSummary (posts pages : nat) (total_success total_failed : nat)
| PrintCancelled
| PrintFatal.

Record World := mkWorld {
  fs : filesystem;                (* the file system *)
  environ : gmap str str;         (* [os.environ] *)
  docx_support : bool;            (* [DOCX_SUPPORT], fixed at import *)
  network : list net_outcome;     (* outcomes of the HTTP calls to come *)
  sent : list request;            (* requests issued so far *)
  stdout : list event             (* lines printed so far *)
}.

(** ** Effects: state and exceptions *)

Definition M (A : Type) : Type := World -> (raised + A) * World.

Definition ret {A} (a : A) : M A := fun w => (inr a, w).

Definition bind {A B} (m : M A) (k : A -> M B) : M B :=
  fun w => match m w with
           | (inr a, w') => k a w'
           | (inl r, w') => (inl r, w')
           end.

#[global] Instance M_ret : MRet M := @ret.
#[global] Instance M_bind : MBind M := fun A B k m => bind m k.

Definition raise {A} (r : raised) : M A := fun w => (inl r, w).

(** Lift an exception-or-value computation. *)
Definition liftE {A} (x : exception + A) : M A :=
  match x with
  | inr a => ret a
  | inl e => raise (Exc e)
  end.

(** [try: m  except Exception as e: h e] *)
Definition try_except {A} (m : M A) (h : exception -> M A) : M A :=
  fun w => match m w with
           | (inl (Exc e), w') => h e w'
           | other => other
           end.

Definition print (e : event) : M unit :=
  fun w => (inr tt, mkWorld (fs w) (environ w) (docx_support w) (network w)
                            (sent w) (stdout w ++ [e])).

Definition get_world : M World := fun w => (inr w, w).

(** [sys.exit(code)] *)
Definition sys_exit {A} (code : N) : M A := raise (SystemExit code).

(** [for x in xs: body x] *)
Fixpoint for_each {X} (xs : list X) (body : X -> M unit) : M unit :=
  match xs with
  | [] => ret tt
  | x :: xs' => body x;; for_each xs' body
  end.

(** A loop that threads an accumulator. *)
Fixpoint for_fold {X S} (xs : list X) (acc : S) (body : S -> X -> M S) : M S :=
  match xs with
  | [] => ret acc
  | x :: xs' => acc' ← body acc x; for_fold xs' acc' body
  end.

(** [os.path.exists(path)] *)
Definition path_exists (path : str) : M bool :=
  fun w => (inr (bool_decide (is_Some (fs w !! path))), w).

(** The listing of the working directory. *)
Definition cwd_entries (f : filesystem) : list str :=
  match nodes f !! [DOT] with
  | Some (Dir entries) => entries
  | _ => []
  end.

(** One name in the working directory. *)
Definition plain_name (path : str) : bool :=
  nonempty path && negb (has SLASH path) && negb (has NUL path)
  && negb (str_eqb path [DOT]) && negb (str_eqb path DOTDOT).

(** [os.makedirs(path)] as the script uses it, for one name in the
    working directory, where it is [os.mkdir(path)]: it raises [OSError]
    when the name is taken or the directory cannot be created. *)
Definition makedirs (path : str) : M unit :=
  fun w =>
    if plain_name path && writable (fs w)
       && negb (bool_decide (is_Some (fs w !! path))) then
      (inr tt,
       mkWorld (<[path := Dir []]>
                  (<[[DOT] := Dir (cwd_entries (fs w) ++ [path])]> (fs w)))
               (environ w) (docx_support w) (network w) (sent w) (stdout w))
    else (inl (Exc (OSError path)), w).

(** What [open] raises for a path that is not there: [ValueError] for a
    null character in it, else [OSError]. *)
Definition open_error (path : str) : exception :=
  if has NUL path then ValueError path else OSError path.

(** [open(path, 'r', encoding='utf-8').read()] *)
Definition read_text (path : str) : M str :=
  fun w => match fs w !! path with
           | Some (TextFile content) => (inr content, w)
           | Some (Dir _) => (inl (Exc (OSError path)), w)
           | None => (inl (Exc (open_error path)), w)
           | Some _ => (inl (Exc (ValueError path)), w)
           end.

(** [open(path, 'rb')] *)
Definition open_binary (path : str) : M unit :=
  fun w => match fs w !! path with
           | Some (Dir _) => (inl (Exc (OSError path)), w)
           | None => (inl (Exc (open_error path)), w)
           | Some _ => (inr tt, w)
           end.

(** [Document(path).paragraphs], texts only. *)
Definition read_document (path : str) : M (list str) :=
  fun w => match fs w !! path with
           | Some (DocxFile paragraphs) => (inr paragraphs, w)
           | Some (Dir _) => (inl (Exc (OSError path)), w)
           | None => (inl (Exc (open_error path)), w)
           | Some _ => (inl (Exc (ValueError path)), w)
           end.

(** One call into [requests]: the request is recorded and the next
    outcome of the script is consumed; with nothing left the connection
    fails. *)
Definition http (req : request) : M (N * body) :=
  fun w =>
    let w' := mkWorld (fs w) (environ w) (docx_support w) (List.tl (network w))
                      (sent w ++ [req]) (stdout w) in
    match network w with
    | Responded status_code b :: _ => (inr (status_code, b), w')
    | Failed msg :: _ => (inl (Exc (RequestException msg)), w')
    | Interrupted :: _ => (inl KeyboardInterrupt, w')
    | [] => (inl (Exc (RequestException [])), w')
    end.

(** [response.json()] *)
Definition response_json (b : body) : M json :=
  match b with
  | Json v => ret v
  | NotJson err => raise (Exc (ValueError err))
  end.

(** [str(e)] for the exceptions that carry their message. *)
Definition exception_str (e : exception) : str :=
  match e with
  | ValueError msg | OSError msg | RequestException msg => msg
  | AttributeError | TypeError | KeyError => []
  end.

(** ** Configuration *)

Definition POSTS_DIR : str := py "posts".
Definition IMAGES_DIR : str := py "images".
Definition CONFIG_FILE : str := py "config.txt".
Definition GRAPH_API_VERSION : str := py "v18.0".
Definition GRAPH_API_BASE : str := py "https://graph.facebook.com/" ++ GRAPH_API_VERSION.

(** ** Page registry: [load_facebook_pages] *)

Definition HASH : N := 35.
Definition DOLLAR : N := 36.

(** An entry of [pages]: the dict with keys page_id, token, name. *)
Record page := mkPage { page_id : str; token : str; name : str }.

(** The body of the loop over the lines of the file: the target appended
    to [pages], if any, and what is printed. *)
Definition config_line (env : gmap str str) (line_num : N) (line : str)
  : option page * list event :=
  let line := strip line in
  if negb (nonempty line) || startswith line [HASH] then (None, [])
  else
    let parts := split PIPE line in
    if (length parts <? 2)%nat then (None, [PrintInvalidFormat line_num line])
    else
      let page_id := strip (nth 0 parts []) in
      let token := strip (nth 1 parts []) in
      let name := if (2 <? length parts)%nat then strip (nth 2 parts [])
                  else py "Page_" ++ page_id in
      if startswith token [DOLLAR] then
        let env_var := drop 1 token in
        let token := default [] (env !! env_var) in
        if negb (nonempty token) then (None, [PrintEnvNotSet env_var])
        else (Some (mkPage page_id token name), [PrintLoaded name])
      else (Some (mkPage page_id token name), [PrintLoaded name]).

(** Iterating a text file: the lines, each with its newline, the last one
    possibly without. *)
Definition readlines (content : str) : list str :=
  let parts := split NEWLINE content in
  List.map (fun l => l ++ [NEWLINE]) (removelast parts)
  ++ (if nonempty (List.last parts []) then [List.last parts []] else []).

(** [enumerate(xs, start)] *)
Fixpoint enumerate {X} (start : N) (xs : list X) : list (N * X) :=
  match xs with
  | [] => []
  | x :: xs' => (start, x) :: enumerate (N.succ start) xs'
  end.

Definition option_list {X} (o : option X) : list X :=
  match o with Some x => [x] | None => [] end.

Definition load_line (pages : list page) (numbered : N * str) : M (list page) :=
  w ← get_world;
  let r := config_line (environ w) (fst numbered) (snd numbered) in
  for_each (snd r) print;;
  mret (pages ++ option_list (fst r)).

Definition load_facebook_pages (config_file : str) : M (list page) :=
  found ← path_exists config_file;
  if negb found then
    print (PrintConfigNotFound config_file);; mret []
  else
    content ← read_text config_file;
    for_fold (enumerate 1 (readlines content)) [] load_line.

(** ** Content parser: [parse_post_content] *)

Record parsed := mkParsed { text : str; images : list str }.

(** One round of the loop over the lines; the state is
    [(images, text_lines)]. *)
Definition parse_line (U : Unicode) (acc : list str * list str) (line : str)
  : list str * list str :=
  let line_stripped := strip line in
  if startswith (upper U line_stripped) (py "IMAGE:") then
    let img_filename := strip (drop 6 line_stripped) in
    (fst acc ++ [img_filename], snd acc)
  else
    (fst acc, snd acc ++ [line]).

Definition parse_post_content (U : Unicode) (content : str) : parsed :=
  let lines := split NEWLINE content in
  let acc := fold_left (parse_line U) lines ([], []) in
  mkParsed (strip (join [NEWLINE] (snd acc))) (fst acc).

(** ** Post loader *)

Definition read_text_file (filepath : str) : M (option str) :=
  try_except (content ← read_text filepath; mret (Some content))
             (fun _ => print (PrintReadError filepath);; mret None).

Definition read_docx_file (filepath : str) : M (option str) :=
  w ← get_world;
  if negb (docx_support w) then mret None
  else
    try_except
      (paragraphs ← read_document filepath;
       mret (Some (join [NEWLINE]
                     (List.filter (fun p => nonempty (strip p)) paragraphs))))
      (fun _ => print (PrintReadError filepath);; mret None).

Definition STAR : N := 42.
Definition QMARK : N := 63.
Definition LBRACKET : N := 91.

(** [glob.has_magic(s)] *)
Definition has_magic (s : str) : bool :=
  has STAR s || has QMARK s || has LBRACKET s.

(** The part of [s] from its first [c] on. *)
Fixpoint from_char (c : N) (s : str) : str :=
  match s with
  | [] => []
  | x :: s' => if x =? c then s else from_char c s'
  end.

(** [s] without the [c]s at its front. *)
Fixpoint lstrip_char (c : N) (s : str) : str :=
  match s with
  | [] => []
  | x :: s' => if x =? c then lstrip_char c s' else s
  end.

(** [os.path.split(p)[0]]: up to the last slash, without the slashes at
    its end unless it is made of slashes only. *)
Definition split_head (p : str) : str :=
  let head := rev (from_char SLASH (rev p)) in
  if forallb (N.eqb SLASH) head then head
  else rev (lstrip_char SLASH (rev head)).

(** [os.scandir(dirname)] inside [glob]: the names of a directory, none
    when the path is no directory, [ValueError] for a null character. *)
Definition listdir (dirname : str) : M (list str) :=
  w ← get_world;
  if has NUL dirname then raise (Exc (ValueError dirname))
  else match fs w !! dirname with
       | Some (Dir entries) => mret entries
       | _ => mret []
       end.

(** [glob.glob(os.path.join(directory, "*" + ext))] for an extension that
    is a dot and letters.  The directory part of the pattern is split off
    again; when it has wildcard characters the result is left to
    [glob_magic]; else the names of that directory that end in [ext] and
    are not hidden are joined to it, in the order of the listing, and
    without a directory part they are listed from [.] and returned
    bare. *)
Definition glob_ext (directory ext : str) : M (list str) :=
  let pathname := path_join directory (STAR :: ext) in
  let dirname := split_head pathname in
  w ← get_world;
  if has_magic dirname then liftE (glob_magic (fs w) pathname)
  else
    names ← listdir (if nonempty dirname then dirname else [DOT]);
    let matching :=
      List.filter (fun n => endswith n ext && negb (startswith n [DOT])) names in
    mret (if nonempty dirname then List.map (path_join dirname) matching
          else matching).

(** [files.sort()] on strings. *)
Definition sort_paths (files : list str) : list str := merge_sort str_le files.

Definition get_all_post_files (posts_dir : str) : M (list str) :=
  txt_files ← glob_ext posts_dir (py ".txt");
  w ← get_world;
  docx_files ← (if docx_support w then glob_ext posts_dir (py ".docx") else mret []);
  mret (sort_paths (txt_files ++ docx_files)).

(** A loaded post: the dict with keys filename, text, images. *)
Record post := mkPost { filename : str; post_text : str; post_images : list str }.

Definition load_post_from_file (U : Unicode) (filepath : str) : M (option post) :=
  let filename := basename filepath in
  let ext := lower U (splitext_ext filepath) in
  print (PrintReading filename);;
  if str_eqb ext (py ".txt") || str_eqb ext (py ".docx") then
    content ← (if str_eqb ext (py ".txt") then read_text_file filepath
               else read_docx_file filepath);
    match content with
    | None | Some [] => mret None
    | Some content =>
        let parsed := parse_post_content U content in
        if negb (nonempty (text parsed)) then
          print PrintNoText;; mret None
        else
          print (PrintTextChars (length (text parsed)));;
          (if nonempty_list (images parsed) then
             print (PrintImages (length (images parsed)));;
             for_each (images parsed) (fun img => print (PrintImageItem img))
           else mret tt);;
          mret (Some (mkPost filename (text parsed) (images parsed)))
    end
  else
    print (PrintUnsupported ext);; mret None.

(** ** Publisher: [FacebookPoster] *)

Record FacebookPoster := mkPoster { self_page_id : str; self_token : str; self_name : str }.

(** [format(v, ',')]: defined on numbers only; the value formatted. *)
Definition format_thousands (v : json) : exception + Z :=
  match v with
  | JInt z => inr z
  | JBool b => inr (if b then 1 else 0)%Z
  | JStr _ => inl (ValueError [])
  | _ => inl TypeError
  end.

Definition test_connection (self : FacebookPoster) : M bool :=
  let url := GRAPH_API_BASE ++ [SLASH] ++ self_page_id self in
  try_except
    (response ← http (GetPage url (py "name,fan_count") (self_token self));
     if fst response =? 200 then
       data ← response_json (snd response);
       actual_name ← liftE (py_get data (py "name") (JStr (py "Unknown")));
       fans ← liftE (py_get data (py "fan_count") (JInt 0));
       shown ← liftE (format_thousands fans);
       print (PrintConnected actual_name shown);;
       mret true
     else
       data ← response_json (snd response);
       error ← liftE (py_get data (py "error") (JObj []));
       message ← liftE (py_get error (py "message") (JStr (py "Unknown error")));
       print (PrintConnectionFailed message);;
       mret false)
    (fun _ => print PrintConnectionError;; mret false).

(** Returns the photo id, [JNull] standing for [None]. *)
Definition upload_photo (self : FacebookPoster) (image_path : str) : M json :=
  let url := GRAPH_API_BASE ++ [SLASH] ++ self_page_id self ++ py "/photos" in
  found ← path_exists image_path;
  if negb found then
    print (PrintUploadNotFound image_path);; mret JNull
  else
    try_except
      (open_binary image_path;;
       response ← http (PostPhoto url image_path (self_token self) (py "false"));
       result ← response_json (snd response);
       has_id ← liftE (py_in (py "id") result);
       if (has_id : bool) then
         id ← liftE (py_getitem result (py "id"));
         print (PrintUploaded (basename image_path) id);;
         mret id
       else
         error ← liftE (py_get result (py "error") (JObj []));
         message ← liftE (py_get error (py "message") (JStr (py "Unknown")));
         print (PrintUploadFailed message);;
         mret JNull)
      (fun _ => print PrintUploadError;; mret JNull).

(** The dict built by the handlers of the two feed calls. *)
Definition error_result (e : exception) : json :=
  JObj [(py "error", JObj [(py "message", JStr (exception_str e))])].

Definition post_text_only (self : FacebookPoster) (message : str) : M json :=
  let url := GRAPH_API_BASE ++ [SLASH] ++ self_page_id self ++ py "/feed" in
  try_except
    (response ← http (PostFeed url message None (self_token self));
     response_json (snd response))
    (fun e => mret (error_result e)).

(** The value of the [attached_media] field. *)
Definition attached_media_field (U : Unicode) (photo_ids : list json) : str :=
  let attached_media :=
    match photo_ids with
    | [pid] => JArr [JObj [(py "media_fbid", pid)]]
    | _ => JArr (List.map (fun pid => JObj [(py "media_fbid", pid)]) photo_ids)
    end in
  replace QUOTE DQUOTE (py_str U attached_media).

Definition post_with_photos (U : Unicode) (self : FacebookPoster) (message : str)
    (photo_ids : list json) : M json :=
  let url := GRAPH_API_BASE ++ [SLASH] ++ self_page_id self ++ py "/feed" in
  try_except
    (response ← http (PostFeed url message (Some (attached_media_field U photo_ids))
                               (self_token self));
     response_json (snd response))
    (fun e => mret (error_result e)).

(** The dict returned by [post]. *)
Inductive outcome :=
| Success (post_id : json) (url : str)
| Failure (error : json).

Definition success (o : outcome) : bool :=
  match o with Success _ _ => true | Failure _ => false end.

(** The body of the upload loop of [post]. *)
Definition upload_step (self : FacebookPoster) (photo_ids : list json) (img_path : str)
  : M (list json) :=
  photo_id ← upload_photo self img_path;
  mret (if truthy photo_id then photo_ids ++ [photo_id] else photo_ids).

(** The upload loop of [post]. *)
Definition upload_all (self : FacebookPoster) (image_paths : list str) : M (list json) :=
  for_fold image_paths [] (upload_step self).

(** The last part of [post]: check result. *)
Definition check_result (U : Unicode) (result : json) : M outcome :=
  has_id ← liftE (py_in (py "id") result);
  if (has_id : bool) then
    post_id ← liftE (py_getitem result (py "id"));
    let post_url := py "https://facebook.com/" ++ py_str U post_id in
    print (PrintPosted post_id post_url);;
    mret (Success post_id post_url)
  else
    error ← liftE (py_get result (py "error") (JObj []));
    error ← liftE (py_get error (py "message") (JStr (py "Unknown error")));
    print (PrintPostFailed error);;
    mret (Failure error).

Definition post_method (U : Unicode) (self : FacebookPoster) (message : str)
    (image_paths : option (list str)) : M outcome :=
  print (PrintPostingTo (self_name self));;
  photo_ids ← (match image_paths with
               | Some ((_ :: _) as paths) => upload_all self paths
               | _ => mret []
               end);
  result ← (if nonempty_list photo_ids then post_with_photos U self message photo_ids
            else post_text_only self message);
  check_result U result.

(** ** Orchestrator: [main] *)

(** The body of the loop that prepares the image paths of a post. *)
Definition prepare_step (image_paths : list str) (img_filename : str) : M (list str) :=
  let img_path := path_join IMAGES_DIR img_filename in
  found ← path_exists img_path;
  if (found : bool) then mret (image_paths ++ [img_path])
  else print (PrintImageNotFound img_filename);; mret image_paths.

(** The image paths of a post: the referenced files that exist. *)
Definition prepare_image_paths (p : post) : M (list str) :=
  for_fold (post_images p) [] prepare_step.

(** [time.sleep(2)] *)
Definition sleep : M unit := mret tt.

(** The body of the inner publishing loop, one target; the state is
    [(total_success, total_failed)]. *)
Definition publish_to (U : Unicode) (message : str) (image_paths : list str)
    (totals : nat * nat) (poster : FacebookPoster) : M (nat * nat) :=
  result ← post_method U poster message
             (if nonempty_list image_paths then Some image_paths else None);
  sleep;;
  mret (if success result then (S (fst totals), snd totals)
        else (fst totals, S (snd totals))).

(** The body of the outer publishing loop, one post. *)
Definition publish_post (U : Unicode) (valid_pages : list FacebookPoster) (n : nat)
    (totals : nat * nat) (numbered : N * post) : M (nat * nat) :=
  let p := snd numbered in
  print (PrintProcessing (N.to_nat (fst numbered)) n (filename p));;
  image_paths ← prepare_image_paths p;
  for_fold valid_pages totals (publish_to U (post_text p) image_paths).

(** [main] runs the following stages one after the other; each is the
    part of its body under the comment of that name. *)

(** Check directories. *)
Definition validating_dirs : M unit :=
  found ← path_exists POSTS_DIR;
  (if negb found then print PrintPostsDirMissing;; sys_exit 1 else mret tt);;
  found ← path_exists IMAGES_DIR;
  if negb found then print PrintImagesDirMissing;; makedirs IMAGES_DIR else mret tt.

(** Load Facebook pages config. *)
Definition loading_registry : M (list page) :=
  print PrintLoadingPages;;
  pages ← load_facebook_pages CONFIG_FILE;
  (if negb (nonempty_list pages) then print PrintNoPages;; sys_exit 1 else mret tt);;
  mret pages.

(** The loop that tests the connections. *)
Definition test_connections (pages : list page) : M (list FacebookPoster) :=
  for_fold pages []
    (fun valid_pages pg =>
       let poster := mkPoster (page_id pg) (token pg) (name pg) in
       ok ← test_connection poster;
       mret (if (ok : bool) then valid_pages ++ [poster] else valid_pages)).

(** Test connections. *)
Definition checking_connectivity (pages : list page) : M (list FacebookPoster) :=
  print PrintTesting;;
  valid_pages ← test_connections pages;
  (if negb (nonempty_list valid_pages) then print PrintNoValidPages;; sys_exit 1
   else mret tt);;
  print (PrintReady (length valid_pages));;
  mret valid_pages.

(** The loop that loads the posts. *)
Definition load_posts (U : Unicode) (post_files : list str) : M (list post) :=
  for_fold post_files []
    (fun posts filepath =>
       post_data ← load_post_from_file U filepath;
       mret (posts ++ option_list post_data)).

(** Load all post files, load posts. *)
Definition loading_posts (U : Unicode) : M (list post) :=
  print PrintLoadingPosts;;
  post_files ← get_all_post_files POSTS_DIR;
  (if negb (nonempty_list post_files) then print PrintNoPostFiles;; sys_exit 1
   else mret tt);;
  print (PrintFound (length post_files));;
  posts ← load_posts U post_files;
  (if negb (nonempty_list posts) then print PrintNoValidPosts;; sys_exit 1 else mret tt);;
  print (PrintLoadedPosts (length posts));;
  mret posts.

(** Post to Facebook. *)
Definition publishing (U : Unicode) (valid_pages : list FacebookPoster)
    (posts : list post) : M (nat * nat) :=
  for_fold (enumerate 1 posts) (0, 0)%nat (publish_post U valid_pages (length posts)).

(** Summary. *)
Definition summarizing (posts pages : nat) (totals : nat * nat) : M unit :=
  print (PrintSummary posts pages (fst totals) (snd totals));;
  if (0 <? snd totals)%nat then sys_exit 1 else mret tt.

(** Everything before the summary: the posts, the targets and the two
    counters that the summary reports. *)
Definition before_summary (U : Unicode)
  : M (list post * list FacebookPoster * (nat * nat)) :=
  validating_dirs;;
  pages ← loading_registry;
  valid_pages ← checking_connectivity pages;
  posts ← loading_posts U;
  totals ← publishing U valid_pages posts;
  mret (posts, valid_pages, totals).

Definition main (U : Unicode) : M unit :=
  r ← before_summary U;
  summarizing (length (fst (fst r))) (length (snd (fst r))) (snd r).

(** The [if __name__ == "__main__"] block: the exit status of the process
    and what it has printed. *)
Definition script (U : Unicode) (w : World) : N * World :=
  match main U w with
  | (inr _, w') => (0, w')
  | (inl (SystemExit code), w') => (code, w')
  | (inl KeyboardInterrupt, w') => (0, snd (print PrintCancelled w'))
  | (inl (Exc _), w') => (1, snd (print PrintFatal w'))
  end.

Definition exit_code (U : Unicode) (w : World) : N := fst (script U w).
Definition output (U : Unicode) (w : World) : list event := stdout (snd (script U w)).

(** ** The content parser as the specification words it

    A directive line is one whose trimmed, case-folded form begins with
    the token; its file name is the trimmed remainder.  The image list is
    the file names of the directive lines in order, the body is the other
    lines joined by newlines and trimmed. *)

Definition is_directive (U : Unicode) (line : str) : bool :=
  startswith (upper U (strip line)) (py "IMAGE:").

Definition directive_filename (line : str) : str :=
  strip (drop 6 (strip line)).

Definition parse_spec (U : Unicode) (content : str) : parsed :=
  let lines := split NEWLINE content in
  mkParsed
    (strip (join [NEWLINE] (List.filter (fun l => negb (is_directive U l)) lines)))
    (List.map directive_filename (List.filter (is_directive U) lines)).

(** ** Vocabulary for the page registry

    The fields of a configuration line as [config_line] reads them, and
    the pages and warnings of a run of lines. *)

Definition entry_fields (line : str) : list str := split PIPE (strip line).

(** The line is neither blank nor a comment and has two fields or more. *)
Definition is_entry (line : str) : bool :=
  nonempty (strip line) && negb (startswith (strip line) [HASH])
  && (2 <=? length (entry_fields line))%nat.

Definition identifier_field (line : str) : str := strip (nth 0 (entry_fields line) []).
Definition credential_field (line : str) : str := strip (nth 1 (entry_fields line) []).
Definition display_name (line : str) : str :=
  if (2 <? length (entry_fields line))%nat then strip (nth 2 (entry_fields line) [])
  else py "Page_" ++ identifier_field line.

(** The targets and the printed lines of consecutive configuration lines,
    the first one numbered [start]. *)
Fixpoint registry_of (env : gmap str str) (start : N) (lines : list str)
  : list page * list event :=
  match lines with
  | [] => ([], [])
  | l :: ls =>
      let r := config_line env start l in
      let rs := registry_of env (N.succ start) ls in
      (option_list (fst r) ++ fst rs, snd r ++ snd rs)
  end.

(** A world whose configuration file holds [lines], under the
    environment [env]. *)
Definition config_world (env : gmap str str) (lines : list str) : World :=
  mkWorld (<[CONFIG_FILE := TextFile (join [NEWLINE] lines)]> ∅) env true [] [] [].

(** The world after printing [evs]. *)
Definition printed (w : World) (evs : list event) : World :=
  mkWorld (fs w) (environ w) (docx_support w) (network w) (sent w) (stdout w ++ evs).

(** ** Vocabulary for the post loader *)

(** The names of a directory listing that the pattern [*ext] selects. *)
Definition glob_names (ext : str) (entries : list str) : list str :=
  List.filter (fun n => endswith n ext && negb (startswith n [DOT])) entries.

(** The names that the loader takes from a listing: the text files, then
    the documents when they can be read. *)
Definition supported_names (docx : bool) (entries : list str) : list str :=
  glob_names (py ".txt") entries ++ (if docx then glob_names (py ".docx") entries else []).

(** A world whose posts directory holds [b.txt] and [a.docx]. *)
Definition two_posts_world : World :=
  mkWorld (<[py "posts" := Dir [py "b.txt"; py "a.docx"]]> ∅) ∅ true [] [] [].

(** The directory prefix that [path_join] puts before a plain name. *)
Definition dir_prefix (directory : str) : str :=
  if negb (nonempty directory) || endswith directory [SLASH] then directory
  else directory ++ [SLASH].

(** ** The wire format of [attached_media] as the specification words it

    The JSON text of an array of objects with the single key media_fbid,
    one per identifier, in order; strings are escaped as RFC 8259
    prescribes and as [json.dumps] writes them. *)

Definition json_escape_char (c : N) : str :=
  if c =? DQUOTE then [BACKSLASH; DQUOTE]
  else if c =? BACKSLASH then [BACKSLASH; BACKSLASH]
  else if c =? 10 then py "\n"
  else if c =? 13 then py "\r"
  else if c =? 9 then py "\t"
  else if c =? 8 then py "\b"
  else if c =? 12 then py "\f"
  else if (32 <=? c) && (c <? 127) then [c]
  else if c <? 65536 then py "\u" ++ hex 4 c
  else py "\u" ++ hex 4 (55296 + (c - 65536) / 1024)
       ++ py "\u" ++ hex 4 (56320 + (c - 65536) mod 1024).

Definition json_string (s : str) : str :=
  [DQUOTE] ++ flat_map json_escape_char s ++ [DQUOTE].

Definition json_media_entry (id : str) : str :=
  py "{" ++ json_string (py "media_fbid") ++ py ": " ++ json_string id ++ py "}".

Definition json_media_list (ids : list str) : str :=
  py "[" ++ join (py ", ") (List.map json_media_entry ids) ++ py "]".

(** A character that neither [repr] nor JSON escapes and that is not a
    quote: printable ASCII but the two quotes and the backslash. *)
Definition plain_char (c : N) : bool :=
  (32 <=? c) && (c <? 127)
  && negb (c =? QUOTE) && negb (c =? DQUOTE) && negb (c =? BACKSLASH).

(** ** Vocabulary for the publisher *)

(** The world after [req] has been sent. *)
Definition requested (w : World) (req : request) : World :=
  mkWorld (fs w) (environ w) (docx_support w) (List.tl (network w))
          (sent w ++ [req]) (stdout w).

(** The feed request of a target. *)
Definition feed_request (self : FacebookPoster) (message : str)
    (attached_media : option str) : request :=
  PostFeed (GRAPH_API_BASE ++ [SLASH] ++ self_page_id self ++ py "/feed")
           message attached_media (self_token self).

(** The address and the message of a feed request; nothing for the
    other requests. *)
Definition feed_of (req : request) : option (str * str) :=
  match req with
  | PostFeed url message _ _ => Some (url, message)
  | _ => None
  end.

(** The feed address of a target. *)
Definition feed_url (self : FacebookPoster) : str :=
  GRAPH_API_BASE ++ [SLASH] ++ self_page_id self ++ py "/feed".





Definition example_poster : FacebookPoster := mkPoster (py "123") (py "tok") (py "MyPage").

(** A world with nothing on disk whose network gives [responses]. *)
Definition answering (responses : list net_outcome) : World :=
  mkWorld ∅ ∅ true responses [] [].

(** Computations that do not leave through [sys.exit]. *)
Definition no_exit {A} (m : M A) : Prop :=
  forall w code w', m w <> (inl (SystemExit code), w').

(** ** Vocabulary for the orchestrator *)

(** The referenced image is in the images directory. *)
Definition image_present (w : World) (img_filename : str) : bool :=
  bool_decide (is_Some (fs w !! path_join IMAGES_DIR img_filename)).

Definition resolved_images (w : World) (p : post) : list str :=
  List.map (path_join IMAGES_DIR) (List.filter (image_present w) (post_images p)).

Definition missing_image_warnings (w : World) (p : post) : list event :=
  List.map PrintImageNotFound
    (List.filter (fun img => negb (image_present w img)) (post_images p)).

(** A working directory with one configured target and two posts. *)
Definition two_posts_fs : filesystem :=
  <[py "posts" := Dir [py "a.txt"; py "b.txt"]]>
    (<[py "posts/a.txt" := TextFile (py "First")]>
       (<[py "posts/b.txt" := TextFile (py "Second")]>
          (<[py "images" := Dir []]>
             (<[py "config.txt" := TextFile (py "123|tok|MyPage")]> ∅)))).

Definition run_world (responses : list net_outcome) : World :=
  mkWorld two_posts_fs ∅ true responses [] [].

Definition CONNECTED : net_outcome :=
  Responded 200 (Json (JObj [(py "name", JStr (py "MyPage")); (py "fan_count", JInt 5)])).

Definition PUBLISHED : net_outcome :=
  Responded 200 (Json (JObj [(py "id", JStr (py "123_2"))])).

Definition REJECTED : net_outcome :=
  Responded 400 (Json (JObj [(py "error", JObj [(py "message", JStr (py "denied"))])])).

(** The feed answers the first post with an error that is a string. *)
Definition malformed_run_world : World :=
  run_world [CONNECTED;
             Responded 400 (Json (JObj [(py "error", JStr (py "invalid_request"))]));
             PUBLISHED].

(** Both posts published; one of them rejected; the user interrupts the
    first publish; the target is unreachable. *)
Definition success_world : World := run_world [CONNECTED; PUBLISHED; PUBLISHED].
Definition failing_world : World := run_world [CONNECTED; REJECTED; PUBLISHED].
Definition interrupted_world : World := run_world [CONNECTED; Interrupted].
Definition unreachable_world : World := run_world [REJECTED].

(** No configuration file; no post file. *)
Definition unconfigured_world : World :=
  mkWorld (<[py "posts" := Dir []]> ∅) ∅ true [] [] [].
Definition no_posts_world : World :=
  mkWorld (<[py "posts" := Dir []]> (<[py "config.txt" := TextFile (py "123|tok|MyPage")]> ∅))
          ∅ true [CONNECTED] [] [].




(** Computations that leave through [sys.exit] with status [code] only. *)
Definition exit_only {A} (code : N) (m : M A) : Prop :=
  forall w c w', m w = (inl (SystemExit c), w') -> c = code.

(** * Properties *)

(** ** The model on concrete inputs *)

Example strip_ex : strip (py "  ab c	 ") = py "ab c".
Proof. reflexivity. Qed.
Example split_ex : split PIPE (py "123|$TOKEN|MyPage") = [py "123"; py "$TOKEN"; py "MyPage"].
Proof. reflexivity. Qed.
Example split_ex2 : split PIPE (py "|") = [ []; [] ].
Proof. reflexivity. Qed.
Example join_ex : join (py ", ") [py "a"; py "b"] = py "a, b".
Proof. reflexivity. Qed.
Example upper_ex : upper ascii_only (py "image: x.Jpg") = py "IMAGE: X.JPG".
Proof. reflexivity. Qed.
Example str_of_Z_ex : str_of_Z (-120) = py "-120".
Proof. reflexivity. Qed.
Example repr_ex :
  py_repr ascii_only (JArr [JObj [(py "media_fbid", JStr (py "12"))]; JInt 3; JNull])
  = py "[{'media_fbid': '12'}, 3, None]".
Proof. reflexivity. Qed.
Example repr_quote_ex : repr_str ascii_only (py "a'b") = [34] ++ py "a'b" ++ [34].
Proof. reflexivity. Qed.
Example repr_esc_ex : repr_str ascii_only [7; 233; 8364] = py "'\x07\xe9\u20ac'".
Proof. reflexivity. Qed.
Example join_path_ex : path_join (py "images") (py "a.jpg") = py "images/a.jpg".
Proof. reflexivity. Qed.
Example splitext_ex : splitext_ext (py "posts/x.y/.hidden") = [] /\
  splitext_ext (py "posts/a.b.TXT") = py ".TXT" /\ splitext_ext (py "p.d/readme") = [].
Proof. repeat split; reflexivity. Qed.
Example parse_ex :
  parse_post_content ascii_only (py "IMAGE: a.jpg
Hello
 image:b.png
  world  ")
  = mkParsed (py "Hello
  world") [py "a.jpg"; py "b.png"].
Proof. reflexivity. Qed.

(** ** Strings *)

Section split_join.
Variable sep : N.

Lemma split_nonempty (s : str) : split sep s <> [].
Proof.
  destruct s as [|c s]; simpl; [discriminate|].
  destruct (c =? sep); [discriminate|].
  destruct (split sep s); discriminate.
Qed.

Lemma split_cons (c : N) (s : str) :
  split sep (c :: s) =
  if c =? sep then [] :: split sep s
  else (c :: List.hd [] (split sep s)) :: List.tl (split sep s).
Proof.
  simpl. destruct (c =? sep); [reflexivity|].
  pose proof (split_nonempty s) as Hne.
  destruct (split sep s); [contradiction|reflexivity].
Qed.

Lemma join_split (s : str) : join [sep] (split sep s) = s.
Proof.
  induction s as [|c s IH]; [reflexivity|].
  rewrite split_cons.
  pose proof (split_nonempty s) as Hne.
  destruct (split sep s) as [|l ls] eqn:E; [contradiction|].
  destruct (N.eqb_spec c sep) as [->|Hc].
  - simpl. simpl in IH. rewrite IH. reflexivity.
  - simpl. simpl in IH. destruct ls; simpl in *; rewrite <- IH; reflexivity.
Qed.

Lemma split_no_sep (s : str) : has sep s = false -> split sep s = [s].
Proof.
  induction s as [|c s IH]; [reflexivity|].
  unfold has. simpl. intros H. apply orb_false_iff in H as [Hc Hs].
  rewrite N.eqb_sym in Hc. rewrite Hc. unfold has in IH. rewrite (IH Hs). reflexivity.
Qed.

(** Splitting a concatenation: the last piece of the left part and the
    first piece of the right part are glued. *)
Lemma split_app (a b : str) :
  split sep (a ++ b) =
  removelast (split sep a)
  ++ (List.last (split sep a) [] ++ List.hd [] (split sep b)) :: List.tl (split sep b).
Proof.
  induction a as [|c a IH].
  - simpl. pose proof (split_nonempty b). destruct (split sep b); [contradiction|reflexivity].
  - change ((c :: a) ++ b) with (c :: (a ++ b)).
    rewrite !split_cons, IH.
    pose proof (split_nonempty a) as Hne.
    destruct (c =? sep).
    + destruct (split sep a) as [|l ls] eqn:E; [contradiction|]. reflexivity.
    + destruct (split sep a) as [|l ls] eqn:E; [contradiction|].
      destruct ls; reflexivity.
Qed.
End split_join.

Section split_pieces.
Variable sep : N.

Lemma split_pieces_forall (P : N -> bool) (s : str) :
  forallb P s = true -> Forall (fun l => forallb P l = true) (split sep s).
Proof.
  induction s as [|c s IH]; intros H.
  - repeat constructor.
  - simpl in H. apply andb_true_iff in H as [Hc Hs]. specialize (IH Hs).
    rewrite split_cons. pose proof (split_nonempty sep s) as Hne.
    destruct (split sep s) as [|l ls]; [contradiction|].
    inversion IH; subst.
    destruct (c =? sep); constructor; simpl; auto.
    rewrite Hc; auto.
Qed.

Lemma split_pieces_no_sep (s : str) :
  Forall (fun l => has sep l = false) (split sep s).
Proof.
  induction s as [|c s IH]; [repeat constructor|].
  rewrite split_cons. pose proof (split_nonempty sep s) as Hne.
  destruct (split sep s) as [|l ls]; [contradiction|].
  inversion IH; subst.
  destruct (N.eqb_spec c sep) as [->|Hc]; constructor; auto.
  simpl. unfold has in *. simpl.
  destruct (N.eqb_spec sep c); [congruence|]. assumption.
Qed.

Lemma split_piece_sep (p rest : str) :
  has sep p = false -> split sep (p ++ sep :: rest) = p :: split sep rest.
Proof.
  intros Hp. rewrite split_app. rewrite (split_no_sep sep p Hp). simpl.
  rewrite N.eqb_refl. simpl. rewrite app_nil_r. reflexivity.
Qed.

Lemma split_join (parts : list str) :
  parts <> [] -> Forall (fun l => has sep l = false) parts ->
  split sep (join [sep] parts) = parts.
Proof.
  induction parts as [|p ps IH]; [congruence|]. intros _ Hall.
  inversion Hall as [|? ? Hp Hps]; subst.
  destruct ps as [|q qs].
  - simpl. apply split_no_sep; assumption.
  - change (join [sep] (p :: q :: qs)) with (p ++ sep :: join [sep] (q :: qs)).
    rewrite split_piece_sep by assumption.
    rewrite IH; [reflexivity|discriminate|assumption].
Qed.
End split_pieces.

Section stripping.

Lemma lstrip_app_space (w s : str) :
  forallb isspace w = true -> lstrip (w ++ s) = lstrip s.
Proof.
  induction w as [|c w IH]; [reflexivity|]. simpl. intros H.
  apply andb_true_iff in H as [Hc Hw]. rewrite Hc. auto.
Qed.

Lemma lstrip_decomp (s : str) :
  exists w, forallb isspace w = true /\ s = w ++ lstrip s.
Proof.
  induction s as [|c s [w [Hw Hs]]].
  - exists []. split; reflexivity.
  - simpl. destruct (isspace c) eqn:Hc.
    + exists (c :: w). simpl. rewrite Hc, Hw. split; [reflexivity|]. congruence.
    + exists []. split; reflexivity.
Qed.

Lemma lstrip_all_space (s : str) : forallb isspace s = true -> lstrip s = [].
Proof.
  intros H. rewrite <- (app_nil_r s). rewrite lstrip_app_space by assumption. reflexivity.
Qed.

Lemma lstrip_nil_all_space (s : str) : lstrip s = [] -> forallb isspace s = true.
Proof.
  induction s as [|c s IH]; [reflexivity|]. simpl.
  destruct (isspace c); [auto|discriminate].
Qed.

Lemma lstrip_head (s : str) c r : lstrip s = c :: r -> isspace c = false.
Proof.
  induction s as [|d s IH]; simpl; [discriminate|].
  destruct (isspace d) eqn:Hd; [auto|]. intros [= -> _]. assumption.
Qed.

Lemma lstrip_fixed (s : str) c r : isspace c = false -> lstrip (c :: r) = c :: r.
Proof. intros H. simpl. rewrite H. reflexivity. Qed.

Lemma lstrip_idem (s : str) : lstrip (lstrip s) = lstrip s.
Proof.
  destruct (lstrip s) as [|c r] eqn:E; [reflexivity|].
  apply lstrip_fixed; [exact s|]. eapply lstrip_head; eassumption.
Qed.

Lemma lstrip_app_nonspace (s t : str) :
  lstrip s <> [] -> lstrip (s ++ t) = lstrip s ++ t.
Proof.
  induction s as [|c s IH]; simpl; [congruence|].
  destruct (isspace c); auto.
Qed.

Lemma rstrip_app_space (s w : str) :
  forallb isspace w = true -> rstrip (s ++ w) = rstrip s.
Proof.
  intros H. unfold rstrip. rewrite rev_app_distr.
  rewrite lstrip_app_space; [reflexivity|].
  rewrite forallb_forall in *. intros x Hx. apply H. apply in_rev. assumption.
Qed.

Lemma rstrip_decomp (s : str) :
  exists w, forallb isspace w = true /\ s = rstrip s ++ w.
Proof.
  destruct (lstrip_decomp (rev s)) as [w [Hw Hs]].
  exists (rev w). split.
  - rewrite forallb_forall in *. intros x Hx. apply Hw. apply in_rev. assumption.
  - unfold rstrip. rewrite <- rev_app_distr, <- Hs, rev_involutive. reflexivity.
Qed.

Lemma rstrip_idem (s : str) : rstrip (rstrip s) = rstrip s.
Proof. unfold rstrip. rewrite rev_involutive, lstrip_idem. reflexivity. Qed.

Lemma rstrip_nil : rstrip [] = [].
Proof. reflexivity. Qed.

Lemma rstrip_cons_nonspace c (r : str) :
  isspace c = false -> rstrip (c :: r) = c :: rstrip r.
Proof.
  intros Hc. unfold rstrip. simpl rev.
  destruct (lstrip (rev r)) as [|d t] eqn:E.
  - rewrite lstrip_app_space by (apply lstrip_nil_all_space; assumption).
    simpl. rewrite Hc. reflexivity.
  - rewrite lstrip_app_nonspace by (rewrite E; discriminate).
    rewrite E. rewrite rev_app_distr. reflexivity.
Qed.

Lemma strip_app_space_l (w s : str) :
  forallb isspace w = true -> strip (w ++ s) = strip s.
Proof. intros H. unfold strip. rewrite lstrip_app_space by assumption. reflexivity. Qed.

Lemma strip_app_space_r (s w : str) :
  forallb isspace w = true -> strip (s ++ w) = strip s.
Proof.
  intros H. unfold strip.
  destruct (lstrip s) as [|c r] eqn:E.
  - rewrite lstrip_all_space; [reflexivity|].
    rewrite forallb_app, H, (lstrip_nil_all_space s E). reflexivity.
  - rewrite lstrip_app_nonspace by (rewrite E; discriminate).
    rewrite E. apply rstrip_app_space. assumption.
Qed.

Lemma strip_idem (s : str) : strip (strip s) = strip s.
Proof.
  unfold strip.
  destruct (lstrip s) as [|c r] eqn:E; [reflexivity|].
  pose proof (lstrip_head s c r E) as Hc.
  rewrite (rstrip_cons_nonspace c r Hc).
  rewrite (lstrip_fixed s c _ Hc).
  rewrite <- (rstrip_cons_nonspace c r Hc). apply rstrip_idem.
Qed.

(** A string is its trimmed form between two runs of white space. *)
Lemma strip_decomp (s : str) :
  exists w1 w2, forallb isspace w1 = true /\ forallb isspace w2 = true
                /\ s = w1 ++ strip s ++ w2.
Proof.
  destruct (lstrip_decomp s) as [w1 [H1 Hs]].
  destruct (rstrip_decomp (lstrip s)) as [w2 [H2 Hl]].
  exists w1, w2. repeat split; try assumption.
  unfold strip. rewrite <- Hl. assumption.
Qed.

Lemma isspace_newline : isspace NEWLINE = true.
Proof. reflexivity. Qed.
End stripping.

(** ** Content parser *)

Section parser.
Variable U : Unicode.

Lemma is_directive_strip (l l' : str) :
  strip l = strip l' -> is_directive U l = is_directive U l'.
Proof. unfold is_directive. intros ->. reflexivity. Qed.

(** The loop of [parse_post_content], from any state of its two lists. *)
Lemma parse_loop (lines : list str) (imgs txts : list str) :
  fold_left (parse_line U) lines (imgs, txts) =
  (imgs ++ List.map directive_filename (List.filter (is_directive U) lines),
   txts ++ List.filter (fun l => negb (is_directive U l)) lines).
Proof.
  revert imgs txts. induction lines as [|l ls IH]; intros imgs txts.
  - simpl. rewrite !app_nil_r. reflexivity.
  - simpl. unfold parse_line at 2. fold (is_directive U l).
    destruct (is_directive U l); simpl.
    + rewrite IH. rewrite <- app_assoc. reflexivity.
    + rewrite IH. rewrite <- app_assoc. reflexivity.
Qed.

Lemma parse_post_content_refines (content : str) :
  parse_post_content U content = parse_spec U content.
Proof.
  unfold parse_post_content, parse_spec. rewrite parse_loop. reflexivity.
Qed.

Lemma filter_all_false {X} (f : X -> bool) (l : list X) :
  Forall (fun x => f x = false) l ->
  List.filter f l = [] /\ List.filter (fun x => negb (f x)) l = l.
Proof.
  induction 1 as [|x l Hx Hl [IH1 IH2]]; [split; reflexivity|].
  simpl. rewrite Hx. simpl. rewrite IH1, IH2. split; reflexivity.
Qed.

Lemma parse_plain (content : str) :
  Forall (fun l => is_directive U l = false) (split NEWLINE content) ->
  parse_post_content U content = mkParsed (strip content) [].
Proof.
  intros H. rewrite parse_post_content_refines. unfold parse_spec.
  destruct (filter_all_false _ _ H) as [-> ->].
  rewrite join_split. reflexivity.
Qed.

Lemma last_In {X} (l : list X) (d : X) : l <> [] -> In (List.last l d) l.
Proof.
  induction l as [|x l IH]; [congruence|]. intros _.
  destruct l as [|y l]; [left; reflexivity|].
  right. apply IH. discriminate.
Qed.

(** Gluing white space to the left or right of a text changes no line
    beyond its own leading and trailing white space. *)
Lemma split_space_left (w s : str) :
  forallb isspace w = true ->
  forall l, In l (split NEWLINE s) ->
  exists l', In l' (split NEWLINE (w ++ s)) /\ strip l' = strip l.
Proof.
  intros Hw l Hl. rewrite split_app.
  pose proof (split_nonempty NEWLINE s) as Hne.
  destruct (split NEWLINE s) as [|h t]; [contradiction|].
  destruct Hl as [<-|Hl].
  - exists (List.last (split NEWLINE w) [] ++ h). split.
    + apply in_or_app. right. left. reflexivity.
    + apply strip_app_space_l.
      pose proof (split_pieces_forall NEWLINE isspace w Hw) as Hall.
      pose proof (split_nonempty NEWLINE w) as Hnw.
      rewrite List.Forall_forall in Hall. apply Hall.
      apply last_In. assumption.
  - exists l. split; [|reflexivity].
    apply in_or_app. right. right. assumption.
Qed.

Lemma split_space_right (s w : str) :
  forallb isspace w = true ->
  forall l, In l (split NEWLINE s) ->
  exists l', In l' (split NEWLINE (s ++ w)) /\ strip l' = strip l.
Proof.
  intros Hw l Hl. rewrite split_app.
  pose proof (split_nonempty NEWLINE s) as Hne.
  rewrite (app_removelast_last [] Hne) in Hl.
  apply in_app_or in Hl as [Hl|[<-|[]]].
  - exists l. split; [|reflexivity]. apply in_or_app. left. assumption.
  - exists (List.last (split NEWLINE s) [] ++ List.hd [] (split NEWLINE w)). split.
    + apply in_or_app. right. left. reflexivity.
    + apply strip_app_space_r.
      pose proof (split_pieces_forall NEWLINE isspace w Hw) as Hall.
      pose proof (split_nonempty NEWLINE w) as Hnw.
      destruct (split NEWLINE w) as [|a b]; [contradiction|].
      inversion Hall; subst. assumption.
Qed.

Lemma split_strip_lines (s : str) :
  forall l, In l (split NEWLINE (strip s)) ->
  exists l', In l' (split NEWLINE s) /\ strip l' = strip l.
Proof.
  intros l Hl.
  destruct (strip_decomp s) as [w1 [w2 [H1 [H2 Hs]]]].
  destruct (split_space_right (strip s) w2 H2 l Hl) as [l1 [Hl1 E1]].
  destruct (split_space_left w1 (strip s ++ w2) H1 l1 Hl1) as [l2 [Hl2 E2]].
  exists l2. split; [|congruence]. rewrite Hs. assumption.
Qed.

Lemma not_directive_nil : is_directive U [] = false.
Proof. reflexivity. Qed.

(** Every line of a produced body is a non-directive line. *)
Lemma body_lines_plain (content : str) :
  Forall (fun l => is_directive U l = false)
         (split NEWLINE (text (parse_post_content U content))).
Proof.
  rewrite parse_post_content_refines. unfold parse_spec. simpl text.
  set (kept := List.filter (fun l => negb (is_directive U l)) (split NEWLINE content)).
  assert (Hkept : Forall (fun l => is_directive U l = false) kept).
  { rewrite List.Forall_forall. intros l Hl. apply filter_In in Hl as [_ Hl].
    apply negb_true_iff. assumption. }
  assert (Hjoined : Forall (fun l => is_directive U l = false)
                           (split NEWLINE (join [NEWLINE] kept))).
  { destruct kept as [|k ks] eqn:E.
    - simpl. repeat constructor.
    - rewrite split_join; [assumption|discriminate|].
      rewrite List.Forall_forall. intros l Hl.
      pose proof (split_pieces_no_sep NEWLINE content) as Hno.
      rewrite List.Forall_forall in Hno. apply Hno.
      assert (In l kept) as Hin by (rewrite E; assumption).
      unfold kept in Hin. apply filter_In in Hin as [Hin _]. assumption. }
  rewrite List.Forall_forall in *. intros l Hl.
  destruct (split_strip_lines _ l Hl) as [l' [Hl' E]].
  rewrite <- (is_directive_strip l' l E). auto.
Qed.
End parser.

(** C2. The parser splits the content into lines; the directive lines
    give their trimmed remainders to the image list in the order met and
    stay out of the body, the other lines are kept unchanged, joined by
    newlines and trimmed.  When no line is a directive the image list is
    empty and the body is the trimmed content. *)
Theorem parse_post_content_correct (U : Unicode) (content : str) :
  parse_post_content U content = parse_spec U content
  /\ (Forall (fun l => is_directive U l = false) (split NEWLINE content) ->
      parse_post_content U content = mkParsed (strip content) []).
Proof.
  split; [apply parse_post_content_refines|apply parse_plain].
Qed.

Lemma parse_post_content_correct_witness :
  Forall (fun l => is_directive ascii_only l = false)
         (split NEWLINE (py "  Hello
world "))
  /\ parse_post_content ascii_only (py "  Hello
world ") = mkParsed (py "Hello
world") [].
Proof.
  assert (H : Forall (fun l => is_directive ascii_only l = false)
                     (split NEWLINE (py "  Hello
world "))) by (repeat constructor).
  split; [exact H|].
  exact (proj2 (parse_post_content_correct ascii_only _) H).
Defined.

(** C10. Parsing the body that the parser produced gives that body back
    and no image. *)
Theorem parse_post_content_idempotent (U : Unicode) (content : str) :
  parse_post_content U (text (parse_post_content U content))
  = mkParsed (text (parse_post_content U content)) [].
Proof.
  rewrite parse_plain by apply body_lines_plain.
  f_equal. rewrite parse_post_content_refines. unfold parse_spec. simpl text.
  apply strip_idem.
Qed.

(** ** Effects *)

Section effects.

Lemma printed_nil (w : World) : printed w [] = w.
Proof. destruct w. unfold printed. simpl. rewrite app_nil_r. reflexivity. Qed.

Lemma printed_app (w : World) (a b : list event) :
  printed (printed w a) b = printed w (a ++ b).
Proof. unfold printed. simpl. rewrite app_assoc. reflexivity. Qed.

Lemma print_printed (e : event) (w : World) : print e w = (inr tt, printed w [e]).
Proof. reflexivity. Qed.

Lemma bind_ok {A B} (m : M A) (k : A -> M B) (w w' : World) (a : A) :
  m w = (inr a, w') -> (m ≫= k) w = k a w'.
Proof. intros H. unfold mbind, M_bind, bind. rewrite H. reflexivity. Qed.

Lemma bind_raise {A B} (m : M A) (k : A -> M B) (w w' : World) (r : raised) :
  m w = (inl r, w') -> (m ≫= k) w = (inl r, w').
Proof. intros H. unfold mbind, M_bind, bind. rewrite H. reflexivity. Qed.

Lemma path_exists_some (path : str) (w : World) :
  is_Some (fs w !! path) -> path_exists path w = (inr true, w).
Proof. intros H. unfold path_exists. rewrite bool_decide_true by assumption. reflexivity. Qed.

Lemma path_exists_none (path : str) (w : World) :
  fs w !! path = None -> path_exists path w = (inr false, w).
Proof.
  intros H. unfold path_exists. rewrite bool_decide_false; [reflexivity|].
  rewrite H. intros [x Hx]. discriminate.
Qed.

Lemma for_each_print (evs : list event) (w : World) :
  for_each evs print w = (inr tt, printed w evs).
Proof.
  revert w. induction evs as [|e evs IH]; intros w.
  - simpl. rewrite printed_nil. reflexivity.
  - simpl. erewrite bind_ok by apply print_printed.
    rewrite IH, printed_app. reflexivity.
Qed.
End effects.

(** ** Path resolution *)

Section path_resolution.
Variable f : filesystem.

Lemma walk_app (m : gmap str node) (absolute : bool) (names c1 c2 : list str) :
  walk m absolute names (c1 ++ c2) =
  match walk m absolute names c1 with
  | Some names' => walk m absolute names' c2
  | None => None
  end.
Proof.
  revert names. induction c1 as [|c c1 IH]; intros names; [reflexivity|].
  cbn [walk app]. destruct (is_dir m absolute names); [|reflexivity].
  destruct (negb (nonempty c) || str_eqb c [DOT]); [apply IH|].
  destruct (str_eqb c DOTDOT); apply IH.
Qed.

Lemma node_at_is_dir (m : gmap str node) (absolute : bool) (names : list str)
    (entries : list str) :
  node_at m absolute names = Some (Dir entries) -> is_dir m absolute names = true.
Proof.
  unfold node_at, is_dir. destruct (anchored names); [reflexivity|].
  intros ->. reflexivity.
Qed.

Lemma split_snoc (sep : N) (s : str) : split sep (s ++ [sep]) = split sep s ++ [[]].
Proof.
  rewrite split_app.
  replace (split sep [sep]) with [@nil N; []]
    by (unfold split; rewrite N.eqb_refl; reflexivity).
  cbn [List.hd List.tl]. rewrite app_nil_r.
  rewrite (app_removelast_last [] (split_nonempty sep s)) at 3.
  rewrite <- app_assoc. reflexivity.
Qed.

(** A directory is found under its name followed by a slash as well. *)
Lemma lookup_trailing_slash (path : str) (entries : list str) :
  f !! path = Some (Dir entries) -> f !! (path ++ [SLASH]) = Some (Dir entries).
Proof.
  unfold lookup, filesystem_lookup, resolve.
  destruct (nonempty path) eqn:Hne; [|discriminate].
  replace (nonempty (path ++ [SLASH])) with true by (destruct path; reflexivity).
  replace (has NUL (path ++ [SLASH])) with (has NUL path)
    by (unfold has; rewrite existsb_app; simpl; rewrite orb_false_r; reflexivity).
  destruct (has NUL path); [discriminate|]. cbn [negb orb].
  replace (startswith (path ++ [SLASH]) [SLASH]) with (startswith path [SLASH])
    by (destruct path; [discriminate|reflexivity]).
  rewrite split_snoc, walk_app.
  destruct (walk _ _ [] (split SLASH path)) as [names|]; [|discriminate].
  intros H. cbn [walk]. rewrite (node_at_is_dir _ _ _ _ H). cbn [nonempty negb orb].
  exact H.
Qed.

(** One name in the working directory is looked up under itself. *)
Lemma lookup_plain_name (path : str) :
  plain_name path = true -> f !! path = nodes f !! path.
Proof.
  unfold plain_name. intros H.
  apply andb_true_iff in H as [H Hdd]. apply andb_true_iff in H as [H Hd].
  apply andb_true_iff in H as [H Hnul]. apply andb_true_iff in H as [Hne Hslash].
  apply negb_true_iff in Hdd, Hd, Hnul, Hslash.
  unfold lookup at 1. unfold filesystem_lookup, resolve.
  rewrite Hne, Hnul. cbn [negb orb].
  rewrite (split_no_sep SLASH path Hslash).
  assert (Hstart : startswith path [SLASH] = false).
  { destruct path as [|c path]; [reflexivity|]. unfold has in Hslash.
    cbn [existsb] in Hslash. apply orb_false_iff in Hslash as [Hc _].
    cbn [startswith]. rewrite N.eqb_sym, Hc. reflexivity. }
  rewrite Hstart. cbn [walk is_dir anchored forallb orb]. rewrite Hne, Hd, Hdd.
  cbn [negb orb app]. unfold node_at. cbn [anchored forallb]. rewrite Hdd.
  cbn [andb key_of app join]. reflexivity.
Qed.
End path_resolution.

(** ** Page registry *)

Section registry.
Variable env : gmap str str.

(** What [config_line] does on an entry line. *)
Lemma config_line_entry (n : N) (line : str) :
  is_entry line = true ->
  config_line env n line =
  if startswith (credential_field line) [DOLLAR] then
    match default [] (env !! drop 1 (credential_field line)) with
    | [] => (None, [PrintEnvNotSet (drop 1 (credential_field line))])
    | value => (Some (mkPage (identifier_field line) value (display_name line)),
                [PrintLoaded (display_name line)])
    end
  else (Some (mkPage (identifier_field line) (credential_field line) (display_name line)),
        [PrintLoaded (display_name line)]).
Proof.
  unfold is_entry, config_line, identifier_field, credential_field, display_name,
    entry_fields.
  intros H. apply andb_true_iff in H as [H H3]. apply andb_true_iff in H as [H1 H2].
  rewrite H1. apply negb_true_iff in H2. rewrite H2. simpl orb. cbv iota.
  replace (length (split PIPE (strip line)) <? 2)%nat with false.
  2:{ symmetry. apply Nat.ltb_ge. apply Nat.leb_le. exact H3. }
  destruct (startswith _ [DOLLAR]); [|reflexivity].
  destruct (default [] _); reflexivity.
Qed.

(** Any other line adds no target. *)
Lemma config_line_not_entry (n : N) (line : str) :
  is_entry line = false -> fst (config_line env n line) = None.
Proof.
  unfold is_entry, config_line, entry_fields. intros H.
  destruct (nonempty (strip line)); [|reflexivity].
  destruct (startswith (strip line) [HASH]); [reflexivity|].
  cbn [andb negb] in H.
  replace (length (split PIPE (strip line)) <? 2)%nat with true; [reflexivity|].
  symmetry. apply Nat.ltb_lt. apply Nat.leb_gt in H. exact H.
Qed.

(** The line number is only used in a warning. *)
Lemma config_line_number (n m : N) (line : str) :
  fst (config_line env n line) = fst (config_line env m line).
Proof.
  destruct (is_entry line) eqn:E.
  - rewrite !config_line_entry by assumption. reflexivity.
  - rewrite !config_line_not_entry by assumption. reflexivity.
Qed.

Lemma registry_of_number (n m : N) (lines : list str) :
  fst (registry_of env n lines) = fst (registry_of env m lines).
Proof.
  revert n m. induction lines as [|l ls IH]; intros n m; [reflexivity|].
  simpl. rewrite (config_line_number n m), (IH (N.succ n) (N.succ m)). reflexivity.
Qed.

Lemma registry_of_app (n m : N) (before after : list str) :
  fst (registry_of env n (before ++ after)) =
  fst (registry_of env n before) ++ fst (registry_of env m after).
Proof.
  revert n. induction before as [|l ls IH]; intros n.
  - simpl. apply registry_of_number.
  - simpl. rewrite IH, app_assoc. reflexivity.
Qed.
End registry.

(** The loop of [load_facebook_pages] computes [registry_of]. *)
Lemma load_loop (lines : list str) (start : N) (pages : list page) (w : World) :
  for_fold (enumerate start lines) pages load_line w =
  (inr (pages ++ fst (registry_of (environ w) start lines)),
   printed w (snd (registry_of (environ w) start lines))).
Proof.
  revert start pages w. induction lines as [|l ls IH]; intros start pages w.
  - simpl. rewrite app_nil_r, printed_nil. reflexivity.
  - simpl enumerate. simpl for_fold.
    assert (Hline : load_line pages (start, l) w =
                    (inr (pages ++ option_list (fst (config_line (environ w) start l))),
                     printed w (snd (config_line (environ w) start l)))).
    { unfold load_line. simpl. unfold mbind, M_bind, bind, get_world.
      rewrite for_each_print. reflexivity. }
    erewrite bind_ok by exact Hline.
    rewrite IH. simpl. rewrite printed_app, <- app_assoc. reflexivity.
Qed.

Lemma load_facebook_pages_text (config_file content : str) (w : World) :
  fs w !! config_file = Some (TextFile content) ->
  load_facebook_pages config_file w =
  (inr (fst (registry_of (environ w) 1 (readlines content))),
   printed w (snd (registry_of (environ w) 1 (readlines content)))).
Proof.
  intros H. unfold load_facebook_pages.
  erewrite bind_ok by (apply path_exists_some; eauto).
  cbn [negb].
  erewrite bind_ok by (unfold read_text; rewrite H; reflexivity).
  apply load_loop.
Qed.

(** C1 (as amended). A target that the registry accepts comes from an
    entry line; its identifier is the trimmed first field and its
    credential is the trimmed second field, or, when that field begins
    with a dollar sign, the value of the named environment variable, which
    is then not empty.  A line whose placeholder resolves to nothing is
    dropped with a warning.  Neither the identifier nor a literal
    credential is checked for emptiness. *)
Theorem accepted_target_fields (env : gmap str str) (n : N) (line : str) :
  (forall p evs, config_line env n line = (Some p, evs) ->
     is_entry line = true
     /\ page_id p = identifier_field line
     /\ name p = display_name line
     /\ evs = [PrintLoaded (name p)]
     /\ (if startswith (credential_field line) [DOLLAR]
         then env !! drop 1 (credential_field line) = Some (token p) /\ token p <> []
         else token p = credential_field line))
  /\ (is_entry line = true ->
      startswith (credential_field line) [DOLLAR] = true ->
      default [] (env !! drop 1 (credential_field line)) = [] ->
      config_line env n line = (None, [PrintEnvNotSet (drop 1 (credential_field line))])).
Proof.
  split.
  - intros p evs H.
    destruct (is_entry line) eqn:E.
    2:{ pose proof (config_line_not_entry env n line E) as Hn.
        rewrite H in Hn. discriminate. }
    split; [reflexivity|].
    rewrite (config_line_entry env n line E) in H.
    destruct (startswith (credential_field line) [DOLLAR]).
    + destruct (env !! drop 1 (credential_field line)) as [v|] eqn:Hv; simpl in H.
      * destruct v as [|c v]; [discriminate|].
        injection H as <- <-. simpl. repeat split; congruence.
      * discriminate.
    + injection H as <- <-. simpl. repeat split; reflexivity.
  - intros E Hd Hv. rewrite (config_line_entry env n line E), Hd, Hv. reflexivity.
Qed.

Lemma accepted_target_fields_witness :
  config_line {[py "TOKEN" := py "abc"]} 1 (py "123|$TOKEN|MyPage")
    = (Some (mkPage (py "123") (py "abc") (py "MyPage")), [PrintLoaded (py "MyPage")])
  /\ page_id (mkPage (py "123") (py "abc") (py "MyPage"))
     = identifier_field (py "123|$TOKEN|MyPage")
  /\ config_line ∅ 1 (py "123|$TOKEN|MyPage") = (None, [PrintEnvNotSet (py "TOKEN")]).
Proof.
  assert (H : config_line {[py "TOKEN" := py "abc"]} 1 (py "123|$TOKEN|MyPage")
    = (Some (mkPage (py "123") (py "abc") (py "MyPage")), [PrintLoaded (py "MyPage")]))
    by reflexivity.
  split; [exact H|]. split.
  - exact (proj1 (proj2 (proj1 (accepted_target_fields _ _ _) _ _ H))).
  - exact (proj2 (accepted_target_fields ∅ 1 (py "123|$TOKEN|MyPage"))
             eq_refl eq_refl eq_refl).
Defined.

(** C1 as stated fails: the line [|tok|name] is accepted with an empty
    identifier, and [1||name] with an empty credential. *)
Lemma accepted_target_may_be_empty :
  ~ (forall env n line p evs,
       config_line env n line = (Some p, evs) -> page_id p <> [] /\ token p <> []).
Proof.
  intros H.
  destruct (H ∅ 1 (py "|tok|name") (mkPage [] (py "tok") (py "name"))
              [PrintLoaded (py "name")] eq_refl) as [Hid _].
  apply Hid. reflexivity.
Qed.

Example accepted_empty_credential :
  config_line ∅ 1 (py "1||name") = (Some (mkPage (py "1") [] (py "name")), [PrintLoaded (py "name")]).
Proof. reflexivity. Qed.

(** The loader on a file given by its lines. *)
Section registry_lines.
Variable env : gmap str str.

Lemma registry_of_app_full (n : N) (a b : list str) :
  registry_of env n (a ++ b)
  = (fst (registry_of env n a) ++ fst (registry_of env (n + N.of_nat (length a)) b),
     snd (registry_of env n a) ++ snd (registry_of env (n + N.of_nat (length a)) b)).
Proof.
  revert n. induction a as [|l a IH]; intros n.
  - cbn [app length registry_of fst snd N.of_nat]. rewrite N.add_0_r.
    destruct (registry_of env n b); reflexivity.
  - cbn [app registry_of fst snd]. rewrite IH. cbn [fst snd length].
    replace (N.succ n + N.of_nat (length a)) with (n + N.of_nat (S (length a))) by lia.
    rewrite <- !app_assoc. reflexivity.
Qed.

Lemma config_line_newline (n : N) (line : str) :
  config_line env n (line ++ [NEWLINE]) = config_line env n line.
Proof.
  unfold config_line. rewrite (strip_app_space_r line [NEWLINE] eq_refl). reflexivity.
Qed.

Lemma registry_of_newlines (n : N) (lines : list str) :
  registry_of env n (List.map (fun l => l ++ [NEWLINE]) lines) = registry_of env n lines.
Proof.
  revert n. induction lines as [|l ls IH]; intros n; [reflexivity|].
  cbn [List.map registry_of]. rewrite config_line_newline, IH. reflexivity.
Qed.

Lemma registry_of_readlines (n : N) (lines : list str) :
  Forall (fun l => has NEWLINE l = false) lines ->
  registry_of env n (readlines (join [NEWLINE] lines)) = registry_of env n lines.
Proof.
  intros Hplain. destruct lines as [|l ls]; [reflexivity|].
  unfold readlines. rewrite (split_join NEWLINE (l :: ls)) by (congruence || assumption).
  assert (Hdecomp : l :: ls = removelast (l :: ls) ++ [List.last (l :: ls) []])
    by (apply app_removelast_last; discriminate).
  set (init := removelast (l :: ls)) in *. set (final := List.last (l :: ls) []) in *.
  transitivity (registry_of env n (init ++ [final])); [|rewrite <- Hdecomp; reflexivity].
  rewrite !registry_of_app_full, registry_of_newlines, length_map.
  destruct final as [|c r]; reflexivity.
Qed.
End registry_lines.

Lemma load_facebook_pages_lines (config_file : str) (lines : list str) (w : World) :
  Forall (fun l => has NEWLINE l = false) lines ->
  fs w !! config_file = Some (TextFile (join [NEWLINE] lines)) ->
  load_facebook_pages config_file w =
  (inr (fst (registry_of (environ w) 1 lines)),
   printed w (snd (registry_of (environ w) 1 lines))).
Proof.
  intros Hplain Hfile. rewrite (load_facebook_pages_text _ _ _ Hfile).
  rewrite registry_of_readlines by assumption. reflexivity.
Qed.

(** A file with [line] between the lines [before] and [after]: the loop
    body on [line], under its number, between what the other lines
    give. *)
Lemma load_facebook_pages_around (config_file : str) (before after : list str)
    (line : str) (w : World) :
  Forall (fun l => has NEWLINE l = false) (before ++ line :: after) ->
  fs w !! config_file = Some (TextFile (join [NEWLINE] (before ++ line :: after))) ->
  load_facebook_pages config_file w =
  (inr (fst (registry_of (environ w) 1 before)
        ++ option_list (fst (config_line (environ w) (1 + N.of_nat (length before)) line))
        ++ fst (registry_of (environ w) (2 + N.of_nat (length before)) after)),
   printed w (snd (registry_of (environ w) 1 before)
              ++ snd (config_line (environ w) (1 + N.of_nat (length before)) line)
              ++ snd (registry_of (environ w) (2 + N.of_nat (length before)) after))).
Proof.
  intros Hplain Hfile. rewrite (load_facebook_pages_lines _ _ _ Hplain Hfile).
  rewrite registry_of_app_full. cbn [registry_of fst snd].
  replace (N.succ (1 + N.of_nat (length before))) with (2 + N.of_nat (length before))
    by lia.
  reflexivity.
Qed.

(** The targets of the same file without the line. *)
Lemma load_facebook_pages_without (config_file : str) (before after : list str)
    (line : str) (w : World) :
  Forall (fun l => has NEWLINE l = false) (before ++ line :: after) ->
  fs w !! config_file = Some (TextFile (join [NEWLINE] (before ++ after))) ->
  fst (load_facebook_pages config_file w)
  = inr (fst (registry_of (environ w) 1 before)
         ++ fst (registry_of (environ w) (2 + N.of_nat (length before)) after)).
Proof.
  intros Hplain Hfile.
  assert (Hplain' : Forall (fun l => has NEWLINE l = false) (before ++ after)).
  { rewrite List.Forall_forall in *. intros l Hl. apply Hplain.
    apply in_app_or in Hl as [Hl|Hl]; apply in_or_app; [left|right; right]; exact Hl. }
  rewrite (load_facebook_pages_lines _ _ _ Hplain' Hfile). cbn [fst].
  rewrite (registry_of_app (environ w) 1 (2 + N.of_nat (length before))). reflexivity.
Qed.

(** C6. On an entry line whose credential field begins with a dollar
    sign the rest of the field names an environment variable.  When the
    variable has a value, the loader returns the target of the line with
    that value as its credential, at the place of the line among the
    targets of the other lines.  When the variable is unset the loader
    prints the warning, at the place of the line in the output, and
    returns the targets of the other lines, which are those of the same
    file without the line.  A file with the one line [123|$TOKEN|MyPage]
    gives the target (123, abc, MyPage) under TOKEN=abc and no target
    when TOKEN is unset. *)
Theorem placeholder_credential :
  (forall (w w0 : World) (config_file : str) (before after : list str) (line : str),
     Forall (fun l => has NEWLINE l = false) (before ++ line :: after) ->
     fs w !! config_file = Some (TextFile (join [NEWLINE] (before ++ line :: after))) ->
     fs w0 !! config_file = Some (TextFile (join [NEWLINE] (before ++ after))) ->
     environ w0 = environ w ->
     is_entry line = true ->
     startswith (credential_field line) [DOLLAR] = true ->
     let env := environ w in
     let env_var := drop 1 (credential_field line) in
     let pages_before := fst (registry_of env 1 before) in
     let pages_after := fst (registry_of env (2 + N.of_nat (length before)) after) in
     let output_before := snd (registry_of env 1 before) in
     let output_after := snd (registry_of env (2 + N.of_nat (length before)) after) in
     fst (load_facebook_pages config_file w0) = inr (pages_before ++ pages_after)
     /\ (forall value, env !! env_var = Some value -> value <> [] ->
         load_facebook_pages config_file w =
         (inr (pages_before
               ++ mkPage (identifier_field line) value (display_name line)
               :: pages_after),
          printed w (output_before ++ PrintLoaded (display_name line) :: output_after)))
     /\ (env !! env_var = None ->
         load_facebook_pages config_file w =
         (inr (pages_before ++ pages_after),
          printed w (output_before ++ PrintEnvNotSet env_var :: output_after))
         /\ fst (load_facebook_pages config_file w)
            = fst (load_facebook_pages config_file w0)))
  /\ load_facebook_pages CONFIG_FILE
       (config_world {[py "TOKEN" := py "abc"]} [py "123|$TOKEN|MyPage"])
     = (inr [mkPage (py "123") (py "abc") (py "MyPage")],
        printed (config_world {[py "TOKEN" := py "abc"]} [py "123|$TOKEN|MyPage"])
                [PrintLoaded (py "MyPage")])
  /\ load_facebook_pages CONFIG_FILE (config_world ∅ [py "123|$TOKEN|MyPage"])
     = (inr [],
        printed (config_world ∅ [py "123|$TOKEN|MyPage"]) [PrintEnvNotSet (py "TOKEN")]).
Proof.
  split; [|split; reflexivity].
  intros w w0 config_file before after line Hplain Hfile Hfile0 Henv E Hd
         env env_var pages_before pages_after output_before output_after.
  pose proof (load_facebook_pages_around config_file before after line w Hplain Hfile)
    as Hrun.
  pose proof (load_facebook_pages_without config_file before after line w0 Hplain Hfile0)
    as Hrun0.
  rewrite Henv in Hrun0. fold env in Hrun, Hrun0.
  fold pages_before pages_after in Hrun, Hrun0. fold output_before output_after in Hrun.
  rewrite (config_line_entry env _ line E), Hd in Hrun. fold env_var in Hrun.
  split; [exact Hrun0|]. split.
  - intros value Hv Hne. rewrite Hv in Hrun. cbn [default] in Hrun.
    destruct value as [|c value]; [congruence|]. exact Hrun.
  - intros Hv. rewrite Hv in Hrun. cbn [default] in Hrun. split; [exact Hrun|].
    rewrite Hrun, Hrun0. reflexivity.
Qed.

Lemma placeholder_credential_witness :
  load_facebook_pages CONFIG_FILE
    (config_world ∅ [py "1|a|A"; py "123|$TOKEN|MyPage"; py "2|b|B"])
  = (inr [mkPage (py "1") (py "a") (py "A"); mkPage (py "2") (py "b") (py "B")],
     printed (config_world ∅ [py "1|a|A"; py "123|$TOKEN|MyPage"; py "2|b|B"])
             [PrintLoaded (py "A"); PrintEnvNotSet (py "TOKEN"); PrintLoaded (py "B")])
  /\ fst (load_facebook_pages CONFIG_FILE
            (config_world ∅ [py "1|a|A"; py "123|$TOKEN|MyPage"; py "2|b|B"]))
     = fst (load_facebook_pages CONFIG_FILE (config_world ∅ [py "1|a|A"; py "2|b|B"])).
Proof.
  refine (proj2 (proj2 (proj1 placeholder_credential
                   (config_world ∅ [py "1|a|A"; py "123|$TOKEN|MyPage"; py "2|b|B"])
                   (config_world ∅ [py "1|a|A"; py "2|b|B"])
                   CONFIG_FILE [py "1|a|A"] [py "2|b|B"] (py "123|$TOKEN|MyPage")
                   _ eq_refl eq_refl eq_refl eq_refl eq_refl)) eq_refl).
  repeat constructor.
Defined.

(** C9. A variable set to the empty string is indistinguishable from an
    unset one: every line gives the same result under both environments,
    and an entry line whose credential is the placeholder of that
    variable is dropped with the warning. *)
Theorem empty_variable_as_unset (env : gmap str str) (env_var : str) (n : N) (line : str) :
  config_line (<[env_var := []]> env) n line = config_line (delete env_var env) n line
  /\ (is_entry line = true ->
      credential_field line = DOLLAR :: env_var ->
      config_line (<[env_var := []]> env) n line = (None, [PrintEnvNotSet env_var])
      /\ config_line (delete env_var env) n line = (None, [PrintEnvNotSet env_var])).
Proof.
  assert (Hsame : forall k : str,
            default [] (<[env_var := []]> env !! k) = default [] (delete env_var env !! k)).
  { intros k. destruct (decide (env_var = k)) as [->|Hk].
    - rewrite lookup_insert_eq, lookup_delete_eq. reflexivity.
    - rewrite lookup_insert_ne, lookup_delete_ne by assumption. reflexivity. }
  assert (Heq : config_line (<[env_var := []]> env) n line
                = config_line (delete env_var env) n line).
  { destruct (is_entry line) eqn:E.
    - rewrite !config_line_entry by assumption. rewrite Hsame. reflexivity.
    - unfold config_line.
      destruct (negb (nonempty (strip line)) || startswith (strip line) [HASH]);
        [reflexivity|].
      destruct (length (split PIPE (strip line)) <? 2)%nat; [reflexivity|].
      destruct (startswith _ [DOLLAR]); [|reflexivity].
      rewrite Hsame. reflexivity. }
  split; [exact Heq|].
  intros E Hc.
  assert (config_line (<[env_var := []]> env) n line = (None, [PrintEnvNotSet env_var])) as H.
  { rewrite (config_line_entry _ n line E), Hc.
    change (startswith (DOLLAR :: env_var) [DOLLAR]) with true.
    change (drop 1 (DOLLAR :: env_var)) with env_var.
    rewrite lookup_insert_eq. reflexivity. }
  split; [exact H|]. rewrite <- Heq. exact H.
Qed.

Lemma empty_variable_as_unset_witness :
  is_entry (py "123|$TOKEN|MyPage") = true
  /\ credential_field (py "123|$TOKEN|MyPage") = DOLLAR :: py "TOKEN"
  /\ config_line (<[py "TOKEN" := []]> ∅) 1 (py "123|$TOKEN|MyPage")
     = (None, [PrintEnvNotSet (py "TOKEN")]).
Proof.
  split; [reflexivity|]. split; [reflexivity|].
  exact (proj1 (proj2 (empty_variable_as_unset ∅ (py "TOKEN") 1 (py "123|$TOKEN|MyPage"))
                  eq_refl eq_refl)).
Defined.

(** ** Post loader: enumeration order *)

Section ordering.

Lemma str_leb_refl (a : str) : str_leb a a = true.
Proof.
  induction a as [|x a IH]; [reflexivity|]. simpl.
  rewrite N.eqb_refl, IH. apply orb_true_r.
Qed.

Lemma str_leb_total (a b : str) : str_leb a b = true \/ str_leb b a = true.
Proof.
  revert b. induction a as [|x a IH]; intros [|y b]; simpl; auto.
  destruct (N.lt_trichotomy x y) as [H|[H|H]].
  - left. apply N.ltb_lt in H. rewrite H. reflexivity.
  - subst y. rewrite N.ltb_irrefl, N.eqb_refl. simpl. apply IH.
  - right. apply N.ltb_lt in H. rewrite H. reflexivity.
Qed.

Lemma str_leb_trans (a b c : str) :
  str_leb a b = true -> str_leb b c = true -> str_leb a c = true.
Proof.
  revert b c. induction a as [|x a IH]; intros [|y b] [|z c]; simpl; auto; try discriminate.
  intros H1 H2.
  apply orb_true_iff in H1 as [H1|H1]; apply orb_true_iff in H2 as [H2|H2].
  - apply N.ltb_lt in H1, H2. apply orb_true_iff. left. apply N.ltb_lt. lia.
  - apply andb_true_iff in H2 as [H2 _]. apply N.eqb_eq in H2. subst z.
    rewrite H1. reflexivity.
  - apply andb_true_iff in H1 as [H1 _]. apply N.eqb_eq in H1. subst y.
    rewrite H2. reflexivity.
  - apply andb_true_iff in H1 as [H1 H1'], H2 as [H2 H2'].
    apply N.eqb_eq in H1, H2. subst y z.
    rewrite N.eqb_refl. simpl. rewrite (IH b c H1' H2'). apply orb_true_r.
Qed.

Lemma str_leb_antisym (a b : str) :
  str_leb a b = true -> str_leb b a = true -> a = b.
Proof.
  revert b. induction a as [|x a IH]; intros [|y b]; simpl; auto; try discriminate.
  intros H1 H2.
  apply orb_true_iff in H1 as [H1|H1]; apply orb_true_iff in H2 as [H2|H2].
  - apply N.ltb_lt in H1, H2. lia.
  - apply andb_true_iff in H2 as [H2 _]. apply N.eqb_eq in H2. apply N.ltb_lt in H1. lia.
  - apply andb_true_iff in H1 as [H1 _]. apply N.eqb_eq in H1. apply N.ltb_lt in H2. lia.
  - apply andb_true_iff in H1 as [H1 H1'], H2 as [H2 H2'].
    apply N.eqb_eq in H1. subst y. f_equal. auto.
Qed.

#[local] Instance str_le_total : Total str_le.
Proof.
  intros a b. unfold str_le.
  destruct (str_leb_total a b) as [H|H]; rewrite H; simpl; auto.
Qed.

#[local] Instance str_le_trans : Transitive str_le.
Proof.
  intros a b c H1 H2. unfold str_le in *.
  apply Is_true_true in H1, H2. apply Is_true_true. eapply str_leb_trans; eassumption.
Qed.

(** A common prefix does not change the order. *)
Lemma str_leb_prefix (p a b : str) : str_leb (p ++ a) (p ++ b) = str_leb a b.
Proof.
  induction p as [|x p IH]; [reflexivity|]. simpl.
  rewrite N.ltb_irrefl, N.eqb_refl. simpl. exact IH.
Qed.

Lemma sort_paths_sorted (files : list str) : Sorted str_le (sort_paths files).
Proof. apply Sorted_merge_sort. apply _. Qed.

Lemma sort_paths_perm (files : list str) : sort_paths files ≡ₚ files.
Proof. apply merge_sort_Permutation. Qed.

Lemma path_join_plain (directory n : str) :
  has SLASH n = false -> path_join directory n = dir_prefix directory ++ n.
Proof.
  intros H. unfold path_join, dir_prefix.
  replace (startswith n [SLASH]) with false.
  - destruct (negb (nonempty directory) || endswith directory [SLASH]);
      [reflexivity|]. rewrite <- app_assoc. reflexivity.
  - destruct n as [|c n]; [reflexivity|]. unfold has in H.
    change (existsb (N.eqb SLASH) (c :: n))
      with ((SLASH =? c) || existsb (N.eqb SLASH) n) in H.
    apply orb_false_iff in H as [H _].
    change (startswith (c :: n) [SLASH]) with ((c =? SLASH) && true).
    rewrite N.eqb_sym, H. reflexivity.
Qed.

Lemma last_app_cons {X} (l r : list X) (x d : X) :
  List.last (l ++ x :: r) d = List.last (x :: r) d.
Proof.
  induction l as [|y l IH]; [reflexivity|].
  change ((y :: l) ++ x :: r) with (y :: (l ++ x :: r)).
  destruct (l ++ x :: r) eqn:E; [destruct l; discriminate|]. exact IH.
Qed.

Lemma split_sep (sep : N) : split sep [sep] = [[]; []].
Proof. unfold split. rewrite N.eqb_refl. reflexivity. Qed.

Lemma split_snoc_sep (sep : N) (q : str) :
  List.last (split sep (q ++ [sep])) [] = [].
Proof. rewrite split_app, split_sep, last_app_cons. reflexivity. Qed.

Lemma dir_prefix_last (directory : str) :
  List.last (split SLASH (dir_prefix directory)) [] = [].
Proof.
  unfold dir_prefix. destruct directory as [|c d] using rev_ind; [reflexivity|].
  clear IHd.
  destruct (negb (nonempty (d ++ [c])) || endswith (d ++ [c]) [SLASH]) eqn:E.
  - apply orb_true_iff in E as [E|E].
    + destruct d; discriminate.
    + unfold endswith in E. rewrite rev_app_distr in E. simpl in E.
      rewrite andb_true_r in E. apply N.eqb_eq in E. subst c.
      apply split_snoc_sep.
  - apply split_snoc_sep.
Qed.

Lemma basename_path_join (directory n : str) :
  has SLASH n = false -> basename (path_join directory n) = n.
Proof.
  intros H. rewrite path_join_plain by assumption. unfold basename.
  rewrite split_app, (split_no_sep SLASH n H), last_app_cons.
  cbn [List.hd List.tl List.last]. rewrite dir_prefix_last. reflexivity.
Qed.

Lemma Sorted_on {X} (R R' : X -> X -> Prop) (Q : X -> Prop) (l : list X) :
  (forall a b, Q a -> Q b -> R a b -> R' a b) ->
  Forall Q l -> Sorted R l -> Sorted R' l.
Proof.
  intros Himp Hq Hs. induction Hs as [|x l Hs IH Hhd]; [constructor|].
  inversion Hq as [|? ? Hx Hl]; subst. constructor; [auto|].
  destruct Hhd as [|y l Hxy]; constructor.
  inversion Hl; subst. auto.
Qed.

Lemma lookup_path_some (f : filesystem) (path : str) (n : node) :
  f !! path = Some n -> nonempty path = true /\ has NUL path = false.
Proof.
  unfold lookup, filesystem_lookup, resolve.
  destruct (nonempty path); [|discriminate].
  destruct (has NUL path); [discriminate|]. split; reflexivity.
Qed.

Lemma from_char_app (c : N) (a b : str) :
  has c a = false -> from_char c (a ++ c :: b) = c :: b.
Proof.
  induction a as [|x a IH]; intros H.
  - simpl. rewrite N.eqb_refl. reflexivity.
  - unfold has in H. simpl in H. apply orb_false_iff in H as [Hx Ha].
    simpl. rewrite N.eqb_sym, Hx. apply IH. exact Ha.
Qed.

Lemma has_rev (c : N) (s : str) : has c (rev s) = has c s.
Proof.
  unfold has. induction s as [|x s IH]; [reflexivity|].
  simpl. rewrite existsb_app, IH. simpl. rewrite orb_false_r. apply orb_comm.
Qed.

(** Splitting the pattern gives the directory back when it does not end
    with a slash. *)
Lemma split_head_join (directory ext : str) :
  nonempty directory = true -> endswith directory [SLASH] = false ->
  has SLASH ext = false ->
  split_head (path_join directory (STAR :: ext)) = directory.
Proof.
  intros Hne Hend Hext. unfold path_join.
  change (startswith (STAR :: ext) [SLASH]) with false. cbn iota.
  rewrite Hne, Hend. cbn [negb orb]. unfold split_head.
  replace (rev (directory ++ [SLASH] ++ STAR :: ext))
    with (rev (STAR :: ext) ++ SLASH :: rev directory)
    by (rewrite !rev_app_distr; cbn [rev app]; rewrite <- !app_assoc; reflexivity).
  rewrite from_char_app by (rewrite has_rev; unfold has; simpl; exact Hext).
  cbn [rev]. rewrite rev_involutive.
  unfold endswith in Hend. cbn [rev app] in Hend.
  destruct (rev directory) as [|c r] eqn:E.
  { apply (f_equal (@rev N)) in E. rewrite rev_involutive in E. subst directory.
    discriminate. }
  cbn [startswith] in Hend. rewrite andb_true_r in Hend.
  replace (forallb (N.eqb SLASH) (directory ++ [SLASH])) with false.
  - rewrite rev_app_distr. cbn [rev app lstrip_char]. rewrite N.eqb_refl, E.
    cbn [lstrip_char]. rewrite Hend. rewrite <- E. apply rev_involutive.
  - symmetry. rewrite <- (rev_involutive directory), E. cbn [rev].
    rewrite !forallb_app. cbn [forallb]. rewrite (N.eqb_sym SLASH c), Hend.
    rewrite andb_false_r. reflexivity.
Qed.

Lemma glob_ext_dir (directory ext : str) (entries : list str) (w : World) :
  fs w !! directory = Some (Dir entries) ->
  has_magic directory = false -> endswith directory [SLASH] = false ->
  has SLASH ext = false ->
  glob_ext directory ext w =
  (inr (List.map (path_join directory) (glob_names ext entries)), w).
Proof.
  intros H Hmagic Hend Hext.
  destruct (lookup_path_some _ _ _ H) as [Hne Hnul].
  unfold glob_ext. rewrite (split_head_join directory ext Hne Hend Hext).
  rewrite (bind_ok get_world _ w w w eq_refl). rewrite Hmagic, Hne.
  unfold listdir. erewrite bind_ok.
  2:{ rewrite (bind_ok get_world _ w w w eq_refl). rewrite Hnul, H. reflexivity. }
  reflexivity.
Qed.

Lemma get_all_post_files_dir (posts_dir : str) (entries : list str) (w : World) :
  fs w !! posts_dir = Some (Dir entries) ->
  has_magic posts_dir = false -> endswith posts_dir [SLASH] = false ->
  get_all_post_files posts_dir w =
  (inr (sort_paths (List.map (path_join posts_dir)
                      (supported_names (docx_support w) entries))), w).
Proof.
  intros H Hmagic Hend. unfold get_all_post_files, supported_names.
  erewrite bind_ok by (apply glob_ext_dir; [eassumption|assumption|assumption|reflexivity]).
  unfold mbind at 1. unfold M_bind, bind, get_world.
  destruct (docx_support w).
  - erewrite bind_ok
      by (apply glob_ext_dir; [eassumption|assumption|assumption|reflexivity]).
    rewrite map_app. reflexivity.
  - unfold mbind, M_bind, bind, mret, M_ret, ret. rewrite map_app. reflexivity.
Qed.
End ordering.

(** C8. The loader returns the supported files of the posts directory,
    text files and documents together, in lexicographic order of their
    file names; with [b.txt] and [a.docx] in the directory, [a.docx]
    comes first. *)
Theorem post_files_sorted :
  (forall (w : World) (posts_dir : str) (entries : list str),
     fs w !! posts_dir = Some (Dir entries) ->
     has_magic posts_dir = false -> endswith posts_dir [SLASH] = false ->
     Forall (fun n => has SLASH n = false) entries ->
     exists files,
       get_all_post_files posts_dir w = (inr files, w)
       /\ files ≡ₚ List.map (path_join posts_dir) (supported_names (docx_support w) entries)
       /\ Sorted str_le files
       /\ Sorted (fun a b => str_le (basename a) (basename b)) files)
  /\ get_all_post_files POSTS_DIR two_posts_world
     = (inr [py "posts/a.docx"; py "posts/b.txt"], two_posts_world).
Proof.
  split; [|reflexivity].
  intros w posts_dir entries Hdir Hmagic Hend Hplain.
  eexists. split; [apply get_all_post_files_dir; eassumption|].
  split; [apply sort_paths_perm|]. split; [apply sort_paths_sorted|].
  set (names := supported_names (docx_support w) entries).
  assert (Hnames : Forall (fun n => has SLASH n = false) names).
  { rewrite List.Forall_forall in *. intros n Hn. apply Hplain.
    unfold names, supported_names, glob_names in Hn.
    apply in_app_or in Hn as [Hn|Hn].
    - apply filter_In in Hn. tauto.
    - destruct (docx_support w); [|contradiction]. apply filter_In in Hn. tauto. }
  apply (Sorted_on str_le _
           (fun p => exists n, has SLASH n = false /\ p = path_join posts_dir n)).
  - intros a b [n [Hn ->]] [m [Hm ->]] Hab.
    rewrite !basename_path_join by assumption.
    rewrite !path_join_plain in Hab by assumption.
    unfold str_le in *. rewrite str_leb_prefix in Hab. exact Hab.
  - eapply Permutation_Forall; [symmetry; apply sort_paths_perm|].
    rewrite List.Forall_forall in *. intros p Hp.
    apply in_map_iff in Hp as [n [<- Hn]]. eauto.
  - apply sort_paths_sorted.
Qed.

Lemma post_files_sorted_witness :
  fs two_posts_world !! POSTS_DIR = Some (Dir [py "b.txt"; py "a.docx"])
  /\ Forall (fun n => has SLASH n = false) [py "b.txt"; py "a.docx"]
  /\ exists files,
       get_all_post_files POSTS_DIR two_posts_world = (inr files, two_posts_world)
       /\ Sorted (fun a b => str_le (basename a) (basename b)) files.
Proof.
  assert (H1 : fs two_posts_world !! POSTS_DIR = Some (Dir [py "b.txt"; py "a.docx"]))
    by reflexivity.
  assert (H2 : Forall (fun n => has SLASH n = false) [py "b.txt"; py "a.docx"])
    by (repeat constructor).
  split; [exact H1|]. split; [exact H2|].
  destruct (proj1 post_files_sorted two_posts_world POSTS_DIR _ H1 eq_refl eq_refl H2)
    as [files [Hrun [_ [_ Hsorted]]]].
  exists files. split; assumption.
Defined.

(** ** Publisher: the attached media field *)

Section attached_media.
Variable U : Unicode.

Lemma replace_app (a b : N) (s t : str) :
  replace a b (s ++ t) = replace a b s ++ replace a b t.
Proof. unfold replace. apply map_app. Qed.

Lemma replace_join (a b : N) (sep : str) (parts : list str) :
  replace a b (join sep parts) = join (replace a b sep) (List.map (replace a b) parts).
Proof.
  induction parts as [|p ps IH]; [reflexivity|].
  destruct ps as [|q qs]; [reflexivity|].
  change (join sep (p :: q :: qs)) with (p ++ sep ++ join sep (q :: qs)).
  rewrite !replace_app, IH. reflexivity.
Qed.

Lemma plain_char_facts (c : N) :
  plain_char c = true ->
  32 <= c /\ c < 127 /\ c <> QUOTE /\ c <> DQUOTE /\ c <> BACKSLASH.
Proof.
  unfold plain_char. intros H.
  repeat (apply andb_true_iff in H as [H ?]).
  repeat match goal with
         | X : negb _ = true |- _ => apply negb_true_iff, N.eqb_neq in X
         end.
  apply N.leb_le in H. apply N.ltb_lt in H3. auto.
Qed.

Lemma replace_plain (s : str) :
  forallb plain_char s = true -> replace QUOTE DQUOTE s = s.
Proof.
  induction s as [|c s IH]; [reflexivity|]. simpl forallb. intros H.
  apply andb_true_iff in H as [Hc Hs]. unfold replace in *.
  change (List.map ?f (c :: s)) with (f c :: List.map f s). rewrite (IH Hs).
  apply plain_char_facts in Hc as (_ & _ & Hq & _).
  apply N.eqb_neq in Hq. rewrite Hq. reflexivity.
Qed.

Lemma has_plain (q : N) (s : str) :
  (q = QUOTE \/ q = DQUOTE) -> forallb plain_char s = true -> has q s = false.
Proof.
  intros Hq. induction s as [|c s IH]; [reflexivity|]. simpl forallb. intros H.
  apply andb_true_iff in H as [Hc Hs]. unfold has in *.
  change (existsb (N.eqb q) (c :: s)) with ((q =? c) || existsb (N.eqb q) s).
  rewrite (IH Hs). apply plain_char_facts in Hc as (_ & _ & H1 & H2 & _).
  replace (q =? c) with false; [reflexivity|].
  symmetry. apply N.eqb_neq. destruct Hq; subst q; congruence.
Qed.

Lemma repr_char_plain (c : N) : plain_char c = true -> repr_char U QUOTE c = [c].
Proof.
  intros H. apply plain_char_facts in H as (H1 & H2 & H3 & H4 & H5).
  unfold repr_char.
  replace (c =? QUOTE) with false by (symmetry; apply N.eqb_neq; assumption).
  replace (c =? BACKSLASH) with false by (symmetry; apply N.eqb_neq; assumption).
  replace (c =? 9) with false by (symmetry; apply N.eqb_neq; lia).
  replace (c =? 10) with false by (symmetry; apply N.eqb_neq; lia).
  replace (c =? 13) with false by (symmetry; apply N.eqb_neq; lia).
  replace (c <? 32) with false by (symmetry; apply N.ltb_ge; assumption).
  replace (c =? 127) with false by (symmetry; apply N.eqb_neq; lia).
  replace (c <? 127) with true by (symmetry; apply N.ltb_lt; assumption).
  reflexivity.
Qed.

Lemma json_escape_plain (c : N) : plain_char c = true -> json_escape_char c = [c].
Proof.
  intros H. apply plain_char_facts in H as (H1 & H2 & H3 & H4 & H5).
  unfold json_escape_char.
  replace (c =? DQUOTE) with false by (symmetry; apply N.eqb_neq; assumption).
  replace (c =? BACKSLASH) with false by (symmetry; apply N.eqb_neq; assumption).
  replace (c =? 10) with false by (symmetry; apply N.eqb_neq; lia).
  replace (c =? 13) with false by (symmetry; apply N.eqb_neq; lia).
  replace (c =? 9) with false by (symmetry; apply N.eqb_neq; lia).
  replace (c =? 8) with false by (symmetry; apply N.eqb_neq; lia).
  replace (c =? 12) with false by (symmetry; apply N.eqb_neq; lia).
  replace (32 <=? c) with true by (symmetry; apply N.leb_le; assumption).
  replace (c <? 127) with true by (symmetry; apply N.ltb_lt; assumption).
  reflexivity.
Qed.

Lemma flat_map_singleton (f : N -> str) (s : str) :
  Forall (fun c => f c = [c]) s -> flat_map f s = s.
Proof.
  induction 1 as [|c s Hc Hs IH]; [reflexivity|]. simpl. rewrite Hc, IH. reflexivity.
Qed.

Lemma forallb_Forall_plain (f : N -> str) (s : str) :
  (forall c, plain_char c = true -> f c = [c]) ->
  forallb plain_char s = true -> Forall (fun c => f c = [c]) s.
Proof.
  intros Hf H. rewrite forallb_forall in H. apply List.Forall_forall. auto.
Qed.

Lemma repr_str_plain (s : str) :
  forallb plain_char s = true -> repr_str U s = [QUOTE] ++ s ++ [QUOTE].
Proof.
  intros H. unfold repr_str.
  rewrite (has_plain QUOTE s) by auto. cbn [andb].
  rewrite flat_map_singleton; [reflexivity|].
  apply forallb_Forall_plain; [apply repr_char_plain|assumption].
Qed.

Lemma json_string_plain (s : str) :
  forallb plain_char s = true -> json_string s = [DQUOTE] ++ s ++ [DQUOTE].
Proof.
  intros H. unfold json_string.
  rewrite flat_map_singleton; [reflexivity|].
  apply forallb_Forall_plain; [apply json_escape_plain|assumption].
Qed.

(** The two branches on the number of photos build the same list. *)
Lemma attached_media_field_unfold (photo_ids : list json) :
  attached_media_field U photo_ids =
  replace QUOTE DQUOTE
    (py_repr U (JArr (List.map (fun pid => JObj [(py "media_fbid", pid)]) photo_ids))).
Proof. destruct photo_ids as [|p [|q r]]; reflexivity. Qed.

Lemma media_entry_plain (id : str) :
  forallb plain_char id = true ->
  replace QUOTE DQUOTE (py_repr U (JObj [(py "media_fbid", JStr id)]))
  = json_media_entry id.
Proof.
  intros H. unfold json_media_entry.
  rewrite (json_string_plain id H), (json_string_plain (py "media_fbid") eq_refl).
  cbn [py_repr List.map join fst snd].
  rewrite (repr_str_plain id H), (repr_str_plain (py "media_fbid") eq_refl).
  rewrite !replace_app, (replace_plain id H). reflexivity.
Qed.

(** For identifiers made of plain characters the substitution does
    produce the JSON text. *)
Lemma attached_media_plain_ids (ids : list str) :
  Forall (fun id => forallb plain_char id = true) ids ->
  attached_media_field U (List.map JStr ids) = json_media_list ids.
Proof.
  intros H. rewrite attached_media_field_unfold. unfold json_media_list.
  cbn [py_repr]. rewrite !replace_app, replace_join. f_equal. f_equal.
  f_equal. rewrite !List.map_map.
  induction H as [|id ids Hid Hids IH]; [reflexivity|].
  cbn [List.map]. rewrite IH. f_equal.
  apply (media_entry_plain id Hid).
Qed.
End attached_media.

Example attached_media_digits :
  attached_media_field ascii_only [JStr (py "101"); JStr (py "102")]
  = py "[{" ++ [DQUOTE] ++ py "media_fbid" ++ [DQUOTE] ++ py ": " ++ [DQUOTE] ++ py "101"
    ++ [DQUOTE] ++ py "}, {" ++ [DQUOTE] ++ py "media_fbid" ++ [DQUOTE] ++ py ": "
    ++ [DQUOTE] ++ py "102" ++ [DQUOTE] ++ py "}]".
Proof. reflexivity. Qed.

(** C3, where the code departs from it. For the single identifier made
    of the characters 1, apostrophe, 2 the field is not the JSON text of
    the list: [repr] delimits a string that holds an apostrophe with
    double quotes, and the substitution then turns the apostrophe inside
    it into a third double quote, which ends the JSON string early. *)
Theorem attached_media_not_json (U : Unicode) :
  attached_media_field U [JStr (py "1'2")]
  = py "[{" ++ [DQUOTE] ++ py "media_fbid" ++ [DQUOTE] ++ py ": "
    ++ [DQUOTE] ++ py "1" ++ [DQUOTE] ++ py "2" ++ [DQUOTE] ++ py "}]"
  /\ json_media_list [py "1'2"]
     = py "[{" ++ [DQUOTE] ++ py "media_fbid" ++ [DQUOTE] ++ py ": "
       ++ [DQUOTE] ++ py "1'2" ++ [DQUOTE] ++ py "}]"
  /\ attached_media_field U [JStr (py "1'2")] <> json_media_list [py "1'2"].
Proof.
  split; [reflexivity|]. split; [reflexivity|]. discriminate.
Qed.

(** ** Publisher *)

Section publisher.
Variable U : Unicode.
Variable self : FacebookPoster.

Lemma requested_printed (w : World) (req : request) (evs : list event) :
  requested (printed w evs) req = printed (requested w req) evs.
Proof. reflexivity. Qed.

Lemma http_responded (req : request) (w : World) status_code b rest :
  network w = Responded status_code b :: rest ->
  http req w = (inr (status_code, b), requested w req).
Proof. intros H. unfold http, requested. rewrite H. reflexivity. Qed.

Lemma http_failed (req : request) (w : World) msg rest :
  network w = Failed msg :: rest ->
  http req w = (inl (Exc (RequestException msg)), requested w req).
Proof. intros H. unfold http, requested. rewrite H. reflexivity. Qed.


(** A transport failure becomes an error object with its message. *)
Lemma post_text_only_failed (message : str) (w : World) msg rest :
  network w = Failed msg :: rest ->
  post_text_only self message w =
  (inr (error_result (RequestException msg)),
   requested w (feed_request self message None)).
Proof.
  intros H. unfold post_text_only, try_except.
  erewrite bind_raise by (eapply http_failed; eassumption). reflexivity.
Qed.


End publisher.

Section publisher_requests.
Variable U : Unicode.
Variable self : FacebookPoster.

(** Checking the result sends nothing. *)
Lemma check_result_sent (result : json) (w : World) :
  sent (snd (check_result U result w)) = sent w.
Proof.
  unfold check_result, mbind, M_bind, bind, liftE, py_in, py_getitem, py_get,
    mret, M_ret, ret, raise, print.
  destruct result as [|b|z|s|items|members]; try reflexivity.
  - destruct (substring_of (py "id") s); reflexivity.
  - destruct (existsb _ items); reflexivity.
  - destruct (dict_lookup (py "id") members) as [id|] eqn:Hid.
    + rewrite bool_decide_true by eauto. reflexivity.
    + rewrite bool_decide_false by (intros [x Hx]; discriminate).
      destruct (dict_lookup (py "error") members) as [[| | | | |error]|];
        try reflexivity.
      destruct (dict_lookup (py "message") error); reflexivity.
Qed.

(** A text-only feed call sends its one request, whatever comes back. *)
Lemma post_text_only_sent (message : str) (w : World) :
  sent (snd (post_text_only self message w)) = sent w ++ [feed_request self message None]
  /\ stdout (snd (post_text_only self message w)) = stdout w.
Proof.
  unfold post_text_only, try_except, mbind, M_bind, bind, http, response_json,
    mret, M_ret, ret, raise.
  destruct (network w) as [|[status_code [v|err]|msg|] rest]; split; reflexivity.
Qed.

(** Without image paths [post] sends the text-only feed request and
    nothing else. *)
Lemma post_method_none_sent (message : str) (w : World) :
  sent (snd (post_method U self message None w))
  = sent w ++ [feed_request self message None].
Proof.
  unfold post_method.
  erewrite bind_ok by apply print_printed.
  erewrite bind_ok by reflexivity. cbn [nonempty_list].
  pose proof (post_text_only_sent message (printed w [PrintPostingTo (self_name self)]))
    as [Hsent _].
  unfold mbind, M_bind, bind.
  destruct (post_text_only self message (printed w [PrintPostingTo (self_name self)]))
    as [[r|result] w1]; simpl in Hsent |- *.
  - exact Hsent.
  - rewrite check_result_sent. exact Hsent.
Qed.

Lemma no_exit_bind {A B} (m : M A) (k : A -> M B) :
  no_exit m -> (forall a, no_exit (k a)) -> no_exit (m ≫= k).
Proof.
  intros Hm Hk w code w'. unfold mbind, M_bind, bind.
  destruct (m w) as [[r|a] w1] eqn:E.
  - intros [= -> ->]. exact (Hm _ _ _ E).
  - apply Hk.
Qed.

Lemma no_exit_ret {A} (a : A) : no_exit (mret a).
Proof. intros w code w'. discriminate. Qed.

Lemma no_exit_print (e : event) : no_exit (print e).
Proof. intros w code w'. discriminate. Qed.

Lemma no_exit_liftE {A} (x : exception + A) : no_exit (liftE x).
Proof. intros w code w'. destruct x; discriminate. Qed.

Lemma no_exit_http (req : request) : no_exit (http req).
Proof.
  intros w code w'. unfold http.
  destruct (network w) as [|[status_code b|msg|] rest]; discriminate.
Qed.

Lemma no_exit_response_json (b : body) : no_exit (response_json b).
Proof. intros w code w'. destruct b; discriminate. Qed.

Lemma no_exit_open_binary (path : str) : no_exit (open_binary path).
Proof.
  intros w code w'. unfold open_binary.
  destruct (fs w !! path) as [[| | |]|]; discriminate.
Qed.

Lemma no_exit_if {A} (b : bool) (m1 m2 : M A) :
  no_exit m1 -> no_exit m2 -> no_exit (if b then m1 else m2).
Proof. destruct b; auto. Qed.

(** A [try] whose handler returns leaves only normally or by the
    user's interrupt. *)
Lemma try_except_outcome {A} (m : M A) (h : exception -> M A) (w : World) :
  no_exit m ->
  (forall e w1, exists a w2, h e w1 = (inr a, w2)) ->
  (exists a w', try_except m h w = (inr a, w'))
  \/ (exists w', try_except m h w = (inl KeyboardInterrupt, w')).
Proof.
  intros Hm Hh. unfold try_except.
  destruct (m w) as [[[|code|e]|a] w1] eqn:E.
  - right. eauto.
  - exfalso. exact (Hm _ _ _ E).
  - left. apply Hh.
  - left. eauto.
Qed.

(** An upload never fails the post: it yields an identifier or [None]
    unless the user interrupts it. *)
Lemma upload_photo_outcome (image_path : str) (w : World) :
  (exists id w', upload_photo self image_path w = (inr id, w'))
  \/ (exists w', upload_photo self image_path w = (inl KeyboardInterrupt, w')).
Proof.
  unfold upload_photo.
  rewrite (bind_ok (path_exists image_path) _ w w _ eq_refl).
  destruct (bool_decide (is_Some (fs w !! image_path))); cbn [negb].
  2:{ left. eexists _, _. reflexivity. }
  apply try_except_outcome.
  - repeat first
      [ apply no_exit_bind; [|intros ?] | apply no_exit_if
      | apply no_exit_open_binary | apply no_exit_http | apply no_exit_response_json
      | apply no_exit_liftE | apply no_exit_print | apply no_exit_ret ].
  - intros e w1. eexists _, _. reflexivity.
Qed.

Lemma upload_step_run (photo_ids : list json) (img_path : str) (w : World) :
  upload_step self photo_ids img_path w =
  match upload_photo self img_path w with
  | (inr id, w1) => (inr (if truthy id then photo_ids ++ [id] else photo_ids), w1)
  | (inl r, w1) => (inl r, w1)
  end.
Proof.
  unfold upload_step, mbind, M_bind, bind.
  destruct (upload_photo self img_path w) as [[r|id] w1]; reflexivity.
Qed.

(** The upload loop takes the paths in order and keeps the identifiers
    obtained; an upload that gives none adds nothing. *)
Lemma upload_loop (image_paths : list str) (photo_ids : list json) (w : World) :
  for_fold image_paths photo_ids (upload_step self) w
  = match upload_all self image_paths w with
    | (inr ids, w') => (inr (photo_ids ++ ids), w')
    | (inl r, w') => (inl r, w')
    end.
Proof.
  unfold upload_all. revert photo_ids w.
  induction image_paths as [|p ps IH]; intros photo_ids w.
  - simpl. unfold ret. rewrite app_nil_r. reflexivity.
  - cbn [for_fold]. unfold mbind, M_bind, bind. rewrite !upload_step_run.
    destruct (upload_photo self p w) as [[r|id] w1]; [reflexivity|].
    rewrite IH. rewrite (IH (if truthy id then _ else _)).
    destruct (for_fold ps [] (upload_step self) w1) as [[r|ids] w2]; [reflexivity|].
    destruct (truthy id); simpl; rewrite <- ?app_assoc; reflexivity.
Qed.

Lemma upload_all_cons (p : str) (ps : list str) (w : World) :
  upload_all self (p :: ps) w =
  match upload_photo self p w with
  | (inr id, w1) =>
      match upload_all self ps w1 with
      | (inr ids, w2) => (inr ((if truthy id then [id] else []) ++ ids), w2)
      | (inl r, w2) => (inl r, w2)
      end
  | (inl r, w1) => (inl r, w1)
  end.
Proof.
  unfold upload_all at 1. cbn [for_fold]. unfold mbind, M_bind, bind.
  rewrite upload_step_run.
  destruct (upload_photo self p w) as [[r|id] w1]; [reflexivity|].
  rewrite upload_loop.
  destruct (upload_all self ps w1) as [[r|ids] w2]; [reflexivity|].
  destruct (truthy id); reflexivity.
Qed.
End publisher_requests.

(** C4, where the code departs from it. The feed answers a text-only
    post with an object whose error member is a string, or with an array:
    the response has no identifier and no error object, so it is one of
    the other shapes, but [post] does not return a failure with the
    generic message: [result.get] raises [AttributeError], which nothing
    in [post] or in the publishing loop catches.  In a run with two posts
    the first such answer ends the process with status 1 before the second
    post is tried and before any summary. *)
Theorem post_malformed_response (U : Unicode) :
  (forall shape,
     shape = JObj [(py "error", JStr (py "invalid_request"))] \/ shape = JArr [] ->
     post_method U example_poster (py "Hello") None
       (answering [Responded 400 (Json shape)])
     = (inl (Exc AttributeError),
        printed (requested (answering [Responded 400 (Json shape)])
                           (feed_request example_poster (py "Hello") None))
                [PrintPostingTo (py "MyPage")]))
  /\ exit_code U malformed_run_world = 1
  /\ List.last (output U malformed_run_world) PrintNoText = PrintFatal
  /\ (forall posts pages s f,
        ~ In (PrintSummary posts pages s f) (output U malformed_run_world))
  /\ length (sent (snd (script U malformed_run_world))) = 2%nat.
Proof.
  split.
  { intros shape [-> | ->]; reflexivity. }
  assert (Hrun : script U malformed_run_world =
                 (1, snd (script U malformed_run_world))) by (vm_compute; reflexivity).
  split; [unfold exit_code; rewrite Hrun; reflexivity|].
  split; [vm_compute; reflexivity|].
  split; [|vm_compute; reflexivity].
  intros posts pages s f Hin. vm_compute in Hin.
  repeat (destruct Hin as [Hin|Hin]; [discriminate|]). exact Hin.
Qed.

(** ** Orchestrator: image paths *)

Section images.
Variable U : Unicode.

Lemma image_present_printed (w : World) (evs : list event) (img : str) :
  image_present (printed w evs) img = image_present w img.
Proof. reflexivity. Qed.

Lemma prepare_step_run (image_paths : list str) (img : str) (w : World) :
  prepare_step image_paths img w =
  if image_present w img then (inr (image_paths ++ [path_join IMAGES_DIR img]), w)
  else (inr image_paths, printed w [PrintImageNotFound img]).
Proof.
  unfold prepare_step, image_present.
  rewrite (bind_ok (path_exists _) _ w w _ eq_refl).
  destruct (bool_decide _); reflexivity.
Qed.

(** The loop keeps the files that exist, in order, and prints a warning
    for each of the others; it never fails. *)
Lemma prepare_loop (imgs : list str) (image_paths : list str) (w : World) :
  for_fold imgs image_paths prepare_step w =
  (inr (image_paths
        ++ List.map (path_join IMAGES_DIR) (List.filter (image_present w) imgs)),
   printed w (List.map PrintImageNotFound
                (List.filter (fun img => negb (image_present w img)) imgs))).
Proof.
  revert image_paths w. induction imgs as [|img imgs IH]; intros image_paths w.
  - simpl. unfold ret. rewrite app_nil_r, printed_nil. reflexivity.
  - cbn [for_fold List.filter]. unfold mbind, M_bind, bind.
    rewrite prepare_step_run.
    destruct (image_present w img) eqn:E; cbn [negb].
    + rewrite IH. cbn [List.map]. rewrite <- app_assoc. reflexivity.
    + rewrite IH. rewrite printed_app. cbn [List.map app].
      f_equal.
Qed.

Lemma prepare_image_paths_run (p : post) (w : World) :
  prepare_image_paths p w = (inr (resolved_images w p), printed w (missing_image_warnings w p)).
Proof. unfold prepare_image_paths. rewrite prepare_loop. reflexivity. Qed.

Lemma publish_to_run (message : str) (image_paths : list str) (totals : nat * nat)
    (poster : FacebookPoster) (w : World) :
  publish_to U message image_paths totals poster w =
  match post_method U poster message
          (if nonempty_list image_paths then Some image_paths else None) w with
  | (inr result, w') =>
      (inr (if success result then (S (fst totals), snd totals)
            else (fst totals, S (snd totals))), w')
  | (inl r, w') => (inl r, w')
  end.
Proof.
  unfold publish_to, mbind, M_bind, bind.
  destruct (post_method U poster message _ w) as [[r|result] w']; reflexivity.
Qed.
End images.



(** ** Orchestrator: exit status *)

Section exit_status.
Variable U : Unicode.

Lemma exit_of_sys_exit (w w' : World) (code : N) :
  before_summary U w = (inl (SystemExit code), w') -> exit_code U w = code.
Proof.
  intros H. unfold exit_code, script, main.
  erewrite bind_raise by exact H. reflexivity.
Qed.

Lemma validating_dirs_missing (w : World) :
  fs w !! POSTS_DIR = None ->
  validating_dirs w = (inl (SystemExit 1), printed w [PrintPostsDirMissing]).
Proof.
  intros H. unfold validating_dirs.
  erewrite bind_ok by (apply path_exists_none; exact H). reflexivity.
Qed.

Lemma loading_registry_empty (w w' : World) :
  load_facebook_pages CONFIG_FILE (printed w [PrintLoadingPages]) = (inr [], w') ->
  loading_registry w = (inl (SystemExit 1), printed w' [PrintNoPages]).
Proof.
  intros H. unfold loading_registry.
  erewrite bind_ok by apply print_printed.
  erewrite bind_ok by exact H. reflexivity.
Qed.

Lemma checking_connectivity_none (pages : list page) (w w' : World) :
  test_connections pages (printed w [PrintTesting]) = (inr [], w') ->
  checking_connectivity pages w = (inl (SystemExit 1), printed w' [PrintNoValidPages]).
Proof.
  intros H. unfold checking_connectivity.
  erewrite bind_ok by apply print_printed.
  erewrite bind_ok by exact H. reflexivity.
Qed.

Lemma loading_posts_no_files (w w' : World) :
  get_all_post_files POSTS_DIR (printed w [PrintLoadingPosts]) = (inr [], w') ->
  loading_posts U w = (inl (SystemExit 1), printed w' [PrintNoPostFiles]).
Proof.
  intros H. unfold loading_posts.
  erewrite bind_ok by apply print_printed.
  erewrite bind_ok by exact H. reflexivity.
Qed.

Lemma loading_posts_no_posts (files : list str) (w w1 w2 : World) :
  get_all_post_files POSTS_DIR (printed w [PrintLoadingPosts]) = (inr files, w1) ->
  files <> [] ->
  load_posts U files (printed w1 [PrintFound (length files)]) = (inr [], w2) ->
  loading_posts U w = (inl (SystemExit 1), printed w2 [PrintNoValidPosts]).
Proof.
  intros Hfiles Hne Hposts. unfold loading_posts.
  erewrite bind_ok by apply print_printed.
  erewrite bind_ok by exact Hfiles.
  destruct files as [|f fs']; [congruence|]. cbn [nonempty_list negb].
  erewrite bind_ok by reflexivity.
  erewrite bind_ok by apply print_printed.
  erewrite bind_ok by exact Hposts. reflexivity.
Qed.

Lemma summarizing_run (posts pages : nat) (totals : nat * nat) (w : World) :
  summarizing posts pages totals w =
  (if (0 <? snd totals)%nat then inl (SystemExit 1) else inr tt,
   printed w [PrintSummary posts pages (fst totals) (snd totals)]).
Proof.
  unfold summarizing. erewrite bind_ok by apply print_printed.
  destruct (0 <? snd totals)%nat; reflexivity.
Qed.
End exit_status.

(** C5. A run that reaches the summary prints it and exits with a
    non-zero status exactly when [total_failed] is positive.  A missing
    posts directory, an empty registry, no reachable target and no
    loadable post each end the run with status 1.  An interrupt by the
    user ends it with status 0. *)
Theorem exit_status (U : Unicode) (w : World) :
  (forall posts valid_pages total_success total_failed w',
     before_summary U w = (inr (posts, valid_pages, (total_success, total_failed)), w') ->
     output U w = stdout w' ++ [PrintSummary (length posts) (length valid_pages)
                                             total_success total_failed]
     /\ (exit_code U w <> 0 <-> (0 < total_failed)%nat)
     /\ exit_code U w = if (0 <? total_failed)%nat then 1 else 0)
  /\ (fs w !! POSTS_DIR = None -> exit_code U w = 1)
  /\ (forall w1 w2,
        validating_dirs w = (inr tt, w1) ->
        load_facebook_pages CONFIG_FILE (printed w1 [PrintLoadingPages]) = (inr [], w2) ->
        exit_code U w = 1)
  /\ (forall w1 pages w2 w3,
        validating_dirs w = (inr tt, w1) ->
        loading_registry w1 = (inr pages, w2) ->
        test_connections pages (printed w2 [PrintTesting]) = (inr [], w3) ->
        exit_code U w = 1)
  /\ (forall w1 pages w2 valid_pages w3 files w4,
        validating_dirs w = (inr tt, w1) ->
        loading_registry w1 = (inr pages, w2) ->
        checking_connectivity pages w2 = (inr valid_pages, w3) ->
        get_all_post_files POSTS_DIR (printed w3 [PrintLoadingPosts]) = (inr files, w4) ->
        (files = [] \/
         exists w5, load_posts U files (printed w4 [PrintFound (length files)])
                    = (inr [], w5)) ->
        exit_code U w = 1)
  /\ (forall w',
        main U w = (inl KeyboardInterrupt, w') ->
        exit_code U w = 0 /\ output U w = stdout w' ++ [PrintCancelled]).
Proof.
  split; [|split; [|split; [|split; [|split]]]].
  - intros posts valid_pages total_success total_failed w' H.
    assert (Hmain : main U w =
                    (if (0 <? total_failed)%nat then inl (SystemExit 1) else inr tt,
                     printed w' [PrintSummary (length posts) (length valid_pages)
                                              total_success total_failed])).
    { unfold main. erewrite bind_ok by exact H. apply summarizing_run. }
    unfold output, exit_code, script. rewrite Hmain.
    destruct (0 <? total_failed)%nat eqn:E.
    + apply Nat.ltb_lt in E. split; [reflexivity|]. split; [|reflexivity].
      split; [auto|discriminate].
    + apply Nat.ltb_ge in E. split; [reflexivity|]. split; [|reflexivity].
      split; [intros Hc; exfalso; apply Hc; reflexivity|lia].
  - intros H. eapply exit_of_sys_exit. unfold before_summary.
    erewrite bind_raise by (apply validating_dirs_missing; exact H). reflexivity.
  - intros w1 w2 Hdirs Hload. eapply exit_of_sys_exit. unfold before_summary.
    erewrite bind_ok by exact Hdirs.
    erewrite bind_raise by (apply loading_registry_empty; exact Hload). reflexivity.
  - intros w1 pages w2 w3 Hdirs Hreg Htest. eapply exit_of_sys_exit.
    unfold before_summary.
    erewrite bind_ok by exact Hdirs. erewrite bind_ok by exact Hreg.
    erewrite bind_raise by (apply checking_connectivity_none; exact Htest). reflexivity.
  - intros w1 pages w2 valid_pages w3 files w4 Hdirs Hreg Hconn Hfiles Hnone.
    assert (Hstage : exists w5, loading_posts U w3 = (inl (SystemExit 1), w5)).
    { destruct files as [|f fs'].
      - eexists. apply loading_posts_no_files. exact Hfiles.
      - destruct Hnone as [Hnil | [w5 Hposts]]; [discriminate|].
        eexists. eapply loading_posts_no_posts; [exact Hfiles|discriminate|exact Hposts]. }
    destruct Hstage as [w5 Hstage].
    eapply exit_of_sys_exit. unfold before_summary.
    erewrite bind_ok by exact Hdirs. erewrite bind_ok by exact Hreg.
    erewrite bind_ok by exact Hconn.
    erewrite bind_raise by exact Hstage. reflexivity.
  - intros w' H. unfold output, exit_code, script. rewrite H. split; reflexivity.
Qed.

Lemma exit_status_witness :
  (exists r w',
     before_summary ascii_only failing_world = (inr r, w')
     /\ exit_code ascii_only failing_world <> 0)
  /\ (exists r w',
        before_summary ascii_only success_world = (inr r, w')
        /\ exit_code ascii_only success_world = 0)
  /\ (fs (answering []) !! POSTS_DIR = None /\ exit_code ascii_only (answering []) = 1)
  /\ exit_code ascii_only unconfigured_world = 1
  /\ exit_code ascii_only unreachable_world = 1
  /\ exit_code ascii_only no_posts_world = 1
  /\ (exists w',
        main ascii_only interrupted_world = (inl KeyboardInterrupt, w')
        /\ exit_code ascii_only interrupted_world = 0).
Proof.
  split; [|split; [|split; [|split; [|split; [|split]]]]].
  - destruct (before_summary ascii_only failing_world)
      as [[r|[[posts valid_pages] [total_success total_failed]]] w'] eqn:E.
    { exfalso. vm_compute in E. discriminate. }
    exists (posts, valid_pages, (total_success, total_failed)), w'.
    split; [reflexivity|].
    apply (proj1 (proj2 (proj1 (exit_status ascii_only failing_world) _ _ _ _ _ E))).
    vm_compute in E. injection E as _ _ _ <- _. lia.
  - destruct (before_summary ascii_only success_world)
      as [[r|[[posts valid_pages] [total_success total_failed]]] w'] eqn:E.
    { exfalso. vm_compute in E. discriminate. }
    exists (posts, valid_pages, (total_success, total_failed)), w'.
    split; [reflexivity|].
    rewrite (proj2 (proj2 (proj1 (exit_status ascii_only success_world) _ _ _ _ _ E))).
    vm_compute in E. injection E as _ _ _ <- _. reflexivity.
  - split; [reflexivity|].
    exact (proj1 (proj2 (exit_status ascii_only (answering []))) eq_refl).
  - destruct (validating_dirs unconfigured_world) as [[r|[]] w1] eqn:Hdirs.
    { exfalso. vm_compute in Hdirs. discriminate. }
    destruct (load_facebook_pages CONFIG_FILE (printed w1 [PrintLoadingPages]))
      as [[r|pages] w2] eqn:Hload.
    { exfalso. vm_compute in Hdirs. injection Hdirs as <-. vm_compute in Hload.
      discriminate. }
    assert (pages = []) as ->.
    { vm_compute in Hdirs. injection Hdirs as <-. vm_compute in Hload.
      injection Hload as <- _. reflexivity. }
    exact (proj1 (proj2 (proj2 (exit_status ascii_only unconfigured_world)))
             w1 w2 Hdirs Hload).
  - refine (proj1 (proj2 (proj2 (proj2 (exit_status ascii_only unreachable_world))))
              (snd (validating_dirs unreachable_world))
              [mkPage (py "123") (py "tok") (py "MyPage")]
              (snd (loading_registry (snd (validating_dirs unreachable_world))))
              (snd (test_connections [mkPage (py "123") (py "tok") (py "MyPage")]
                      (printed (snd (loading_registry
                                       (snd (validating_dirs unreachable_world))))
                               [PrintTesting])))
              _ _ _); vm_compute; reflexivity.
  - refine (proj1 (proj2 (proj2 (proj2 (proj2 (exit_status ascii_only no_posts_world)))))
              (snd (validating_dirs no_posts_world))
              [mkPage (py "123") (py "tok") (py "MyPage")]
              (snd (loading_registry (snd (validating_dirs no_posts_world))))
              [example_poster]
              (snd (checking_connectivity [mkPage (py "123") (py "tok") (py "MyPage")]
                      (snd (loading_registry (snd (validating_dirs no_posts_world))))))
              []
              (printed
                 (snd (checking_connectivity [mkPage (py "123") (py "tok") (py "MyPage")]
                         (snd (loading_registry (snd (validating_dirs no_posts_world))))))
                 [PrintLoadingPosts])
              _ _ _ _ (or_introl eq_refl)); vm_compute; reflexivity.
  - destruct (main ascii_only interrupted_world) as [[[|code|e]|[]] w'] eqn:E;
      try (exfalso; vm_compute in E; discriminate).
    exists w'. split; [reflexivity|].
    exact (proj1 (proj2 (proj2 (proj2 (proj2 (proj2
             (exit_status ascii_only interrupted_world))))) w' E)).
Defined.

(** * Further properties *)

(** ** Content parser *)

Section parser_more.
Variable U : Unicode.

Lemma split_newline_app (a b : str) :
  split NEWLINE (a ++ NEWLINE :: b) = split NEWLINE a ++ split NEWLINE b.
Proof.
  rewrite split_app. rewrite (split_cons NEWLINE NEWLINE b), N.eqb_refl.
  cbn [List.hd List.tl]. rewrite app_nil_r.
  transitivity ((removelast (split NEWLINE a) ++ [List.last (split NEWLINE a) []])
                ++ split NEWLINE b).
  - rewrite <- app_assoc. reflexivity.
  - rewrite <- (app_removelast_last [] (split_nonempty NEWLINE a)). reflexivity.
Qed.

Lemma parse_images (content : str) :
  images (parse_post_content U content)
  = List.map directive_filename (List.filter (is_directive U) (split NEWLINE content)).
Proof. rewrite parse_post_content_refines. reflexivity. Qed.

Lemma strip_nil_all_space (s : str) : strip s = [] -> forallb isspace s = true.
Proof.
  unfold strip, rstrip. intros H.
  apply (f_equal (@rev N)) in H. rewrite rev_involutive in H. simpl in H.
  apply lstrip_nil_all_space in H.
  assert (Hl : forallb isspace (lstrip s) = true).
  { rewrite forallb_forall in *. intros x Hx. apply H. apply in_rev in Hx. exact Hx. }
  destruct (lstrip s) as [|c r] eqn:E.
  - apply lstrip_nil_all_space. exact E.
  - pose proof (lstrip_head s c r E) as Hc. simpl in Hl. rewrite Hc in Hl. discriminate.
Qed.

Lemma all_space_strip (s : str) : forallb isspace s = true -> strip s = [].
Proof. intros H. unfold strip. rewrite (lstrip_all_space s H). reflexivity. Qed.

Lemma join_all_space (parts : list str) :
  Forall (fun l => forallb isspace l = true) parts ->
  forallb isspace (join [NEWLINE] parts) = true.
Proof.
  induction 1 as [|p ps Hp Hps IH]; [reflexivity|].
  destruct ps as [|q qs]; [exact Hp|].
  change (join [NEWLINE] (p :: q :: qs)) with (p ++ [NEWLINE] ++ join [NEWLINE] (q :: qs)).
  rewrite !forallb_app, Hp, IH. reflexivity.
Qed.

Lemma strip_head_tail (s : str) :
  lstrip (strip s) = strip s /\ rstrip (strip s) = strip s.
Proof.
  split.
  - pose proof (strip_idem s) as H. unfold strip in *.
    destruct (lstrip s) as [|c r] eqn:E; [reflexivity|].
    pose proof (lstrip_head s c r E) as Hc.
    rewrite (rstrip_cons_nonspace c r Hc). apply (lstrip_fixed s c _ Hc).
  - unfold strip. apply rstrip_idem.
Qed.
End parser_more.

(** X1. The image list of two texts joined by a newline is the image list
    of the first followed by that of the second: directive lines are
    collected wherever they stand. *)
Theorem parse_images_concat (U : Unicode) (a b : str) :
  images (parse_post_content U (a ++ NEWLINE :: b))
  = images (parse_post_content U a) ++ images (parse_post_content U b).
Proof.
  rewrite !parse_images, split_newline_app, List.filter_app, List.map_app. reflexivity.
Qed.

(** X2. What the parser returns is trimmed: the body has no white space
    at either end, neither has any image file name, and no line of the
    body is a directive. *)
Theorem parse_output_trimmed (U : Unicode) (content : str) :
  strip (text (parse_post_content U content)) = text (parse_post_content U content)
  /\ Forall (fun img => strip img = img) (images (parse_post_content U content))
  /\ Forall (fun l => is_directive U l = false)
            (split NEWLINE (text (parse_post_content U content))).
Proof.
  split; [|split].
  - rewrite parse_post_content_refines. apply strip_idem.
  - rewrite parse_images. apply List.Forall_forall. intros img Hin.
    apply in_map_iff in Hin as [l [<- _]]. apply strip_idem.
  - apply body_lines_plain.
Qed.

Lemma parse_lines (U : Unicode) (lines : list str) :
  Forall (fun l => has NEWLINE l = false) lines ->
  images (parse_post_content U (join [NEWLINE] lines))
  = List.map directive_filename (List.filter (is_directive U) lines)
  /\ text (parse_post_content U (join [NEWLINE] lines))
     = strip (join [NEWLINE] (List.filter (fun l => negb (is_directive U l)) lines)).
Proof.
  intros Hplain. rewrite parse_post_content_refines. unfold parse_spec. cbn [images text].
  destruct lines as [|l ls]; [split; reflexivity|].
  rewrite (split_join NEWLINE (l :: ls)) by (congruence || assumption).
  split; reflexivity.
Qed.

(** X3. The parser takes a line as a directive whatever the case of the
    token and whatever white space surrounds the line.  In a content whose
    lines are [before], then a line whose trimmed form begins with six
    characters that [upper] maps to the token, then [after], the trimmed
    rest of that line is in the image list, between the images of the
    lines before and those of the lines after, and the body is that of
    the content without the line. *)
Theorem directive_any_case (U : Unicode) (before after : list str)
    (line token rest : str) :
  strip line = token ++ rest ->
  length token = 6%nat ->
  upper U token = py "IMAGE:" ->
  Forall (fun l => has NEWLINE l = false) (before ++ line :: after) ->
  images (parse_post_content U (join [NEWLINE] (before ++ line :: after)))
  = images (parse_post_content U (join [NEWLINE] before))
    ++ strip rest :: images (parse_post_content U (join [NEWLINE] after))
  /\ text (parse_post_content U (join [NEWLINE] (before ++ line :: after)))
     = text (parse_post_content U (join [NEWLINE] (before ++ after))).
Proof.
  intros Hline Hlen Hup Hplain.
  assert (Hdir : is_directive U line = true).
  { unfold is_directive. rewrite Hline. unfold upper. rewrite flat_map_app.
    fold (upper U token). rewrite Hup. reflexivity. }
  assert (Hname : directive_filename line = strip rest).
  { unfold directive_filename. rewrite Hline, <- Hlen, drop_app_length. reflexivity. }
  assert (Hb : Forall (fun l => has NEWLINE l = false) before)
    by (apply Forall_app in Hplain; tauto).
  assert (Ha : Forall (fun l => has NEWLINE l = false) after)
    by (apply Forall_app in Hplain as [_ H]; inversion H; assumption).
  assert (Hba : Forall (fun l => has NEWLINE l = false) (before ++ after))
    by (apply Forall_app; split; assumption).
  rewrite (proj1 (parse_lines U _ Hplain)), (proj2 (parse_lines U _ Hplain)).
  rewrite (proj1 (parse_lines U _ Hb)), (proj1 (parse_lines U _ Ha)).
  rewrite (proj2 (parse_lines U _ Hba)).
  rewrite !List.filter_app. cbn [List.filter]. rewrite Hdir. cbn [negb].
  rewrite List.map_app. cbn [List.map]. rewrite Hname. split; reflexivity.
Qed.

Lemma directive_any_case_witness :
  images (parse_post_content ascii_only
            (join [NEWLINE] [py "Hello"; py "  Image: photo.JPG  "; py "bye";
                             py "IMAGE:b.png"]))
  = [py "photo.JPG"; py "b.png"]
  /\ text (parse_post_content ascii_only
             (join [NEWLINE] [py "Hello"; py "  Image: photo.JPG  "; py "bye";
                              py "IMAGE:b.png"]))
     = text (parse_post_content ascii_only
               (join [NEWLINE] [py "Hello"; py "bye"; py "IMAGE:b.png"])).
Proof.
  refine (directive_any_case ascii_only [py "Hello"] [py "bye"; py "IMAGE:b.png"]
            (py "  Image: photo.JPG  ") (py "Image:") (py " photo.JPG")
            eq_refl eq_refl eq_refl _).
  repeat constructor.
Defined.

(** X4. Content made only of directive lines and blank lines has an empty
    body, which is what makes the loader reject it. *)
Theorem parse_no_text (U : Unicode) (content : str) :
  Forall (fun l => is_directive U l = true \/ strip l = []) (split NEWLINE content) ->
  text (parse_post_content U content) = [].
Proof.
  intros H. rewrite parse_post_content_refines. unfold parse_spec. cbn [text].
  apply all_space_strip. apply join_all_space.
  apply List.Forall_forall. intros l Hl. apply filter_In in Hl as [Hin Hnd].
  rewrite List.Forall_forall in H. destruct (H l Hin) as [Hd|Hs].
  - rewrite Hd in Hnd. discriminate.
  - apply strip_nil_all_space. exact Hs.
Qed.

Lemma parse_no_text_witness :
  Forall (fun l => is_directive ascii_only l = true \/ strip l = [])
         (split NEWLINE (py "IMAGE: a.jpg" ++ NEWLINE :: NEWLINE :: py "image: b.png" ++ [NEWLINE]))
  /\ text (parse_post_content ascii_only (py "IMAGE: a.jpg" ++ NEWLINE :: NEWLINE :: py "image: b.png" ++ [NEWLINE])) = [].
Proof.
  assert (H : Forall (fun l => is_directive ascii_only l = true \/ strip l = [])
                     (split NEWLINE (py "IMAGE: a.jpg" ++ NEWLINE :: NEWLINE :: py "image: b.png" ++ [NEWLINE]))).
  { repeat constructor; (left; reflexivity) || (right; reflexivity). }
  split; [exact H|]. exact (parse_no_text ascii_only _ H).
Defined.

(** ** Registry loader *)

Section registry_more.
Variable env : gmap str str.

Lemma lstrip_app_cons_nonspace (s t : str) (c : N) :
  isspace c = false -> lstrip (s ++ c :: t) = lstrip s ++ c :: t.
Proof.
  intros Hc. induction s as [|d s IH]; simpl.
  - rewrite Hc. reflexivity.
  - destruct (isspace d); [exact IH|reflexivity].
Qed.

Lemma rstrip_app_cons_nonspace (s t : str) (c : N) :
  isspace c = false -> rstrip (s ++ c :: t) = s ++ c :: rstrip t.
Proof.
  intros Hc. unfold rstrip. rewrite rev_app_distr. simpl rev.
  rewrite <- app_assoc. simpl app.
  rewrite lstrip_app_cons_nonspace by assumption.
  rewrite rev_app_distr. simpl rev. rewrite rev_involutive, <- app_assoc. reflexivity.
Qed.

Lemma has_app (c : N) (a b : str) : has c (a ++ b) = has c a || has c b.
Proof. unfold has. apply existsb_app. Qed.

Lemma has_lstrip (c : N) (s : str) : has c s = false -> has c (lstrip s) = false.
Proof.
  intros H. destruct (lstrip_decomp s) as [w [_ Hs]]. rewrite Hs, has_app in H.
  apply orb_false_iff in H. tauto.
Qed.

Lemma has_rstrip (c : N) (s : str) : has c s = false -> has c (rstrip s) = false.
Proof.
  intros H. destruct (rstrip_decomp s) as [w [_ Hs]]. rewrite Hs, has_app in H.
  apply orb_false_iff in H. tauto.
Qed.

Lemma strip_lstrip (s : str) : strip (lstrip s) = strip s.
Proof. unfold strip. rewrite lstrip_idem. reflexivity. Qed.

Lemma strip_rstrip (s : str) : strip (rstrip s) = strip s.
Proof.
  destruct (rstrip_decomp s) as [w [Hw Hs]]. rewrite Hs at 2.
  rewrite strip_app_space_r by assumption. reflexivity.
Qed.

Lemma isspace_pipe : isspace PIPE = false.
Proof. reflexivity. Qed.

(** The trimmed form of a line that holds a separator: only the first
    field loses white space on its left and the last on its right. *)
Lemma strip_fields (first rest : str) :
  strip (first ++ PIPE :: rest) = lstrip first ++ PIPE :: rstrip rest.
Proof.
  unfold strip. rewrite lstrip_app_cons_nonspace by apply isspace_pipe.
  apply rstrip_app_cons_nonspace, isspace_pipe.
Qed.

Lemma startswith_lstrip_hash (first rest : str) :
  startswith (strip first) [HASH] = false ->
  startswith (lstrip first ++ PIPE :: rest) [HASH] = false.
Proof.
  unfold strip. destruct (lstrip first) as [|c r] eqn:E; [reflexivity|].
  rewrite (rstrip_cons_nonspace c r (lstrip_head first c r E)).
  simpl. rewrite !andb_true_r. trivial.
Qed.

Lemma config_line_fields (n : N) (first second : str) (others : list str) (rest : str) :
  has PIPE first = false -> has PIPE second = false ->
  startswith (strip first) [HASH] = false ->
  split PIPE (lstrip first ++ PIPE :: rstrip rest) = lstrip first :: second :: others ->
  let token := strip second in
  let name := match others with
              | [] => py "Page_" ++ strip first
              | third :: _ => strip third
              end in
  config_line env n (first ++ PIPE :: rest) =
  if startswith token [DOLLAR] then
    if nonempty (default [] (env !! drop 1 token))
    then (Some (mkPage (strip first) (default [] (env !! drop 1 token)) name),
          [PrintLoaded name])
    else (None, [PrintEnvNotSet (drop 1 token)])
  else (Some (mkPage (strip first) token name), [PrintLoaded name]).
Proof.
  intros Hf Hs Hh Hsplit token name. unfold config_line.
  rewrite strip_fields, Hsplit.
  rewrite (startswith_lstrip_hash first (rstrip rest) Hh).
  replace (nonempty (lstrip first ++ PIPE :: rstrip rest)) with true
    by (destruct (lstrip first); reflexivity).
  cbn [negb orb].
  destruct others as [|third others]; cbn [length Nat.ltb Nat.leb nth];
    rewrite strip_lstrip; fold token; subst name; cbn beta iota;
    (destruct (startswith token [DOLLAR]); [|reflexivity]);
    destruct (nonempty (default [] (env !! drop 1 token))); reflexivity.
Qed.
End registry_more.

(** X5. A configuration line [id|token|name] gives the target made of the
    three fields with the white space around each one removed; with two
    fields only, the name is [Page_] followed by the identifier; fields
    after the third are ignored.  This holds for fields without the
    separator, an identifier that does not begin with the comment sign and
    a credential that is not a placeholder. *)
Theorem config_line_round_trip (env : gmap str str) (n : N) (id tok nm : str) :
  has PIPE id = false -> has PIPE tok = false -> has PIPE nm = false ->
  startswith (strip id) [HASH] = false ->
  startswith (strip tok) [DOLLAR] = false ->
  config_line env n (id ++ PIPE :: tok ++ PIPE :: nm)
  = (Some (mkPage (strip id) (strip tok) (strip nm)), [PrintLoaded (strip nm)])
  /\ config_line env n (id ++ PIPE :: tok)
     = (Some (mkPage (strip id) (strip tok) (py "Page_" ++ strip id)),
        [PrintLoaded (py "Page_" ++ strip id)])
  /\ forall more,
       config_line env n (id ++ PIPE :: tok ++ PIPE :: nm ++ PIPE :: more)
       = (Some (mkPage (strip id) (strip tok) (strip nm)), [PrintLoaded (strip nm)]).
Proof.
  intros Hid Htok Hnm Hhash Hdollar.
  pose proof (has_lstrip PIPE id Hid) as Hlid.
  split; [|split].
  - rewrite (config_line_fields env n id tok [rstrip nm] (tok ++ PIPE :: nm) Hid Htok Hhash).
    + cbn zeta. rewrite Hdollar, strip_rstrip. reflexivity.
    + rewrite (split_piece_sep PIPE _ _ Hlid).
      rewrite (rstrip_app_cons_nonspace tok nm PIPE isspace_pipe).
      rewrite (split_piece_sep PIPE _ _ Htok).
      rewrite (split_no_sep PIPE _ (has_rstrip PIPE nm Hnm)). reflexivity.
  - pose proof (config_line_fields env n id (rstrip tok) [] tok Hid
                  (has_rstrip PIPE tok Htok) Hhash) as H.
    cbn zeta in H. rewrite strip_rstrip, Hdollar in H. apply H.
    rewrite (split_piece_sep PIPE _ _ Hlid).
    rewrite (split_no_sep PIPE _ (has_rstrip PIPE tok Htok)). reflexivity.
  - intros more.
    rewrite (config_line_fields env n id tok (nm :: split PIPE (rstrip more))
               (tok ++ PIPE :: nm ++ PIPE :: more) Hid Htok Hhash).
    + cbn zeta. rewrite Hdollar. reflexivity.
    + rewrite (split_piece_sep PIPE _ _ Hlid).
      replace (tok ++ PIPE :: nm ++ PIPE :: more)
        with ((tok ++ PIPE :: nm) ++ PIPE :: more)
        by (rewrite <- app_assoc; reflexivity).
      rewrite (rstrip_app_cons_nonspace _ more PIPE isspace_pipe).
      rewrite <- app_assoc. cbn [app].
      rewrite (split_piece_sep PIPE _ _ Htok).
      rewrite (split_piece_sep PIPE _ _ Hnm). reflexivity.
Qed.

Lemma config_line_round_trip_witness :
  config_line ∅ 3 (py " 123 | tok-A |  My Page  ")
  = (Some (mkPage (py "123") (py "tok-A") (py "My Page")), [PrintLoaded (py "My Page")])
  /\ config_line ∅ 3 (py " 123 | tok-A ")
     = (Some (mkPage (py "123") (py "tok-A") (py "Page_123")),
        [PrintLoaded (py "Page_123")]).
Proof.
  pose proof (config_line_round_trip ∅ 3 (py " 123 ") (py " tok-A ") (py "  My Page  ")
                eq_refl eq_refl eq_refl eq_refl eq_refl) as [H3 [H2 _]].
  split; [exact H3|exact H2].
Defined.

(** X6. A blank line and a comment line are skipped without a word: the
    loader returns the targets of the other lines, in order, and prints
    what those lines print, each under its own line number, and nothing
    for the line; the targets are those of the same file without the
    line. *)
Theorem comment_line_skipped (w w0 : World) (config_file : str)
    (before after : list str) (line : str) :
  strip line = [] \/ startswith (strip line) [HASH] = true ->
  Forall (fun l => has NEWLINE l = false) (before ++ line :: after) ->
  fs w !! config_file = Some (TextFile (join [NEWLINE] (before ++ line :: after))) ->
  fs w0 !! config_file = Some (TextFile (join [NEWLINE] (before ++ after))) ->
  environ w0 = environ w ->
  load_facebook_pages config_file w
  = (inr (fst (registry_of (environ w) 1 before)
          ++ fst (registry_of (environ w) (2 + N.of_nat (length before)) after)),
     printed w (snd (registry_of (environ w) 1 before)
                ++ snd (registry_of (environ w) (2 + N.of_nat (length before)) after)))
  /\ fst (load_facebook_pages config_file w) = fst (load_facebook_pages config_file w0).
Proof.
  intros H Hplain Hfile Hfile0 Henv.
  pose proof (load_facebook_pages_around config_file before after line w Hplain Hfile)
    as Hrun.
  pose proof (load_facebook_pages_without config_file before after line w0 Hplain Hfile0)
    as Hrun0.
  rewrite Henv in Hrun0.
  assert (Hline : forall n, config_line (environ w) n line = (None, [])).
  { intros n. unfold config_line. destruct H as [-> | ->]; [reflexivity|].
    rewrite orb_true_r. reflexivity. }
  rewrite Hline in Hrun. cbn [fst snd option_list app] in Hrun.
  split; [exact Hrun|]. rewrite Hrun, Hrun0. reflexivity.
Qed.

Lemma comment_line_skipped_witness :
  load_facebook_pages CONFIG_FILE
    (config_world ∅ [py "1|a|A"; py "  # 123|abc|MyPage"; py "oops"; py "2|b|B"])
  = (inr [mkPage (py "1") (py "a") (py "A"); mkPage (py "2") (py "b") (py "B")],
     printed (config_world ∅ [py "1|a|A"; py "  # 123|abc|MyPage"; py "oops"; py "2|b|B"])
             [PrintLoaded (py "A"); PrintInvalidFormat 3 (py "oops"); PrintLoaded (py "B")]).
Proof.
  refine (proj1 (comment_line_skipped
                   (config_world ∅ [py "1|a|A"; py "  # 123|abc|MyPage"; py "oops";
                                    py "2|b|B"])
                   (config_world ∅ [py "1|a|A"; py "oops"; py "2|b|B"])
                   CONFIG_FILE [py "1|a|A"] [py "oops"; py "2|b|B"]
                   (py "  # 123|abc|MyPage")
                   (or_intror eq_refl) _ eq_refl eq_refl eq_refl)).
  repeat constructor.
Defined.

(** X7. A line that is neither blank nor a comment and holds no separator
    is reported where it stands, with its line number and its trimmed
    text, and gives no target: the loader returns the targets of the other
    lines, which are those of the same file without the line. *)
Theorem invalid_line_reported (w w0 : World) (config_file : str)
    (before after : list str) (line : str) :
  strip line <> [] -> startswith (strip line) [HASH] = false ->
  has PIPE line = false ->
  Forall (fun l => has NEWLINE l = false) (before ++ line :: after) ->
  fs w !! config_file = Some (TextFile (join [NEWLINE] (before ++ line :: after))) ->
  fs w0 !! config_file = Some (TextFile (join [NEWLINE] (before ++ after))) ->
  environ w0 = environ w ->
  load_facebook_pages config_file w
  = (inr (fst (registry_of (environ w) 1 before)
          ++ fst (registry_of (environ w) (2 + N.of_nat (length before)) after)),
     printed w (snd (registry_of (environ w) 1 before)
                ++ PrintInvalidFormat (1 + N.of_nat (length before)) (strip line)
                :: snd (registry_of (environ w) (2 + N.of_nat (length before)) after)))
  /\ fst (load_facebook_pages config_file w) = fst (load_facebook_pages config_file w0).
Proof.
  intros Hne Hhash Hpipe Hplain Hfile Hfile0 Henv.
  pose proof (load_facebook_pages_around config_file before after line w Hplain Hfile)
    as Hrun.
  pose proof (load_facebook_pages_without config_file before after line w0 Hplain Hfile0)
    as Hrun0.
  rewrite Henv in Hrun0.
  assert (Hline : forall n, config_line (environ w) n line
                            = (None, [PrintInvalidFormat n (strip line)])).
  { intros n. unfold config_line. rewrite Hhash.
    destruct (strip line) as [|c r] eqn:E; [congruence|]. cbn [nonempty negb orb].
    rewrite <- E. rewrite (split_no_sep PIPE (strip line)); [reflexivity|].
    unfold strip. apply has_rstrip, has_lstrip, Hpipe. }
  rewrite Hline in Hrun. cbn [fst snd option_list app] in Hrun.
  split; [exact Hrun|]. rewrite Hrun, Hrun0. reflexivity.
Qed.

Lemma invalid_line_reported_witness :
  load_facebook_pages CONFIG_FILE
    (config_world ∅ [py "1|a|A"; py ""; py " 123 abc "; py "2|b|B"])
  = (inr [mkPage (py "1") (py "a") (py "A"); mkPage (py "2") (py "b") (py "B")],
     printed (config_world ∅ [py "1|a|A"; py ""; py " 123 abc "; py "2|b|B"])
             [PrintLoaded (py "A"); PrintInvalidFormat 3 (py "123 abc");
              PrintLoaded (py "B")]).
Proof.
  refine (proj1 (invalid_line_reported
                   (config_world ∅ [py "1|a|A"; py ""; py " 123 abc "; py "2|b|B"])
                   (config_world ∅ [py "1|a|A"; py ""; py "2|b|B"])
                   CONFIG_FILE [py "1|a|A"; py ""] [py "2|b|B"] (py " 123 abc ")
                   _ eq_refl eq_refl _ eq_refl eq_refl eq_refl)).
  - discriminate.
  - repeat constructor.
Defined.

(** X8. Without a configuration file the loader returns no target,
    prints that the file was not found, and touches nothing else; a file
    that is there is read without any exception and only adds lines to the
    output. *)
Theorem load_facebook_pages_total (config_file : str) (w : World) :
  (fs w !! config_file = None ->
   load_facebook_pages config_file w
   = (inr [], printed w [PrintConfigNotFound config_file]))
  /\ (forall content, fs w !! config_file = Some (TextFile content) ->
      exists pages evs,
        load_facebook_pages config_file w = (inr pages, printed w evs)
        /\ (length pages <= length (readlines content))%nat
        /\ List.map (fun p => PrintLoaded (name p)) pages
           = List.filter (fun e => match e with PrintLoaded _ => true | _ => false end) evs).
Proof.
  split.
  - intros H. unfold load_facebook_pages.
    erewrite bind_ok by (apply path_exists_none; exact H). reflexivity.
  - intros content H. rewrite (load_facebook_pages_text _ _ _ H).
    eexists _, _. split; [reflexivity|].
    generalize (readlines content) (1 : N). intros lines.
    induction lines as [|l ls IH]; intros start; [split; [simpl; lia|reflexivity]|].
    destruct (IH (N.succ start)) as [IHl IHe]. cbn [registry_of fst snd].
    rewrite length_app, List.map_app, List.filter_app, IHe.
    assert (Hl : (length (option_list (fst (config_line (environ w) start l))) <= 1)%nat
                 /\ List.map (fun p => PrintLoaded (name p))
                      (option_list (fst (config_line (environ w) start l)))
                    = List.filter (fun e => match e with PrintLoaded _ => true | _ => false end)
                        (snd (config_line (environ w) start l))).
    { unfold config_line.
      repeat match goal with
             | |- context [if ?b then _ else _] => destruct b
             end; split; simpl; try lia; reflexivity. }
    destruct Hl as [Hl1 Hl2]. rewrite Hl2. split; [simpl; lia|reflexivity].
Qed.

Lemma load_facebook_pages_total_witness :
  load_facebook_pages CONFIG_FILE (mkWorld ∅ ∅ false [] [] [])
  = (inr [], printed (mkWorld ∅ ∅ false [] [] []) [PrintConfigNotFound CONFIG_FILE]).
Proof.
  exact (proj1 (load_facebook_pages_total CONFIG_FILE (mkWorld ∅ ∅ false [] [] [])) eq_refl).
Defined.

(** ** Post loader *)

Section loader_more.
Variable U : Unicode.

Lemma read_text_file_run (filepath : str) (w : World) :
  read_text_file filepath w =
  match fs w !! filepath with
  | Some (TextFile content) => (inr (Some content), w)
  | _ => (inr None, printed w [PrintReadError filepath])
  end.
Proof.
  unfold read_text_file, try_except, mbind, M_bind, bind, read_text.
  destruct (fs w !! filepath) as [[| | |]|]; reflexivity.
Qed.

Lemma read_docx_file_run (filepath : str) (w : World) :
  read_docx_file filepath w =
  if docx_support w then
    match fs w !! filepath with
    | Some (DocxFile paragraphs) =>
        (inr (Some (join [NEWLINE]
                      (List.filter (fun p => nonempty (strip p)) paragraphs))), w)
    | _ => (inr None, printed w [PrintReadError filepath])
    end
  else (inr None, w).
Proof.
  unfold read_docx_file. rewrite (bind_ok get_world _ w w w eq_refl).
  destruct (docx_support w); [|reflexivity]. cbn [negb].
  unfold try_except, mbind, M_bind, bind, read_document.
  destruct (fs w !! filepath) as [[| | |]|]; reflexivity.
Qed.

(** What the loader does with the content it has read. *)
Lemma load_content_run (name content : str) (w : World) :
  exists evs,
    (let parsed := parse_post_content U content in
     if negb (nonempty (text parsed)) then
       print PrintNoText;; mret None
     else
       print (PrintTextChars (length (text parsed)));;
       (if nonempty_list (images parsed) then
          print (PrintImages (length (images parsed)));;
          for_each (images parsed) (fun img => print (PrintImageItem img))
        else mret tt);;
       mret (Some (mkPost name (text parsed) (images parsed)))) w
    = (inr (if nonempty (text (parse_post_content U content))
            then Some (mkPost name (text (parse_post_content U content))
                         (images (parse_post_content U content)))
            else None),
       printed w evs).
Proof.
  cbn zeta. destruct (nonempty (text (parse_post_content U content))); cbn [negb].
  - erewrite bind_ok by apply print_printed.
    destruct (nonempty_list (images (parse_post_content U content))).
    + assert (Himgs : forall imgs w0,
                for_each imgs (fun img => print (PrintImageItem img)) w0
                = (inr tt, printed w0 (List.map PrintImageItem imgs))).
      { induction imgs as [|i imgs IH]; intros w0.
        - simpl. rewrite printed_nil. reflexivity.
        - simpl. erewrite bind_ok by apply print_printed.
          rewrite IH, printed_app. reflexivity. }
      erewrite bind_ok.
      2:{ erewrite bind_ok by apply print_printed. apply Himgs. }
      rewrite !printed_app. eexists. reflexivity.
    + erewrite bind_ok by reflexivity. eexists. reflexivity.
  - erewrite bind_ok by apply print_printed. eexists. reflexivity.
Qed.

Lemma load_post_from_file_content (filepath : str) (w : World) :
  exists evs,
    load_post_from_file U filepath w
    = (inr (let ext := lower U (splitext_ext filepath) in
            let content :=
              if str_eqb ext (py ".txt") then
                match fs w !! filepath with Some (TextFile c) => c | _ => [] end
              else if str_eqb ext (py ".docx") && docx_support w then
                match fs w !! filepath with
                | Some (DocxFile ps) =>
                    join [NEWLINE] (List.filter (fun p => nonempty (strip p)) ps)
                | _ => []
                end
              else [] in
            if nonempty (text (parse_post_content U content))
            then Some (mkPost (basename filepath) (text (parse_post_content U content))
                         (images (parse_post_content U content)))
            else None),
       printed w (PrintReading (basename filepath) :: evs)).
Proof.
  unfold load_post_from_file. cbn zeta.
  erewrite bind_ok by apply print_printed.
  set (w1 := printed w [PrintReading (basename filepath)]).
  enough (H : exists evs,
             (if str_eqb (lower U (splitext_ext filepath)) (py ".txt")
                 || str_eqb (lower U (splitext_ext filepath)) (py ".docx")
              then
                content ← (if str_eqb (lower U (splitext_ext filepath)) (py ".txt")
                           then read_text_file filepath else read_docx_file filepath);
                match content with
                | None | Some [] => mret None
                | Some content =>
                    let parsed := parse_post_content U content in
                    if negb (nonempty (text parsed)) then
                      print PrintNoText;; mret None
                    else
                      print (PrintTextChars (length (text parsed)));;
                      (if nonempty_list (images parsed) then
                         print (PrintImages (length (images parsed)));;
                         for_each (images parsed) (fun img => print (PrintImageItem img))
                       else mret tt);;
                      mret (Some (mkPost (basename filepath) (text parsed) (images parsed)))
                end
              else print (PrintUnsupported (lower U (splitext_ext filepath)));; mret None) w1
             = (inr (let ext := lower U (splitext_ext filepath) in
                     let content :=
                       if str_eqb ext (py ".txt") then
                         match fs w1 !! filepath with Some (TextFile c) => c | _ => [] end
                       else if str_eqb ext (py ".docx") && docx_support w1 then
                         match fs w1 !! filepath with
                         | Some (DocxFile ps) =>
                             join [NEWLINE] (List.filter (fun p => nonempty (strip p)) ps)
                         | _ => []
                         end
                       else [] in
                     if nonempty (text (parse_post_content U content))
                     then Some (mkPost (basename filepath)
                                  (text (parse_post_content U content))
                                  (images (parse_post_content U content)))
                     else None),
                printed w1 evs)).
  { destruct H as [evs H]. exists evs.
    change (PrintReading (basename filepath) :: evs)
      with ([PrintReading (basename filepath)] ++ evs).
    rewrite <- printed_app. exact H. }
  clearbody w1. cbn zeta.
  destruct (str_eqb (lower U (splitext_ext filepath)) (py ".txt")) eqn:Etxt; cbn [orb andb].
  - unfold mbind at 1. unfold M_bind, bind. rewrite read_text_file_run.
    destruct (fs w1 !! filepath) as [[|content| |]|];
      try solve [eexists; reflexivity].
    destruct content as [|c content]; [exists []; rewrite printed_nil; reflexivity|].
    apply (load_content_run (basename filepath) (c :: content) w1).
  - destruct (str_eqb (lower U (splitext_ext filepath)) (py ".docx")) eqn:Edocx; cbn [andb].
    + unfold mbind at 1. unfold M_bind, bind. rewrite read_docx_file_run.
      destruct (docx_support w1); [|exists []; rewrite printed_nil; reflexivity].
      destruct (fs w1 !! filepath) as [[| |paragraphs|]|];
        try solve [eexists; reflexivity].
      destruct (join [NEWLINE] (List.filter (fun p => nonempty (strip p)) paragraphs))
        as [|c content] eqn:E; [exists []; rewrite printed_nil; reflexivity|].
      apply (load_content_run (basename filepath) (c :: content) w1).
    + eexists. erewrite bind_ok by apply print_printed. reflexivity.
Qed.
Lemma parse_trimmed (content : str) :
  strip (text (parse_post_content U content)) = text (parse_post_content U content)
  /\ Forall (fun img => strip img = img) (images (parse_post_content U content)).
Proof.
  rewrite parse_post_content_refines. split; [apply strip_idem|].
  apply List.Forall_forall. intros img Hin. cbn [images parse_spec] in Hin.
  apply in_map_iff in Hin as [l [<- _]]. apply strip_idem.
Qed.





End loader_more.

(** X9. Loading a post never raises and changes nothing but the output,
    which begins with the line that names the file.  A post that is
    returned carries the base name of the path, a body that is not empty
    and has no white space at either end, and trimmed image names. *)
Theorem load_post_from_file_safe (U : Unicode) (filepath : str) (w : World) :
  exists r evs,
    load_post_from_file U filepath w
    = (inr r, printed w (PrintReading (basename filepath) :: evs))
    /\ match r with
       | Some p =>
           filename p = basename filepath
           /\ post_text p <> []
           /\ strip (post_text p) = post_text p
           /\ Forall (fun img => strip img = img) (post_images p)
       | None => True
       end.
Proof.
  destruct (load_post_from_file_content U filepath w) as [evs H].
  eexists _, evs. split; [exact H|]. cbn zeta.
  match goal with
  | |- context [parse_post_content U ?c] =>
      destruct (parse_trimmed U c) as [Ht Hi];
      destruct (text (parse_post_content U c)) as [|ch t] eqn:E; [exact I|]
  end.
  cbn [nonempty filename post_text post_images].
  repeat split; [discriminate|exact Ht|exact Hi].
Qed.

(** X10. What each kind of file gives.  A text file gives the post parsed
    from its content when the body is not empty and nothing otherwise; a
    document gives the post parsed from its non-blank paragraphs joined by
    newlines, and nothing at all when documents are not supported; a path
    that is not there gives nothing; any other extension is reported as
    unsupported and the file is not read. *)
Theorem load_post_from_file_by_type (U : Unicode) (filepath : str) (w : World) :
  let loaded content :=
    if nonempty (text (parse_post_content U content))
    then Some (mkPost (basename filepath) (text (parse_post_content U content))
                 (images (parse_post_content U content)))
    else None in
  (forall content,
     lower U (splitext_ext filepath) = py ".txt" ->
     fs w !! filepath = Some (TextFile content) ->
     fst (load_post_from_file U filepath w) = inr (loaded content))
  /\ (forall paragraphs,
        lower U (splitext_ext filepath) = py ".docx" ->
        fs w !! filepath = Some (DocxFile paragraphs) ->
        fst (load_post_from_file U filepath w)
        = inr (if docx_support w
               then loaded (join [NEWLINE]
                              (List.filter (fun p => nonempty (strip p)) paragraphs))
               else None))
  /\ (fs w !! filepath = None -> fst (load_post_from_file U filepath w) = inr None)
  /\ (lower U (splitext_ext filepath) <> py ".txt" ->
      lower U (splitext_ext filepath) <> py ".docx" ->
      load_post_from_file U filepath w
      = (inr None, printed w [PrintReading (basename filepath);
                              PrintUnsupported (lower U (splitext_ext filepath))])).
Proof.
  intros loaded.
  destruct (load_post_from_file_content U filepath w) as [evs H].
  cbn zeta in H. unfold str_eqb in H.
  split; [|split; [|split]].
  - intros content Hext Hfs. rewrite H, Hext, Hfs. reflexivity.
  - intros paragraphs Hext Hfs. rewrite H, Hext, Hfs.
    rewrite bool_decide_false by discriminate.
    rewrite bool_decide_true by reflexivity.
    destruct (docx_support w); reflexivity.
  - intros Hfs. rewrite H, Hfs.
    destruct (bool_decide _); [reflexivity|].
    destruct (bool_decide _ && docx_support w); reflexivity.
  - intros Htxt Hdocx. unfold load_post_from_file. cbn zeta.
    erewrite bind_ok by apply print_printed. unfold str_eqb.
    rewrite !bool_decide_false by assumption. cbn [orb].
    erewrite bind_ok by apply print_printed. rewrite printed_app. reflexivity.
Qed.

Lemma load_post_from_file_by_type_witness :
  fst (load_post_from_file ascii_only (py "posts/a.TXT")
         (mkWorld (<[py "posts/a.TXT" := TextFile (py "IMAGE: x.png" ++ NEWLINE :: py "Hello")]>
            (<[py "posts" := Dir [py "a.TXT"]]> ∅))
                  ∅ false [] [] []))
  = inr (Some (mkPost (py "a.TXT") (py "Hello") [py "x.png"])).
Proof.
  exact (proj1 (load_post_from_file_by_type ascii_only (py "posts/a.TXT")
                  (mkWorld (<[py "posts/a.TXT" := TextFile (py "IMAGE: x.png" ++ NEWLINE :: py "Hello")]>
            (<[py "posts" := Dir [py "a.TXT"]]> ∅))
                           ∅ false [] [] []))
               (py "IMAGE: x.png" ++ NEWLINE :: py "Hello") eq_refl eq_refl).
Defined.



(** ** Publisher, further *)

Section publisher_more.
Variable U : Unicode.
Variable self : FacebookPoster.

(** The request of [test_connection]. *)
Lemma test_connection_cases (w : World) :
  let req := GetPage (GRAPH_API_BASE ++ [SLASH] ++ self_page_id self)
                     (py "name,fan_count") (self_token self) in
  match network w with
  | Responded status_code (Json (JObj members)) :: _ =>
      if status_code =? 200 then
        match format_thousands (default (JInt 0) (dict_lookup (py "fan_count") members)) with
        | inr shown =>
            test_connection self w
            = (inr true,
               printed (requested w req)
                 [PrintConnected (default (JStr (py "Unknown"))
                                    (dict_lookup (py "name") members)) shown])
        | inl _ =>
            test_connection self w
            = (inr false, printed (requested w req) [PrintConnectionError])
        end
      else
        exists e, test_connection self w = (inr false, printed (requested w req) [e])
  | Interrupted :: _ =>
      test_connection self w = (inl KeyboardInterrupt, requested w req)
  | _ => test_connection self w
         = (inr false, printed (requested w req) [PrintConnectionError])
  end.
Proof.
  cbn zeta.
  unfold test_connection, try_except, mbind, M_bind, bind, http, requested.
  destruct (network w) as [|[status_code [v|err]|msg|] rest]; try reflexivity.
  - cbn [fst snd]. destruct (status_code =? 200) eqn:Hc.
    + destruct v as [| | | | |members]; try reflexivity.
      cbn [response_json ret liftE py_get].
      destruct (dict_lookup (py "name") members) as [nm|];
        destruct (dict_lookup (py "fan_count") members) as [fans|]; cbn [default liftE ret];
        unfold default; cbn [from_option id liftE ret format_thousands];
        try destruct (format_thousands fans); cbn [format_thousands liftE ret];
        cbv beta iota; reflexivity.
    + destruct v as [| | | | |members]; try reflexivity.
      cbn [response_json ret liftE py_get].
      destruct (dict_lookup (py "error") members) as [[| | | | |error]|];
        try (eexists; reflexivity).
      cbn [liftE ret py_get].
      destruct (dict_lookup (py "message") error); eexists; reflexivity.
  - cbn [fst snd]. destruct (status_code =? 200); reflexivity.
Qed.
End publisher_more.

(** X12. A connection test answers true exactly when the response has
    status 200 and its body is a JSON object whose follower count, when
    there is one, is a number.  When the user interrupts the request the
    interrupt leaves the method.  In every other case, a 200 answer whose
    count cannot be formatted among them, the method returns false and
    nothing is raised. *)
Theorem test_connection_true_iff (self : FacebookPoster) (w : World) :
  let answered :=
    exists members rest,
      network w = Responded 200 (Json (JObj members)) :: rest
      /\ exists shown,
           format_thousands (default (JInt 0) (dict_lookup (py "fan_count") members))
           = inr shown in
  let interrupted := exists rest, network w = Interrupted :: rest in
  (fst (test_connection self w) = inr true <-> answered)
  /\ (interrupted -> fst (test_connection self w) = inl KeyboardInterrupt)
  /\ (~ answered -> ~ interrupted -> fst (test_connection self w) = inr false).
Proof.
  intros answered interrupted.
  pose proof (test_connection_cases self w) as H. cbn zeta in H.
  assert (Hcases : (answered /\ fst (test_connection self w) = inr true)
                   \/ (interrupted /\ fst (test_connection self w) = inl KeyboardInterrupt)
                   \/ (~ answered /\ ~ interrupted
                       /\ fst (test_connection self w) = inr false)).
  { unfold answered, interrupted.
    destruct (network w) as [|[status_code [v|err]|msg|] rest] eqn:Hnet.
    - right; right. rewrite H.
      split; [intros [m [r [E _]]]; discriminate|].
      split; [intros [r E]; discriminate|reflexivity].
    - destruct v as [| | | | |members];
        try (right; right; rewrite H;
             split; [intros [m [r [E _]]]; discriminate|];
             split; [intros [r E]; discriminate|reflexivity]).
      destruct (N.eqb_spec status_code 200) as [->|Hne].
      + destruct (format_thousands (default (JInt 0) (dict_lookup (py "fan_count") members)))
          as [e|shown] eqn:Hf.
        * right; right. rewrite H.
          split; [intros [m [r [E [z Hz]]]]; injection E as <- _; congruence|].
          split; [intros [r E]; discriminate|reflexivity].
        * left. rewrite H. split; [|reflexivity].
          exists members, rest. split; [reflexivity|]. exists shown. exact Hf.
      + right; right. destruct H as [e H]. rewrite H.
        split; [intros [m [r [E _]]]; injection E as E _; congruence|].
        split; [intros [r E]; discriminate|reflexivity].
    - right; right. rewrite H.
      split; [intros [m [r [E _]]]; discriminate|].
      split; [intros [r E]; discriminate|reflexivity].
    - right; right. rewrite H.
      split; [intros [m [r [E _]]]; discriminate|].
      split; [intros [r E]; discriminate|reflexivity].
    - right; left. rewrite H. split; [|reflexivity]. exists rest. reflexivity. }
  split; [|split].
  - split.
    + intros Ht. destruct Hcases as [[Ha _]|[[_ Hr]|[_ [_ Hr]]]];
        [exact Ha|rewrite Hr in Ht; discriminate|rewrite Hr in Ht; discriminate].
    + intros Ha. destruct Hcases as [[_ Hr]|[[[r E] _]|[Hn _]]]; [exact Hr| |contradiction].
      destruct Ha as [m [r' [E' _]]]. rewrite E in E'. discriminate.
  - intros Hi. destruct Hcases as [[[m [r [E _]]] _]|[[_ Hr]|[_ [Hn _]]]];
      [|exact Hr|contradiction].
    destruct Hi as [r' E']. rewrite E in E'. discriminate.
  - intros Hna Hni. destruct Hcases as [[Ha _]|[[Hi _]|[_ [_ Hr]]]];
      [contradiction|contradiction|exact Hr].
Qed.

(** X13. A connection test sends exactly one request, the query for the
    name and the follower count of the page with the credential, and
    prints exactly one line, unless the user interrupts the call; no
    exception leaves it. *)
Theorem test_connection_effects (self : FacebookPoster) (w : World) :
  let req := GetPage (GRAPH_API_BASE ++ [SLASH] ++ self_page_id self)
                     (py "name,fan_count") (self_token self) in
  (exists ok e, test_connection self w = (inr ok, printed (requested w req) [e]))
  \/ (test_connection self w = (inl KeyboardInterrupt, requested w req)
      /\ exists rest, network w = Interrupted :: rest).
Proof.
  pose proof (test_connection_cases self w) as H. cbn zeta in *.
  destruct (network w) as [|[status_code [v|err]|msg|] rest];
    try (left; eexists _, _; exact H).
  - destruct v as [| | | | |members]; try (left; eexists _, _; exact H).
    destruct (status_code =? 200).
    + destruct (format_thousands _); left; eexists _, _; exact H.
    + destruct H as [e H]. left. eexists _, _. exact H.
  - right. split; [exact H|]. exists rest. reflexivity.
Qed.

Section uploads.
Variable U : Unicode.
Variable self : FacebookPoster.

(** The request of [upload_photo]. *)
Lemma upload_photo_cases (image_path : str) (w : World) :
  let req := PostPhoto (GRAPH_API_BASE ++ [SLASH] ++ self_page_id self ++ py "/photos")
                       image_path (self_token self) (py "false") in
  match fs w !! image_path with
  | None => upload_photo self image_path w
            = (inr JNull, printed w [PrintUploadNotFound image_path])
  | Some (Dir _) => upload_photo self image_path w
                    = (inr JNull, printed w [PrintUploadError])
  | Some _ =>
      match network w with
      | Responded _ (Json (JObj members)) :: _ =>
          match dict_lookup (py "id") members with
          | Some id =>
              upload_photo self image_path w
              = (inr id, printed (requested w req) [PrintUploaded (basename image_path) id])
          | None =>
              exists e, upload_photo self image_path w
                        = (inr JNull, printed (requested w req) [e])
          end
      | Interrupted :: _ =>
          upload_photo self image_path w = (inl KeyboardInterrupt, requested w req)
      | _ => upload_photo self image_path w
             = (inr JNull, printed (requested w req) [PrintUploadError])
      end
  end.
Proof.
  cbn zeta. unfold upload_photo.
  rewrite (bind_ok (path_exists image_path) _ w w _ eq_refl).
  destruct (fs w !! image_path) as [n|] eqn:Hfs.
  2:{ rewrite bool_decide_false by (intros [x Hx]; discriminate). reflexivity. }
  rewrite bool_decide_true by eauto. cbn [negb].
  unfold try_except, mbind, M_bind, bind, open_binary, http, requested. rewrite Hfs.
  destruct n as [entries|content|paragraphs|]; [reflexivity| | |];
    (destruct (network w) as [|[status_code [v|err]|msg|] rest]; try reflexivity;
     cbn [fst snd response_json ret];
     destruct v as [| | |s|items|members]; try reflexivity;
     cbn [liftE py_in ret raise];
     [ destruct (substring_of (py "id") s); reflexivity
     | destruct (existsb _ items); reflexivity
     | destruct (dict_lookup (py "id") members) as [id|] eqn:Hid;
       [ rewrite bool_decide_true by eauto; cbn [liftE py_getitem ret]; rewrite Hid;
         reflexivity
       | rewrite bool_decide_false by (intros [x Hx]; discriminate);
         cbn [liftE py_get ret];
         destruct (dict_lookup (py "error") members) as [[| | | | |error]|];
         try (eexists; reflexivity);
         cbn [liftE py_get ret];
         destruct (dict_lookup (py "message") error); eexists; reflexivity ] ]).
Qed.
Lemma upload_photo_frame (image_path : str) (w : World) :
  fs (snd (upload_photo self image_path w)) = fs w
  /\ exists reqs, sent (snd (upload_photo self image_path w)) = sent w ++ reqs
                  /\ (length reqs <= 1)%nat.
Proof.
  pose proof (upload_photo_cases image_path w) as H. cbn zeta in H.
  assert (Hsame : forall r evs, upload_photo self image_path w = (r, printed w evs) ->
            fs (snd (upload_photo self image_path w)) = fs w
            /\ exists reqs, sent (snd (upload_photo self image_path w)) = sent w ++ reqs
                            /\ (length reqs <= 1)%nat).
  { intros r evs ->. split; [reflexivity|]. exists []. rewrite app_nil_r.
    split; [reflexivity|simpl; lia]. }
  assert (Hreq : forall r req evs,
            upload_photo self image_path w = (r, printed (requested w req) evs) ->
            fs (snd (upload_photo self image_path w)) = fs w
            /\ exists reqs, sent (snd (upload_photo self image_path w)) = sent w ++ reqs
                            /\ (length reqs <= 1)%nat).
  { intros r req evs ->. split; [reflexivity|]. exists [req].
    split; [reflexivity|simpl; lia]. }
  assert (Hreq0 : forall r req,
            upload_photo self image_path w = (r, requested w req) ->
            fs (snd (upload_photo self image_path w)) = fs w
            /\ exists reqs, sent (snd (upload_photo self image_path w)) = sent w ++ reqs
                            /\ (length reqs <= 1)%nat).
  { intros r req ->. split; [reflexivity|]. exists [req].
    split; [reflexivity|simpl; lia]. }
  destruct (fs w !! image_path) as [[entries|content|paragraphs|]|];
    try (eapply Hsame; exact H);
    (destruct (network w) as [|[status_code [v|err]|msg|] rest];
     try (eapply Hreq; exact H); try (eapply Hreq0; exact H);
     destruct v as [| | | | |members]; try (eapply Hreq; exact H);
     destruct (dict_lookup (py "id") members);
     [eapply Hreq; exact H | destruct H as [e H]; eapply Hreq; exact H]).
Qed.

Lemma upload_photo_id (image_path : str) (w w' : World) (id : json) :
  upload_photo self image_path w = (inr id, w') -> id <> JNull ->
  exists status_code members rest,
    is_Some (fs w !! image_path)
    /\ network w = Responded status_code (Json (JObj members)) :: rest
    /\ dict_lookup (py "id") members = Some id.
Proof.
  intros Hrun Hid. pose proof (upload_photo_cases image_path w) as H. cbn zeta in H.
  assert (Hnull : forall w0, upload_photo self image_path w = (inr JNull, w0) -> False).
  { intros w0 H0. rewrite H0 in Hrun. injection Hrun as <- _. congruence. }
  destruct (fs w !! image_path) as [n|] eqn:Hfs; [|exfalso; eapply Hnull; exact H].
  assert (Hsome : is_Some (Some n)) by eauto.
  destruct n as [entries|content|paragraphs|]; [exfalso; eapply Hnull; exact H| | |];
    (destruct (network w) as [|[status_code [v|err]|msg|] rest];
     try (exfalso; eapply Hnull; exact H);
     try (rewrite H in Hrun; discriminate);
     destruct v as [| | | | |members]; try (exfalso; eapply Hnull; exact H);
     destruct (dict_lookup (py "id") members) as [id'|] eqn:Hl;
     [ rewrite H in Hrun; injection Hrun as <- _; eexists _, _, _; eauto
     | destruct H as [e H]; exfalso; eapply Hnull; exact H ]).
Qed.

Lemma upload_all_ids (image_paths : list str) (w w' : World) (ids : list json) :
  upload_all self image_paths w = (inr ids, w') ->
  Forall (fun id => truthy id = true) ids
  /\ (length ids <= length image_paths)%nat
  /\ fs w' = fs w
  /\ exists reqs, sent w' = sent w ++ reqs /\ (length reqs <= length image_paths)%nat.
Proof.
  revert w w' ids. induction image_paths as [|p ps IH]; intros w w' ids H.
  - injection H as <- <-. repeat split; [constructor|simpl; lia|].
    exists []. rewrite app_nil_r. split; [reflexivity|simpl; lia].
  - rewrite upload_all_cons in H.
    destruct (upload_photo_frame p w) as [Hfs [reqs [Hsent Hlen]]].
    destruct (upload_photo self p w) as [[r|id] w1]; [discriminate|]. cbn [snd] in *.
    destruct (upload_all self ps w1) as [[r|ids'] w2] eqn:E; [discriminate|].
    injection H as <- <-.
    destruct (IH _ _ _ E) as [Hall [Hl [Hfs' [reqs' [Hsent' Hlen']]]]].
    split; [|split; [|split]].
    + destruct (truthy id) eqn:Ht; [constructor; assumption|exact Hall].
    + rewrite length_app. destruct (truthy id); simpl; lia.
    + congruence.
    + exists (reqs ++ reqs'). rewrite Hsent', Hsent, app_assoc, length_app.
      split; [reflexivity|simpl; lia].
Qed.

Lemma post_with_photos_sent (message : str) (photo_ids : list json) (w : World) :
  sent (snd (post_with_photos U self message photo_ids w))
  = sent w ++ [feed_request self message (Some (attached_media_field U photo_ids))].
Proof.
  unfold post_with_photos, try_except, mbind, M_bind, bind, http, response_json,
    mret, M_ret, ret, raise.
  destruct (network w) as [|[status_code [v|err]|msg|] rest]; reflexivity.
Qed.

Lemma feed_then_check_sent (m : M json) (w : World) :
  sent (snd ((m ≫= check_result U) w)) = sent (snd (m w)).
Proof.
  unfold mbind, M_bind, bind. destruct (m w) as [[r|result] w1]; [reflexivity|].
  apply check_result_sent.
Qed.
End uploads.

(** X14. Uploading a file that is not on disk sends nothing: the method
    reports the missing file and returns no identifier.  An identifier is
    returned only when the file is there and the response body is a JSON
    object with an [id] member, whose value it is, whatever the status of
    the response.  One call sends one request at most. *)
Theorem upload_photo_effects (self : FacebookPoster) (image_path : str) (w : World) :
  (fs w !! image_path = None ->
   upload_photo self image_path w
   = (inr JNull, printed w [PrintUploadNotFound image_path]))
  /\ (forall id w',
        upload_photo self image_path w = (inr id, w') -> id <> JNull ->
        exists status_code members rest,
          is_Some (fs w !! image_path)
          /\ network w = Responded status_code (Json (JObj members)) :: rest
          /\ dict_lookup (py "id") members = Some id)
  /\ exists reqs, sent (snd (upload_photo self image_path w)) = sent w ++ reqs
                  /\ (length reqs <= 1)%nat.
Proof.
  split; [|split].
  - intros Hfs. pose proof (upload_photo_cases self image_path w) as H.
    cbn zeta in H. rewrite Hfs in H. exact H.
  - intros id w'. apply upload_photo_id.
  - apply upload_photo_frame.
Qed.

Lemma upload_photo_effects_witness :
  upload_photo example_poster (py "images/x.png") (answering [PUBLISHED])
  = (inr JNull, printed (answering [PUBLISHED]) [PrintUploadNotFound (py "images/x.png")]).
Proof.
  exact (proj1 (upload_photo_effects example_poster (py "images/x.png")
                  (answering [PUBLISHED])) eq_refl).
Defined.

(** X15. The identifiers that the upload loop of [post] hands on are all
    truthy, so no null, empty or zero identifier reaches the feed request;
    there are no more of them than image paths, the loop sends no more
    requests than there are paths, and it leaves the files as they are. *)
Theorem upload_all_truthy (self : FacebookPoster) (image_paths : list str)
    (w w' : World) (ids : list json) :
  upload_all self image_paths w = (inr ids, w') ->
  Forall (fun id => truthy id = true) ids
  /\ (length ids <= length image_paths)%nat
  /\ fs w' = fs w
  /\ exists reqs, sent w' = sent w ++ reqs /\ (length reqs <= length image_paths)%nat.
Proof. apply upload_all_ids. Qed.

Lemma upload_all_truthy_witness :
  Forall (fun id => truthy id = true) [JStr (py "77")].
Proof.
  refine (proj1 (upload_all_truthy example_poster [py "images/x.png"; py "images/y.png"]
                   (mkWorld (<[py "images/x.png" := BinaryFile]> (<[py "images" := Dir [py "x.png"]]> ∅)) ∅ true
                      [Responded 200 (Json (JObj [(py "id", JStr (py "77"))]))] [] [])
                   (snd (upload_all example_poster [py "images/x.png"; py "images/y.png"]
                           (mkWorld (<[py "images/x.png" := BinaryFile]> (<[py "images" := Dir [py "x.png"]]> ∅)) ∅ true
                              [Responded 200 (Json (JObj [(py "id", JStr (py "77"))]))]
                              [] [])))
                   [JStr (py "77")] _)).
  vm_compute. reflexivity.
Defined.

Section post_more.
Variable U : Unicode.
Variable self : FacebookPoster.

Lemma post_text_only_not_json (message : str) (w : World) status_code err rest :
  network w = Responded status_code (NotJson err) :: rest ->
  post_text_only self message w =
  (inr (error_result (ValueError err)), requested w (feed_request self message None)).
Proof.
  intros H. unfold post_text_only, try_except.
  erewrite bind_ok by (eapply http_responded; eassumption). reflexivity.
Qed.

Lemma check_result_error (e : exception) (w : World) :
  check_result U (error_result e) w
  = (inr (Failure (JStr (exception_str e))),
     printed w [PrintPostFailed (JStr (exception_str e))]).
Proof. reflexivity. Qed.

Lemma post_method_error (message : str) (w : World) (e : exception) :
  post_text_only self message (printed w [PrintPostingTo (self_name self)])
  = (inr (error_result e),
     requested (printed w [PrintPostingTo (self_name self)])
               (feed_request self message None)) ->
  post_method U self message None w
  = (inr (Failure (JStr (exception_str e))),
     printed (requested w (feed_request self message None))
             [PrintPostingTo (self_name self); PrintPostFailed (JStr (exception_str e))]).
Proof.
  intros H. unfold post_method.
  erewrite bind_ok by apply print_printed.
  erewrite bind_ok by reflexivity. cbn [nonempty_list].
  erewrite bind_ok by exact H.
  rewrite check_result_error, requested_printed, printed_app. reflexivity.
Qed.

Lemma post_method_uploads (message : str) (paths : list str) (w : World) :
  post_method U self message (Some paths) w =
  match upload_all self paths (printed w [PrintPostingTo (self_name self)]) with
  | (inr ids, w1) =>
      ((if nonempty_list ids then post_with_photos U self message ids
        else post_text_only self message) ≫= check_result U) w1
  | (inl r, w1) => (inl r, w1)
  end.
Proof.
  unfold post_method.
  erewrite bind_ok by apply print_printed.
  destruct paths as [|p ps].
  - erewrite bind_ok by reflexivity. reflexivity.
  - unfold mbind at 1. unfold M_bind at 1. unfold bind at 1.
    destruct (upload_all self (p :: ps) _) as [[r|ids] w1]; reflexivity.
Qed.
End post_more.

(** X16. A feed request that fails in transport, or whose response body is
    not JSON, does not raise: [post] returns a failure that carries the
    message of the exception, after printing it. *)
Theorem post_transport_failure (U : Unicode) (self : FacebookPoster)
    (message msg : str) (w : World) :
  (exists rest, network w = Failed msg :: rest)
  \/ (exists status_code rest, network w = Responded status_code (NotJson msg) :: rest) ->
  post_method U self message None w
  = (inr (Failure (JStr msg)),
     printed (requested w (feed_request self message None))
             [PrintPostingTo (self_name self); PrintPostFailed (JStr msg)]).
Proof.
  intros [[rest H]|[status_code [rest H]]].
  - apply (post_method_error U self message w (RequestException msg)).
    apply (post_text_only_failed self message _ msg rest). exact H.
  - apply (post_method_error U self message w (ValueError msg)).
    apply (post_text_only_not_json self message _ status_code msg rest). exact H.
Qed.

Lemma post_transport_failure_witness :
  post_method ascii_only example_poster (py "Hello") None
    (answering [Failed (py "timed out")])
  = (inr (Failure (JStr (py "timed out"))),
     printed (requested (answering [Failed (py "timed out")])
                        (feed_request example_poster (py "Hello") None))
             [PrintPostingTo (py "MyPage"); PrintPostFailed (JStr (py "timed out"))]).
Proof.
  apply (post_transport_failure ascii_only example_poster (py "Hello") (py "timed out")
           (answering [Failed (py "timed out")])).
  left. exists []. reflexivity.
Defined.

(** X17. Which feed request [post] sends.  After the uploads it sends one
    feed request: with the [attached_media] field built from the
    identifiers when at least one upload gave one, and the text-only
    request when none did, so a post whose uploads all fail still goes out
    as text.  When the user interrupts an upload no feed request is sent. *)
Theorem post_feed_request (U : Unicode) (self : FacebookPoster) (message : str)
    (paths : list str) (w : World) :
  match upload_all self paths (printed w [PrintPostingTo (self_name self)]) with
  | (inr ids, w1) =>
      sent (snd (post_method U self message (Some paths) w))
      = sent w1 ++ [feed_request self message
                      (if nonempty_list ids then Some (attached_media_field U ids)
                       else None)]
  | (inl r, w1) => post_method U self message (Some paths) w = (inl r, w1)
  end.
Proof.
  rewrite post_method_uploads.
  destruct (upload_all self paths _) as [[r|ids] w1]; [reflexivity|].
  rewrite feed_then_check_sent.
  destruct (nonempty_list ids).
  - apply post_with_photos_sent.
  - apply post_text_only_sent.
Qed.

(** X18. For photo identifiers that are strings of plain characters
    (printable ASCII other than the two quotes and the backslash, so all
    digit strings) the [attached_media] field is the JSON text of the list
    of objects with the key [media_fbid]. *)
Theorem attached_media_json_for_plain_ids (U : Unicode) (ids : list str) :
  Forall (fun id => forallb plain_char id = true) ids ->
  attached_media_field U (List.map JStr ids) = json_media_list ids.
Proof. apply attached_media_plain_ids. Qed.

Lemma attached_media_json_for_plain_ids_witness :
  attached_media_field ascii_only [JStr (py "123"); JStr (py "456")]
  = json_media_list [py "123"; py "456"].
Proof.
  apply (attached_media_json_for_plain_ids ascii_only [py "123"; py "456"]).
  repeat constructor.
Defined.

(** ** Orchestrator, further *)

Section orchestrator_more.
Variable U : Unicode.

Lemma bind_inr_inv {A B} (m : M A) (k : A -> M B) (w w' : World) (b : B) :
  (m ≫= k) w = (inr b, w') ->
  exists a w1, m w = (inr a, w1) /\ k a w1 = (inr b, w').
Proof.
  unfold mbind, M_bind, bind. destruct (m w) as [[r|a] w1]; [discriminate|].
  intros H. exists a, w1. split; [reflexivity|exact H].
Qed.

Lemma publish_inner (message : str) (image_paths : list str)
    (valid_pages : list FacebookPoster) (totals : nat * nat) (w w' : World) (s f : nat) :
  for_fold valid_pages totals (publish_to U message image_paths) w = (inr (s, f), w') ->
  (s + f = fst totals + snd totals + length valid_pages)%nat.
Proof.
  revert totals w. induction valid_pages as [|poster vps IH]; intros totals w H.
  - injection H as Ht _. subst totals. simpl. lia.
  - cbn [for_fold] in H. apply bind_inr_inv in H as [t1 [w1 [H1 H2]]].
    rewrite publish_to_run in H1.
    destruct (post_method U poster message _ w) as [[r|result] w2]; [discriminate|].
    injection H1 as <- <-. rewrite (IH _ _ H2).
    destruct (success result); simpl; lia.
Qed.

Lemma publish_outer (valid_pages : list FacebookPoster) (n : nat) (posts : list post)
    (start : N) (totals : nat * nat) (w w' : World) (s f : nat) :
  for_fold (enumerate start posts) totals (publish_post U valid_pages n) w
  = (inr (s, f), w') ->
  (s + f = fst totals + snd totals + length posts * length valid_pages)%nat.
Proof.
  revert start totals w. induction posts as [|p ps IH]; intros start totals w H.
  - injection H as Ht _. subst totals. simpl. lia.
  - cbn [enumerate for_fold] in H. apply bind_inr_inv in H as [[s1 f1] [w1 [H1 H2]]].
    unfold publish_post in H1.
    apply bind_inr_inv in H1 as [[] [w2 [_ H1]]].
    apply bind_inr_inv in H1 as [image_paths [w3 [_ H1]]].
    apply publish_inner in H1. rewrite (IH _ _ _ H2). cbn [fst snd length]. lia.
Qed.

Lemma exit_only_no_exit {A} (code : N) (m : M A) : no_exit m -> exit_only code m.
Proof. intros H w c w' E. exfalso. exact (H _ _ _ E). Qed.

Lemma exit_only_bind {A B} (code : N) (m : M A) (k : A -> M B) :
  exit_only code m -> (forall a, exit_only code (k a)) -> exit_only code (m ≫= k).
Proof.
  intros Hm Hk w c w'. unfold mbind, M_bind, bind.
  destruct (m w) as [[r|a] w1] eqn:E.
  - intros [= -> ->]. exact (Hm _ _ _ E).
  - apply Hk.
Qed.

Lemma exit_only_sys_exit {A} (code : N) : exit_only code (@sys_exit A code).
Proof. intros w c w' [= <- _]. reflexivity. Qed.

Lemma exit_only_if {A} (code : N) (b : bool) (m1 m2 : M A) :
  exit_only code m1 -> exit_only code m2 -> exit_only code (if b then m1 else m2).
Proof. destruct b; auto. Qed.

Lemma no_exit_returns {A} (m : M A) :
  (forall w, exists a w', m w = (inr a, w')) -> no_exit m.
Proof. intros H w c w' E. destruct (H w) as [a [w1 H1]]. congruence. Qed.

Lemma no_exit_for_fold {X S} (xs : list X) (acc : S) (body : S -> X -> M S) :
  (forall acc x, no_exit (body acc x)) -> no_exit (for_fold xs acc body).
Proof.
  intros H. revert acc. induction xs as [|x xs IH]; intros acc.
  - apply (no_exit_ret acc).
  - cbn [for_fold]. apply no_exit_bind; [apply H|intros a; apply IH].
Qed.

Lemma no_exit_try_except {A} (m : M A) (h : exception -> M A) :
  no_exit m -> (forall e, no_exit (h e)) -> no_exit (try_except m h).
Proof.
  intros Hm Hh w c w'. unfold try_except.
  destruct (m w) as [[[|code|e]|a] w1] eqn:E; try discriminate.
  - intros [= -> ->]. exact (Hm _ _ _ E).
  - apply Hh.
Qed.

Lemma no_exit_path_exists (path : str) : no_exit (path_exists path).
Proof. intros w c w'. discriminate. Qed.

Lemma no_exit_makedirs (path : str) : no_exit (makedirs path).
Proof.
  intros w c w'. unfold makedirs.
  destruct (plain_name path && writable (fs w)
            && negb (bool_decide (is_Some (fs w !! path)))); discriminate.
Qed.

Lemma no_exit_get_world : no_exit get_world.
Proof. intros w c w'. discriminate. Qed.

Lemma no_exit_load_facebook_pages (config_file : str) :
  no_exit (load_facebook_pages config_file).
Proof.
  intros w c w' E. unfold load_facebook_pages in E.
  rewrite (bind_ok (path_exists config_file) _ w w _ eq_refl) in E.
  destruct (negb (bool_decide (is_Some (fs w !! config_file)))).
  - rewrite (bind_ok _ _ _ _ _ (print_printed _ w)) in E. discriminate.
  - unfold mbind at 1 in E. unfold M_bind, bind, read_text in E.
    destruct (fs w !! config_file) as [[| | |]|]; try discriminate.
    rewrite load_loop in E. discriminate.
Qed.

Lemma no_exit_test_connection (self : FacebookPoster) : no_exit (test_connection self).
Proof.
  unfold test_connection. apply no_exit_try_except.
  - apply no_exit_bind; [apply no_exit_http|intros response].
    apply no_exit_if;
      repeat first [ apply no_exit_bind; [|intros ?]
                   | apply no_exit_response_json | apply no_exit_liftE
                   | apply no_exit_print | apply no_exit_ret ].
  - intros e. apply no_exit_bind; [apply no_exit_print|intros ?; apply no_exit_ret].
Qed.

Lemma no_exit_get_all_post_files (posts_dir : str) : no_exit (get_all_post_files posts_dir).
Proof.
  assert (Hglob : forall ext, no_exit (glob_ext posts_dir ext)).
  { intros ext. unfold glob_ext. apply no_exit_bind; [apply no_exit_get_world|intros w].
    apply no_exit_if; [apply no_exit_liftE|].
    apply no_exit_bind; [|intros names; apply no_exit_ret].
    unfold listdir. apply no_exit_bind; [apply no_exit_get_world|intros w0].
    apply no_exit_if; [intros w1 c w'; discriminate|].
    destruct (fs w0 !! _) as [[| | |]|]; apply no_exit_ret. }
  unfold get_all_post_files.
  apply no_exit_bind; [apply Hglob|intros txt_files].
  apply no_exit_bind; [apply no_exit_get_world|intros w].
  apply no_exit_bind; [|intros docx_files; apply no_exit_ret].
  apply no_exit_if; [apply Hglob|apply no_exit_ret].
Qed.

Lemma no_exit_load_post_from_file (filepath : str) :
  no_exit (load_post_from_file U filepath).
Proof.
  apply no_exit_returns. intros w.
  destruct (load_post_from_file_content U filepath w) as [evs H]. eauto.
Qed.

Lemma no_exit_upload_photo (self : FacebookPoster) (image_path : str) :
  no_exit (upload_photo self image_path).
Proof.
  intros w c w' E.
  destruct (upload_photo_outcome self image_path w) as [[id [w1 H]]|[w1 H]]; congruence.
Qed.

Lemma no_exit_post_method (self : FacebookPoster) (message : str)
    (image_paths : option (list str)) :
  no_exit (post_method U self message image_paths).
Proof.
  assert (Hfeed : forall attached,
            no_exit (try_except
                       (response ← http (PostFeed
                                           (GRAPH_API_BASE ++ [SLASH] ++ self_page_id self
                                            ++ py "/feed")
                                           message attached (self_token self));
                        response_json (snd response))
                       (fun e => mret (error_result e)))).
  { intros attached. apply no_exit_try_except.
    - apply no_exit_bind; [apply no_exit_http|intros ?; apply no_exit_response_json].
    - intros e. apply no_exit_ret. }
  unfold post_method.
  apply no_exit_bind; [apply no_exit_print|intros _].
  apply no_exit_bind.
  { destruct image_paths as [[|p ps]|]; try apply no_exit_ret.
    unfold upload_all. apply no_exit_for_fold. intros acc x. unfold upload_step.
    apply no_exit_bind; [apply no_exit_upload_photo|intros ?; apply no_exit_ret]. }
  intros photo_ids. apply no_exit_bind.
  { apply no_exit_if; [apply (Hfeed (Some _))|apply (Hfeed None)]. }
  intros result. unfold check_result.
  apply no_exit_bind; [apply no_exit_liftE|intros has_id].
  apply no_exit_if;
    repeat first [ apply no_exit_bind; [|intros ?]
                 | apply no_exit_liftE | apply no_exit_print | apply no_exit_ret ].
Qed.

Lemma no_exit_publishing (valid_pages : list FacebookPoster) (posts : list post) :
  no_exit (publishing U valid_pages posts).
Proof.
  unfold publishing. apply no_exit_for_fold. intros totals numbered.
  unfold publish_post.
  apply no_exit_bind; [apply no_exit_print|intros _].
  apply no_exit_bind.
  { apply no_exit_returns. intros w. rewrite prepare_image_paths_run. eauto. }
  intros image_paths. apply no_exit_for_fold. intros acc poster. unfold publish_to.
  apply no_exit_bind; [apply no_exit_post_method|intros result].
  apply no_exit_bind; [apply no_exit_ret|intros _; apply no_exit_ret].
Qed.

Lemma exit_only_before_summary : exit_only 1 (before_summary U).
Proof.
  assert (Hcheck : forall (b : bool) (e : event),
            exit_only 1 (if b then print e;; sys_exit 1 else mret tt)).
  { intros b e. apply exit_only_if.
    - apply exit_only_bind; [apply exit_only_no_exit, no_exit_print|].
      intros _. apply exit_only_sys_exit.
    - apply exit_only_no_exit, (no_exit_ret tt). }
  unfold before_summary.
  apply exit_only_bind.
  { unfold validating_dirs.
    apply exit_only_bind; [apply exit_only_no_exit, no_exit_path_exists|intros found].
    apply exit_only_bind; [apply Hcheck|intros _].
    apply exit_only_no_exit.
    apply no_exit_bind; [apply no_exit_path_exists|intros found'].
    apply no_exit_if; [|apply no_exit_ret].
    apply no_exit_bind; [apply no_exit_print|intros _; apply no_exit_makedirs]. }
  intros _. apply exit_only_bind.
  { unfold loading_registry.
    apply exit_only_bind; [apply exit_only_no_exit, no_exit_print|intros _].
    apply exit_only_bind;
      [apply exit_only_no_exit, no_exit_load_facebook_pages|intros pages].
    apply exit_only_bind; [apply Hcheck|intros _].
    apply exit_only_no_exit, no_exit_ret. }
  intros pages. apply exit_only_bind.
  { unfold checking_connectivity.
    apply exit_only_bind; [apply exit_only_no_exit, no_exit_print|intros _].
    apply exit_only_bind.
    { apply exit_only_no_exit. unfold test_connections. apply no_exit_for_fold.
      intros acc pg. cbn zeta.
      apply no_exit_bind; [apply no_exit_test_connection|intros ok; apply no_exit_ret]. }
    intros valid_pages.
    apply exit_only_bind; [apply Hcheck|intros _].
    apply exit_only_no_exit.
    apply no_exit_bind; [apply no_exit_print|intros _; apply no_exit_ret]. }
  intros valid_pages. apply exit_only_bind.
  { unfold loading_posts.
    apply exit_only_bind; [apply exit_only_no_exit, no_exit_print|intros _].
    apply exit_only_bind;
      [apply exit_only_no_exit, no_exit_get_all_post_files|intros post_files].
    apply exit_only_bind; [apply Hcheck|intros _].
    apply exit_only_bind; [apply exit_only_no_exit, no_exit_print|intros _].
    apply exit_only_bind.
    { apply exit_only_no_exit. unfold load_posts. apply no_exit_for_fold.
      intros acc filepath.
      apply no_exit_bind; [apply no_exit_load_post_from_file|intros ?; apply no_exit_ret]. }
    intros posts.
    apply exit_only_bind; [apply Hcheck|intros _].
    apply exit_only_no_exit.
    apply no_exit_bind; [apply no_exit_print|intros _; apply no_exit_ret]. }
  intros posts. apply exit_only_bind.
  { apply exit_only_no_exit, no_exit_publishing. }
  intros totals. apply exit_only_no_exit, no_exit_ret.
Qed.

Lemma exit_only_main : exit_only 1 (main U).
Proof.
  unfold main. apply exit_only_bind; [apply exit_only_before_summary|intros r].
  unfold summarizing.
  apply exit_only_bind; [apply exit_only_no_exit, no_exit_print|intros _].
  apply exit_only_if; [apply exit_only_sys_exit|apply exit_only_no_exit, (no_exit_ret tt)].
Qed.
End orchestrator_more.

Section publishing_requests.
Variable U : Unicode.

Lemma upload_photo_requests (self : FacebookPoster) (image_path : str) (w : World) :
  exists reqs, sent (snd (upload_photo self image_path w)) = sent w ++ reqs
               /\ omap feed_of reqs = [].
Proof.
  pose proof (upload_photo_cases self image_path w) as H. cbn zeta in H.
  assert (Hsame : forall r evs, upload_photo self image_path w = (r, printed w evs) ->
            exists reqs, sent (snd (upload_photo self image_path w)) = sent w ++ reqs
                         /\ omap feed_of reqs = []).
  { intros r evs ->. exists []. rewrite app_nil_r. split; reflexivity. }
  assert (Hreq : forall r url path tok pub evs,
            upload_photo self image_path w
            = (r, printed (requested w (PostPhoto url path tok pub)) evs) ->
            exists reqs, sent (snd (upload_photo self image_path w)) = sent w ++ reqs
                         /\ omap feed_of reqs = []).
  { intros r url path tok pub evs ->. exists [PostPhoto url path tok pub].
    split; reflexivity. }
  assert (Hreq0 : forall r url path tok pub,
            upload_photo self image_path w = (r, requested w (PostPhoto url path tok pub)) ->
            exists reqs, sent (snd (upload_photo self image_path w)) = sent w ++ reqs
                         /\ omap feed_of reqs = []).
  { intros r url path tok pub ->. exists [PostPhoto url path tok pub].
    split; reflexivity. }
  destruct (fs w !! image_path) as [[entries|content|paragraphs|]|];
    try (eapply Hsame; exact H);
    (destruct (network w) as [|[status_code [v|err]|msg|] rest];
     try (eapply Hreq; exact H); try (eapply Hreq0; exact H);
     destruct v as [| | | | |members]; try (eapply Hreq; exact H);
     destruct (dict_lookup (py "id") members);
     [eapply Hreq; exact H | destruct H as [e H]; eapply Hreq; exact H]).
Qed.

Lemma upload_all_requests (self : FacebookPoster) (image_paths : list str)
    (w w' : World) (ids : list json) :
  upload_all self image_paths w = (inr ids, w') ->
  exists reqs, sent w' = sent w ++ reqs /\ omap feed_of reqs = [].
Proof.
  revert w w' ids. induction image_paths as [|p ps IH]; intros w w' ids H.
  - injection H as _ <-. exists []. rewrite app_nil_r. split; reflexivity.
  - rewrite upload_all_cons in H.
    destruct (upload_photo_requests self p w) as [reqs [Hsent Hnone]].
    destruct (upload_photo self p w) as [[r|id] w1]; [discriminate|]. cbn [snd] in *.
    destruct (upload_all self ps w1) as [[r|ids'] w2] eqn:E; [discriminate|].
    injection H as _ <-.
    destruct (IH _ _ _ E) as [reqs' [Hsent' Hnone']].
    exists (reqs ++ reqs'). rewrite Hsent', Hsent, app_assoc, omap_app, Hnone, Hnone'.
    split; reflexivity.
Qed.

(** A call of [post] that returns has sent one feed request, to the feed
    of the target and with the message. *)
Lemma post_method_requests (self : FacebookPoster) (message : str)
    (image_paths : option (list str)) (w w' : World) (result : outcome) :
  post_method U self message image_paths w = (inr result, w') ->
  exists reqs, sent w' = sent w ++ reqs
               /\ omap feed_of reqs = [(feed_url self, message)].
Proof.
  intros H. destruct image_paths as [paths|].
  - pose proof (post_feed_sent := post_method_uploads U self message paths w).
    rewrite H in post_feed_sent.
    destruct (upload_all self paths (printed w [PrintPostingTo (self_name self)]))
      as [[r|ids] w1] eqn:E; [discriminate|].
    destruct (upload_all_requests _ _ _ _ _ E) as [reqs [Hsent Hnone]].
    cbn [printed sent] in Hsent.
    pose proof (feed_then_check_sent U
                  (if nonempty_list ids then post_with_photos U self message ids
                   else post_text_only self message) w1) as Hfeed.
    rewrite <- post_feed_sent in Hfeed. cbn [snd] in Hfeed.
    assert (Hlast : exists media,
              sent w' = sent w1 ++ [feed_request self message media]).
    { rewrite Hfeed. destruct (nonempty_list ids).
      - eexists. apply post_with_photos_sent.
      - eexists. apply post_text_only_sent. }
    destruct Hlast as [media Hlast].
    exists (reqs ++ [feed_request self message media]).
    rewrite Hlast, Hsent, <- app_assoc, omap_app, Hnone. split; reflexivity.
  - pose proof (post_method_none_sent U self message w) as Hsent.
    rewrite H in Hsent. cbn [snd] in Hsent.
    exists [feed_request self message None]. split; [exact Hsent|reflexivity].
Qed.

Lemma publish_inner_requests (message : str) (image_paths : list str)
    (valid_pages : list FacebookPoster) (totals totals' : nat * nat) (w w' : World) :
  for_fold valid_pages totals (publish_to U message image_paths) w = (inr totals', w') ->
  exists reqs, sent w' = sent w ++ reqs
               /\ omap feed_of reqs
                  = List.map (fun target => (feed_url target, message)) valid_pages.
Proof.
  revert totals w. induction valid_pages as [|poster vps IH]; intros totals w H.
  - injection H as _ <-. exists []. rewrite app_nil_r. split; reflexivity.
  - cbn [for_fold] in H. apply bind_inr_inv in H as [t1 [w1 [H1 H2]]].
    rewrite publish_to_run in H1.
    destruct (post_method U poster message _ w) as [[r|result] w2] eqn:E; [discriminate|].
    injection H1 as _ <-.
    destruct (post_method_requests _ _ _ _ _ _ E) as [reqs [Hsent Hfeed]].
    destruct (IH _ _ H2) as [reqs' [Hsent' Hfeed']].
    exists (reqs ++ reqs'). rewrite Hsent', Hsent, app_assoc, omap_app, Hfeed, Hfeed'.
    split; reflexivity.
Qed.

Lemma publish_outer_requests (valid_pages : list FacebookPoster) (n : nat)
    (posts : list post) (start : N) (totals totals' : nat * nat) (w w' : World) :
  for_fold (enumerate start posts) totals (publish_post U valid_pages n) w
  = (inr totals', w') ->
  exists reqs, sent w' = sent w ++ reqs
               /\ omap feed_of reqs
                  = flat_map (fun p => List.map (fun target => (feed_url target, post_text p))
                                         valid_pages) posts.
Proof.
  revert start totals w. induction posts as [|p ps IH]; intros start totals w H.
  - injection H as _ <-. exists []. rewrite app_nil_r. split; reflexivity.
  - cbn [enumerate for_fold] in H. apply bind_inr_inv in H as [t1 [w1 [H1 H2]]].
    unfold publish_post in H1. cbn [fst snd] in H1.
    rewrite (bind_ok _ _ _ _ _ (print_printed _ w)) in H1.
    rewrite (bind_ok _ _ _ _ _ (prepare_image_paths_run p _)) in H1.
    apply publish_inner_requests in H1 as [reqs [Hsent Hfeed]].
    cbn [printed sent] in Hsent.
    destruct (IH _ _ _ H2) as [reqs' [Hsent' Hfeed']].
    exists (reqs ++ reqs'). rewrite Hsent', Hsent, app_assoc, omap_app, Hfeed, Hfeed'.
    split; reflexivity.
Qed.
End publishing_requests.

(** X19. Every post is attempted on every reachable target, and each
    attempt is counted once.  When the publishing loop runs to its end it
    has sent exactly one feed request for every post and every target,
    post by post and target by target, to the feed of the target and with
    the text of the post, and the two counters add up to the number of
    posts times the number of targets. *)
Theorem publishing_count (U : Unicode) (valid_pages : list FacebookPoster)
    (posts : list post) (w w' : World) (total_success total_failed : nat) :
  publishing U valid_pages posts w = (inr (total_success, total_failed), w') ->
  (total_success + total_failed = length posts * length valid_pages)%nat
  /\ exists reqs,
       sent w' = sent w ++ reqs
       /\ omap feed_of reqs
          = flat_map (fun p => List.map (fun target => (feed_url target, post_text p))
                                 valid_pages) posts.
Proof.
  intros H. unfold publishing in H. split.
  - apply publish_outer in H. exact H.
  - apply publish_outer_requests in H. exact H.
Qed.

Lemma publishing_count_witness :
  (1 + 1 = 1 * 2)%nat
  /\ exists reqs,
       sent (snd (publishing ascii_only
                    [example_poster; mkPoster (py "456") (py "tok2") (py "Other")]
                    [mkPost (py "a.txt") (py "First") []]
                    (answering [PUBLISHED; REJECTED])))
       = [] ++ reqs
       /\ omap feed_of reqs
          = [(py "https://graph.facebook.com/v18.0/123/feed", py "First");
             (py "https://graph.facebook.com/v18.0/456/feed", py "First")].
Proof.
  refine (publishing_count ascii_only
            [example_poster; mkPoster (py "456") (py "tok2") (py "Other")]
            [mkPost (py "a.txt") (py "First") []]
            (answering [PUBLISHED; REJECTED])
            (snd (publishing ascii_only
                    [example_poster; mkPoster (py "456") (py "tok2") (py "Other")]
                    [mkPost (py "a.txt") (py "First") []]
                    (answering [PUBLISHED; REJECTED])))
            1 1 _).
  vm_compute. reflexivity.
Defined.

(** X20. The exit status of the script is 0 or 1, whatever the files, the
    environment and the network are. *)
Theorem exit_code_zero_or_one (U : Unicode) (w : World) :
  exit_code U w = 0 \/ exit_code U w = 1.
Proof.
  unfold exit_code, script.
  destruct (main U w) as [[[|code|e]|[]] w'] eqn:E; cbn [fst]; auto.
  right. exact (exit_only_main U _ _ _ E).
Qed.

Section orchestrator_results.
Variable U : Unicode.

Lemma check_inr_inv (b : bool) (e : event) (w w' : World) :
  (if b then print e;; sys_exit 1 else mret tt) w = (inr tt, w') -> b = false /\ w' = w.
Proof.
  destruct b; intros H.
  - rewrite (bind_ok _ _ _ _ _ (print_printed e w)) in H. discriminate.
  - injection H as <-. split; reflexivity.
Qed.

Lemma nonempty_list_true {X} (l : list X) : negb (nonempty_list l) = false -> l <> [].
Proof. destruct l; [discriminate|discriminate]. Qed.

Lemma checking_connectivity_inr (pages : list page) (w w' : World)
    (valid_pages : list FacebookPoster) :
  checking_connectivity pages w = (inr valid_pages, w') -> valid_pages <> [].
Proof.
  unfold checking_connectivity. intros H.
  apply bind_inr_inv in H as [[] [w1 [_ H]]].
  apply bind_inr_inv in H as [vps [w2 [_ H]]].
  apply bind_inr_inv in H as [[] [w3 [Hc H]]].
  apply check_inr_inv in Hc as [Hc _].
  apply bind_inr_inv in H as [[] [w4 [_ H]]].
  injection H as <- _. apply nonempty_list_true. exact Hc.
Qed.

Lemma loading_posts_inr (w w' : World) (posts : list post) :
  loading_posts U w = (inr posts, w') -> posts <> [].
Proof.
  unfold loading_posts. intros H.
  apply bind_inr_inv in H as [[] [w1 [_ H]]].
  apply bind_inr_inv in H as [post_files [w2 [_ H]]].
  apply bind_inr_inv in H as [[] [w3 [_ H]]].
  apply bind_inr_inv in H as [[] [w4 [_ H]]].
  apply bind_inr_inv in H as [posts' [w5 [_ H]]].
  apply bind_inr_inv in H as [[] [w6 [Hc H]]].
  apply check_inr_inv in Hc as [Hc _].
  apply bind_inr_inv in H as [[] [w7 [_ H]]].
  injection H as <- _. apply nonempty_list_true. exact Hc.
Qed.

Lemma before_summary_inr (w w' : World) (posts : list post)
    (valid_pages : list FacebookPoster) (totals : nat * nat) :
  before_summary U w = (inr (posts, valid_pages, totals), w') ->
  posts <> [] /\ valid_pages <> []
  /\ (fst totals + snd totals = length posts * length valid_pages)%nat.
Proof.
  unfold before_summary. intros H.
  apply bind_inr_inv in H as [[] [w1 [_ H]]].
  apply bind_inr_inv in H as [pages [w2 [_ H]]].
  apply bind_inr_inv in H as [vps [w3 [Hc H]]].
  apply bind_inr_inv in H as [ps [w4 [Hp H]]].
  apply bind_inr_inv in H as [totals' [w5 [Hpub H]]].
  injection H as -> -> -> _. destruct totals as [s f].
  split; [exact (loading_posts_inr _ _ _ Hp)|].
  split; [exact (checking_connectivity_inr _ _ _ _ Hc)|].
  unfold publishing in Hpub. apply publish_outer in Hpub. exact Hpub.
Qed.

Lemma test_connection_frame (self : FacebookPoster) (w w1 : World) (r : raised + bool) :
  test_connection self w = (r, w1) ->
  sent w1 = sent w ++ [GetPage (GRAPH_API_BASE ++ [SLASH] ++ self_page_id self)
                               (py "name,fan_count") (self_token self)]
  /\ fs w1 = fs w.
Proof.
  intros Hrun. pose proof (test_connection_cases self w) as H. cbn zeta in H.
  assert (Hp : forall x evs,
            test_connection self w
            = (x, printed (requested w (GetPage (GRAPH_API_BASE ++ [SLASH] ++ self_page_id self)
                                          (py "name,fan_count") (self_token self))) evs) ->
            sent w1 = sent w ++ [GetPage (GRAPH_API_BASE ++ [SLASH] ++ self_page_id self)
                                         (py "name,fan_count") (self_token self)]
            /\ fs w1 = fs w).
  { intros x evs E. rewrite E in Hrun. injection Hrun as _ <-. split; reflexivity. }
  destruct (network w) as [|[status_code [v|err]|msg|] rest];
    try (eapply Hp; exact H).
  - destruct v as [| | | | |members]; try (eapply Hp; exact H).
    destruct (status_code =? 200).
    + destruct (format_thousands _); eapply Hp; exact H.
    + destruct H as [e H]. eapply Hp; exact H.
  - rewrite H in Hrun. injection Hrun as _ <-. split; reflexivity.
Qed.

Lemma test_connections_loop (pages : list page) (acc valid_pages : list FacebookPoster)
    (w w' : World) :
  for_fold pages acc
    (fun valid_pages pg =>
       let poster := mkPoster (page_id pg) (token pg) (name pg) in
       ok ← test_connection poster;
       mret (if (ok : bool) then valid_pages ++ [poster] else valid_pages)) w
  = (inr valid_pages, w') ->
  (exists extra,
     valid_pages = acc ++ extra
     /\ sublist extra (List.map (fun pg => mkPoster (page_id pg) (token pg) (name pg)) pages))
  /\ sent w'
     = sent w ++ List.map (fun pg => GetPage (GRAPH_API_BASE ++ [SLASH] ++ page_id pg)
                                             (py "name,fan_count") (token pg)) pages
  /\ fs w' = fs w.
Proof.
  revert acc w. induction pages as [|pg pages IH]; intros acc w H.
  - injection H as <- <-. split; [|split; [rewrite app_nil_r|]; reflexivity].
    exists []. rewrite app_nil_r. split; [reflexivity|constructor].
  - cbn [for_fold] in H. apply bind_inr_inv in H as [acc1 [w1 [H1 H2]]].
    cbn zeta in H1. apply bind_inr_inv in H1 as [ok [w2 [Ht H1]]].
    injection H1 as <- <-.
    apply test_connection_frame in Ht as [Hsent Hfs]. cbn [self_page_id self_token] in Hsent.
    destruct (IH _ _ H2) as [[extra [Hv Hsub]] [Hsent' Hfs']].
    split; [|split].
    + destruct ok.
      * exists (mkPoster (page_id pg) (token pg) (name pg) :: extra).
        rewrite Hv, <- app_assoc. split; [reflexivity|].
        cbn [List.map]. apply sublist_skip. exact Hsub.
      * exists extra. split; [exact Hv|]. cbn [List.map]. apply sublist_cons. exact Hsub.
    + rewrite Hsent', Hsent, <- app_assoc. reflexivity.
    + congruence.
Qed.

Lemma load_post_result (filepath : str) (w : World) :
  exists r evs,
    load_post_from_file U filepath w = (inr r, printed w evs)
    /\ forall p, r = Some p -> filename p = basename filepath /\ post_text p <> [].
Proof.
  destruct (load_post_from_file_content U filepath w) as [evs H].
  eexists _, _. split; [exact H|]. cbn zeta. intros p Hp.
  match type of Hp with
  | (if nonempty (text (parse_post_content U ?c)) then _ else _) = _ =>
      destruct (text (parse_post_content U c)) as [|ch t] eqn:E; [discriminate|]
  end.
  cbn [nonempty] in Hp. injection Hp as <-. split; [reflexivity|discriminate].
Qed.

Lemma load_posts_loop (post_files : list str) (acc : list post) (w : World) :
  exists extra evs,
    for_fold post_files acc
      (fun posts filepath =>
         post_data ← load_post_from_file U filepath;
         mret (posts ++ option_list post_data)) w
    = (inr (acc ++ extra), printed w evs)
    /\ sublist (List.map filename extra) (List.map basename post_files)
    /\ Forall (fun p => post_text p <> []) extra.
Proof.
  revert acc w. induction post_files as [|f fs IH]; intros acc w.
  - exists [], []. rewrite app_nil_r, printed_nil. repeat split; constructor.
  - cbn [for_fold].
    destruct (load_post_result f w) as [r [evs [Hr Hp]]].
    destruct (IH (acc ++ option_list r) (printed w evs)) as [extra [evs' [Hl [Hsub Hall]]]].
    exists (option_list r ++ extra), (evs ++ evs').
    split; [|split].
    + erewrite bind_ok.
      2:{ erewrite bind_ok by exact Hr. reflexivity. }
      rewrite Hl, printed_app, app_assoc. reflexivity.
    + destruct r as [p|]; cbn [option_list app List.map].
      * destruct (Hp p eq_refl) as [-> _]. apply sublist_skip. exact Hsub.
      * apply sublist_cons. exact Hsub.
    + destruct r as [p|]; cbn [option_list app]; [|exact Hall].
      constructor; [exact (proj2 (Hp p eq_refl))|exact Hall].
Qed.
End orchestrator_results.

(** X21. A run that ends with status 0 either was interrupted by the
    user, and says so last, or ends with a summary that reports no
    failure, at least one post and one target, and as many successes as
    posts times targets. *)
Theorem exit_zero_means (U : Unicode) (w : World) :
  exit_code U w = 0 ->
  List.last (output U w) PrintFatal = PrintCancelled
  \/ exists posts targets,
       (0 < posts)%nat /\ (0 < targets)%nat
       /\ List.last (output U w) PrintFatal
          = PrintSummary posts targets (posts * targets) 0.
Proof.
  unfold exit_code, output, script. intros H.
  destruct (main U w) as [[[|code|e]|[]] w'] eqn:E; cbn [fst snd] in *.
  - left. cbn [print snd stdout]. apply last_last.
  - pose proof (exit_only_main U _ _ _ E). subst code. discriminate.
  - discriminate.
  - right. unfold main in E.
    apply bind_inr_inv in E as [[[posts vps] [s f]] [w1 [Hb Hs]]].
    cbn [fst snd] in Hs. rewrite summarizing_run in Hs. cbn [fst snd] in Hs.
    destruct (before_summary_inr U _ _ _ _ _ Hb) as [Hp [Hv Hcount]].
    cbn [fst snd] in Hcount.
    destruct (0 <? f)%nat eqn:Hf; [discriminate|]. apply Nat.ltb_ge in Hf.
    injection Hs as <-.
    exists (length posts), (length vps).
    split; [destruct posts; [congruence|simpl; lia]|].
    split; [destruct vps; [congruence|simpl; lia]|].
    cbn [printed stdout]. rewrite last_last.
    replace f with 0%nat by lia. f_equal. lia.
Qed.

Lemma exit_zero_means_witness :
  List.last (output ascii_only success_world) PrintFatal = PrintCancelled
  \/ exists posts targets,
       (0 < posts)%nat /\ (0 < targets)%nat
       /\ List.last (output ascii_only success_world) PrintFatal
          = PrintSummary posts targets (posts * targets) 0.
Proof.
  apply (exit_zero_means ascii_only success_world). vm_compute. reflexivity.
Defined.

(** X22. With the posts directory in place the directory check looks at
    the images directory.  When it is there nothing happens.  When it is
    missing and can be created, the check reports it and creates it, and
    it is found afterwards, also under its name followed by a slash.  When
    it cannot be created the [OSError] of [os.makedirs] leaves [main], and
    the run ends with the fatal message and status 1. *)
Theorem validating_dirs_creates (U : Unicode) (w : World) :
  is_Some (fs w !! POSTS_DIR) ->
  (is_Some (fs w !! IMAGES_DIR) -> validating_dirs w = (inr tt, w))
  /\ (fs w !! IMAGES_DIR = None -> writable (fs w) = true ->
      exists w',
        validating_dirs w = (inr tt, w')
        /\ stdout w' = stdout w ++ [PrintImagesDirMissing]
        /\ fs w' !! IMAGES_DIR = Some (Dir [])
        /\ fs w' !! (IMAGES_DIR ++ [SLASH]) = Some (Dir []))
  /\ (fs w !! IMAGES_DIR = None -> writable (fs w) = false ->
      validating_dirs w
      = (inl (Exc (OSError IMAGES_DIR)), printed w [PrintImagesDirMissing])
      /\ exit_code U w = 1
      /\ output U w = stdout w ++ [PrintImagesDirMissing; PrintFatal]).
Proof.
  intros Hposts.
  assert (Hstart : forall k : bool -> M unit,
            (path_exists POSTS_DIR ≫= (fun found =>
               (if negb found then print PrintPostsDirMissing;; sys_exit 1 else mret tt);;
               found' ← path_exists IMAGES_DIR; k found')) w
            = (path_exists IMAGES_DIR ≫= k) w).
  { intros k. rewrite (bind_ok _ _ _ _ _ (path_exists_some POSTS_DIR w Hposts)).
    cbn [negb]. erewrite bind_ok by reflexivity. reflexivity. }
  unfold validating_dirs. rewrite Hstart. clear Hstart.
  split; [|split].
  - intros Himg. rewrite (bind_ok _ _ _ _ _ (path_exists_some IMAGES_DIR w Himg)).
    reflexivity.
  - intros Himg Hw. rewrite (bind_ok _ _ _ _ _ (path_exists_none IMAGES_DIR w Himg)).
    cbn [negb]. erewrite bind_ok by apply print_printed.
    unfold makedirs. cbn [printed fs]. rewrite Hw, Himg.
    rewrite bool_decide_false by (intros [x Hx]; discriminate).
    change (plain_name IMAGES_DIR) with true. cbn [andb negb].
    eexists. split; [reflexivity|]. cbn [stdout fs]. split; [reflexivity|].
    assert (Hdir : <[IMAGES_DIR := Dir []]>
                     (<[[DOT] := Dir (cwd_entries (fs w) ++ [IMAGES_DIR])]> (fs w))
                   !! IMAGES_DIR = Some (Dir [])).
    { rewrite lookup_plain_name by reflexivity.
      unfold insert at 1. unfold filesystem_insert. cbn [nodes].
      apply lookup_insert_eq. }
    split; [exact Hdir|]. apply lookup_trailing_slash. exact Hdir.
  - intros Himg Hw.
    assert (Hv : (path_exists IMAGES_DIR ≫= (fun found =>
                    if negb found then print PrintImagesDirMissing;; makedirs IMAGES_DIR
                    else mret tt)) w
                 = (inl (Exc (OSError IMAGES_DIR)), printed w [PrintImagesDirMissing])).
    { rewrite (bind_ok _ _ _ _ _ (path_exists_none IMAGES_DIR w Himg)).
      cbn [negb]. erewrite bind_ok by apply print_printed.
      unfold makedirs. cbn [printed fs]. rewrite Hw, andb_false_r. reflexivity. }
    split; [exact Hv|].
    assert (Hmain : main U w
                    = (inl (Exc (OSError IMAGES_DIR)), printed w [PrintImagesDirMissing])).
    { unfold main, before_summary. apply bind_raise. apply bind_raise.
      unfold validating_dirs.
      rewrite (bind_ok _ _ _ _ _ (path_exists_some POSTS_DIR w Hposts)).
      cbn [negb]. erewrite bind_ok by reflexivity. exact Hv. }
    unfold exit_code, output, script. rewrite Hmain. split; [reflexivity|].
    cbn [snd print stdout printed]. rewrite <- app_assoc. reflexivity.
Qed.

Lemma validating_dirs_creates_witness :
  exists w',
    validating_dirs unconfigured_world = (inr tt, w')
    /\ fs w' !! (IMAGES_DIR ++ [SLASH]) = Some (Dir []).
Proof.
  destruct (validating_dirs_creates ascii_only unconfigured_world) as [_ [H _]].
  - exists (Dir []). reflexivity.
  - destruct H as [w' [H [_ [_ Hs]]]]; [reflexivity|reflexivity|].
    exists w'. split; [exact H|exact Hs].
Defined.

(** X23. The connection loop asks once for every configured target, in
    the order of the registry, and keeps the targets that answered in that
    same order; it does not touch the files. *)
Theorem test_connections_order (pages : list page) (w w' : World)
    (valid_pages : list FacebookPoster) :
  test_connections pages w = (inr valid_pages, w') ->
  sublist valid_pages (List.map (fun pg => mkPoster (page_id pg) (token pg) (name pg)) pages)
  /\ sent w'
     = sent w ++ List.map (fun pg => GetPage (GRAPH_API_BASE ++ [SLASH] ++ page_id pg)
                                             (py "name,fan_count") (token pg)) pages
  /\ fs w' = fs w.
Proof.
  intros H. unfold test_connections in H.
  apply test_connections_loop in H as [[extra [-> Hsub]] Hrest].
  split; [exact Hsub|exact Hrest].
Qed.

Lemma test_connections_order_witness :
  sublist [example_poster]
    (List.map (fun pg => mkPoster (page_id pg) (token pg) (name pg))
       [mkPage (py "9") (py "bad") (py "Gone"); mkPage (py "123") (py "tok") (py "MyPage")]).
Proof.
  refine (proj1 (test_connections_order
                   [mkPage (py "9") (py "bad") (py "Gone");
                    mkPage (py "123") (py "tok") (py "MyPage")]
                   (answering [REJECTED; CONNECTED])
                   (snd (test_connections
                           [mkPage (py "9") (py "bad") (py "Gone");
                            mkPage (py "123") (py "tok") (py "MyPage")]
                           (answering [REJECTED; CONNECTED])))
                   [example_poster] _)).
  vm_compute. reflexivity.
Defined.

(** X24. Loading the posts never raises and only prints.  The posts come
    in the order of the files, each under the base name of its file, files
    that give no post are skipped, and every loaded post has a body. *)
Theorem load_posts_order (U : Unicode) (post_files : list str) (w : World) :
  exists posts evs,
    load_posts U post_files w = (inr posts, printed w evs)
    /\ sublist (List.map filename posts) (List.map basename post_files)
    /\ Forall (fun p => post_text p <> []) posts.
Proof.
  destruct (load_posts_loop U post_files [] w) as [extra [evs H]].
  exists extra, evs. exact H.
Qed.

Lemma test_connection_true_iff_witness :
  fst (test_connection example_poster (answering [CONNECTED])) = inr true
  /\ fst (test_connection example_poster
            (answering [Responded 200 (Json (JObj [(py "fan_count", JStr (py "12"))]))]))
     = inr false.
Proof.
  split.
  - apply (proj2 (proj1 (test_connection_true_iff example_poster
                           (answering [CONNECTED])))).
    exists [(py "name", JStr (py "MyPage")); (py "fan_count", JInt 5)], [].
    split; [reflexivity|]. exists 5%Z. reflexivity.
  - apply (proj2 (proj2 (test_connection_true_iff example_poster
                           (answering [Responded 200
                                         (Json (JObj [(py "fan_count", JStr (py "12"))]))])))).
    + intros [members [rest [E [shown Hs]]]]. injection E as <- _. discriminate Hs.
    + intros [rest E]. discriminate E.
Defined.
